(** * STM8 serial flasher: the bootloader protocol engine and its serial transport

    A shallow embedding of [bootloader.c] (the [bsl_*] routines) and of the
    POSIX branch of [serial_comm.c], followed by the properties of the
    natural-language specification that were checked against them.

    Conventions.
    - C integers are [Z]; the wrap-around of [uint8_t] and [uint32_t] is
      written out with [u8] and [u32].
    - A byte on the wire is a [Z] in [0, 255].  Every constant a [char] of
      the code is compared with is below [0x80], so the signedness of [char]
      does not change any comparison.
    - [Exit(1, g_pauseOnExit)] terminates the process; it is the [Exit]
      outcome of the monad [M], which stops the routine where it stands.
    - [printf]/[fprintf] output is not modelled. *)

From Stdlib Require Import ZArith List Lia Bool.
Import ListNotations.
Local Open Scope Z_scope.

(** ** Machine integers *)

Definition u8 (x : Z) : Z := x mod 256.
Definition u32 (x : Z) : Z := x mod 4294967296.

(** ** Outcomes *)

(** One constructor per family of [fprintf(stderr, ...); Exit(...)] sites.
    The numeric argument is the phase of the dialogue (1 = command,
    2 = address or sector, 3 = length or data), as in the messages
    "ACK1 timeout", "ACK2 failure", ... *)
Inductive error : Type :=
| E_port_not_open
| E_send_failed (phase : Z)
| E_ack_timeout (phase : Z)
| E_ack_failure (phase : Z)
| E_wrong_response (b : Z)
| E_no_response
| E_cannot_identify
| E_wrong_code (expected : Z)
| E_get_attributes
| E_set_attributes
| E_modem_lines
| E_out_of_fuel.

Inductive res (A : Type) : Type :=
| Ok (a : A)
| Exit (e : error).
Arguments Ok {A} a.
Arguments Exit {A} e.

(** ** The serial line as the POSIX branch sees it *)

Record termios : Type := mkTermios {
  c_iflag : Z;
  c_oflag : Z;
  c_cflag : Z;
  c_lflag : Z;
  c_vmin  : Z;   (* c_cc[VMIN]  *)
  c_vtime : Z;   (* c_cc[VTIME] *)
  c_ispeed : Z;
  c_ospeed : Z
}.

(** What the next [read] on the descriptor will give. *)
Inductive rd : Type :=
| RdBytes (bs : list Z)   (* that many bytes are readable *)
| RdEAGAIN                (* read returns -1, errno = EAGAIN *)
| RdError                 (* read returns -1, another errno *)
| SelError.               (* select itself returns -1 *)

(** Pending input: after [ev_wait] more milliseconds of waiting [select]
    reports the descriptor readable and the next [read] behaves as [ev_rd].
    When a descriptor counts as readable is the business of the tty driver:
    with VTIME non-zero, which is what a read timeout of 100 ms or more
    gives, Linux reports it as soon as one byte has arrived; with VTIME = 0
    it waits until VMIN bytes have arrived. The script holds the moments at
    which the driver reports the descriptor readable, which are the arrivals
    of the bytes in the first case only. *)
Record event : Type := Ev { ev_wait : Z; ev_rd : rd }.

(** System calls made while receiving (instrumentation). *)
Inductive syscall : Type :=
| SysSelect (tmo blocked ret : Z)   (* timeout given, time spent, result *)
| SysRead (count ret : Z).

(** What crossed the wire, in order (instrumentation). *)
Inductive io : Type :=
| TxEv (bs : list Z)    (* bytes accepted by one write *)
| RxEv (bs : list Z).   (* bytes delivered by one receive_port *)

Record port : Type := mkPort {
  fd    : Z;              (* HANDLE; 0 = not open *)
  tio   : termios;        (* kernel copy of the terminal attributes *)
  modem : Z;              (* modem-control lines (TIOCMGET/TIOCMSET) *)
  now   : Z;              (* milliseconds elapsed *)
  line  : list event;     (* what the target will deliver *)
  wr    : list Z;         (* results of the next write calls *)
  wire  : list io;
  sys   : list syscall
}.

Definition with_tio (p : port) (t : termios) : port :=
  mkPort (fd p) t (modem p) (now p) (line p) (wr p) (wire p) (sys p).
Definition with_modem (p : port) (m : Z) : port :=
  mkPort (fd p) (tio p) m (now p) (line p) (wr p) (wire p) (sys p).
Definition with_line (p : port) (t : Z) (l : list event) : port :=
  mkPort (fd p) (tio p) (modem p) t l (wr p) (wire p) (sys p).

(** ** The monad of the routines: port state and process exit *)

Definition M (A : Type) : Type := port -> res A * port.

Definition ret {A} (a : A) : M A := fun p => (Ok a, p).
Definition exit_ {A} (e : error) : M A := fun p => (Exit e, p).
Definition bind {A B} (m : M A) (f : A -> M B) : M B :=
  fun p => match m p with
           | (Ok a, p') => f a p'
           | (Exit e, p') => (Exit e, p')
           end.

Notation "x <- m ;; k" := (bind m (fun x => k))
  (at level 61, m at next level, right associativity).
Notation "' pat <- m ;; k" := (bind m (fun x => match x with pat => k end))
  (at level 61, pat pattern, m at next level, right associativity).
Notation "m ;;; k" := (bind m (fun _ => k))
  (at level 61, right associativity).

(** [if (cond) { fprintf(stderr, ...); Exit(1, g_pauseOnExit); }] *)
Definition fail_if (cond : bool) (e : error) : M unit :=
  if cond then exit_ e else ret tt.

(** [x != y] *)
Definition neq (x y : Z) : bool := negb (x =? y).

(** ** serial_comm.c, POSIX branch *)

(** [tcgetattr]/[tcsetattr]/[ioctl] succeed on a descriptor the kernel knows;
    [init_port] hands out 0 for a port that could not be opened. The kernel
    copy of the attributes is taken to be what [tcsetattr] was given; a
    driver may adjust a request it does not support (a pseudo-terminal keeps
    8 data bits). *)
Definition tcgetattr (p : port) : option termios :=
  if 0 <? fd p then Some (tio p) else None.

Definition tcsetattr (p : port) (t : termios) : option port :=
  if 0 <? fd p then Some (with_tio p t) else None.

(** [select(fpCom + 1, &fdr, NULL, NULL, &tv)] on the head of the pending
    input: the result and the time spent blocked. The descriptor is ready
    when the head of the script is due within [tmo] ms. *)
Definition select (tmo : Z) (e : event) : Z * Z :=
  if tmo <? ev_wait e then (0, tmo)
  else match ev_rd e with
       | SelError => (-1, ev_wait e)
       | _ => (1, ev_wait e)
       end.

(** [read(fpCom, dest, remaining)]: the result, the bytes stored at [dest],
    and whether [errno == EAGAIN]. *)
Definition read (count : Z) (r : rd) : Z * list Z * bool :=
  match r with
  | RdBytes bs => (Z.min count (Z.of_nat (length bs)), firstn (Z.to_nat count) bs, false)
  | RdEAGAIN => (-1, [], true)
  | RdError => (-1, [], false)
  | SelError => (-1, [], false)
  end.

Inductive stop : Type :=
| Complete       (* left the while loop with remaining = 0 *)
| SelectNot1     (* select(...) != 1 *)
| ReadFailed.    (* read gave -1 with errno != EAGAIN *)

(** The [while (remaining)] loop of [receive_port].  [tv] is re-initialised
    from [timeout] at the top of every iteration.  An iteration uses up the
    head of the pending input; when a [read] leaves [remaining] at 0 the rest
    of what it found stays buffered and the loop test fails. *)
Fixpoint recv_loop (timeout : Z) (l : list event) (remaining : Z) (dest : list Z)
  : stop * Z * list Z * list event * list syscall :=
  if remaining =? 0 then (Complete, remaining, dest, l, [])
  else
    let tv := (timeout / 1000) * 1000 + ((timeout mod 1000) * 1000) / 1000 in
    match l with
    | [] => (SelectNot1, remaining, dest, [], [SysSelect tv tv 0])
    | e :: l' =>
        let '(ready, blocked) := select tv e in
        if neq ready 1 then
          (SelectNot1, remaining, dest,
           (if ready =? 0 then Ev (ev_wait e - tv) (ev_rd e) :: l' else l'),
           [SysSelect tv blocked ready])
        else
          let '(got, bs, eagain) := read remaining (ev_rd e) in
          let calls := [SysSelect tv blocked ready; SysRead remaining got] in
          if got =? -1 then
            if eagain then
              let '(s, r, d, l2, c) := recv_loop timeout l' remaining dest in
              (s, r, d, l2, calls ++ c)
            else (ReadFailed, remaining, dest, l', calls)
          else if 0 <? got then
            if remaining - got =? 0 then
              (Complete, remaining - got, dest ++ bs,
               match ev_rd e with
               | RdBytes all =>
                   match skipn (Z.to_nat got) all with
                   | [] => l'
                   | more => Ev 0 (RdBytes more) :: l'
                   end
               | _ => l'
               end,
               calls)
            else
              let '(s, r, d, l2, c) := recv_loop timeout l' (remaining - got) (dest ++ bs) in
              (s, r, d, l2, calls ++ c)
          else
            let '(s, r, d, l2, c) := recv_loop timeout l' remaining dest in
            (s, r, d, l2, calls ++ c)
    end.

(** Time spent in the system calls of a log. *)
Definition blocked_of (c : syscall) : Z :=
  match c with
  | SysSelect _ b _ => b
  | SysRead _ _ => 0
  end.

Definition elapsed (cs : list syscall) : Z :=
  fold_right (fun c acc => blocked_of c + acc) 0 cs.

(** [receive_port(fpCom, lenRx, Rx)]: the number of bytes received and the
    bytes stored at [Rx[0..]]. [lenRx] is a [uint32_t]: [0 <= lenRx]. *)
Definition receive_port_why (lenRx : Z) (p : port) : res (Z * list Z) * port * stop :=
  match tcgetattr p with
  | None => (Exit E_get_attributes, p, Complete)
  | Some toptions =>
      let timeout := c_vtime toptions * 100 in
      let '(s, remaining, dest, l, calls) := recv_loop timeout (line p) lenRx [] in
      (Ok (lenRx - remaining, dest),
       mkPort (fd p) (tio p) (modem p) (now p + elapsed calls) l (wr p)
              (wire p ++ [RxEv dest]) (sys p ++ calls),
       s)
  end.

Definition receive_port (lenRx : Z) : M (Z * list Z) :=
  fun p => fst (receive_port_why lenRx p).

(** [send_port(fpCom, lenTx, Tx)]: [write] accepts what the script says,
    everything when the script is silent. The [uint32_t] result is stored
    in an [int] by every caller, so -1 is kept as -1. *)
Definition send_port (lenTx : Z) (Tx : list Z) : M Z :=
  fun p =>
    let numChars := match wr p with
                    | [] => lenTx
                    | r :: _ => if r <? 0 then -1 else Z.min r lenTx
                    end in
    (Ok numChars,
     mkPort (fd p) (tio p) (modem p) (now p) (line p) (tl (wr p))
            (wire p ++ [TxEv (firstn (Z.to_nat numChars) Tx)]) (sys p)).

(** [set_timeout(fpCom, timeout)] *)
Definition set_timeout (timeout : Z) : M unit :=
  fun p =>
    match tcgetattr p with
    | None => (Exit E_get_attributes, p)
    | Some t =>
        let t' := mkTermios (c_iflag t) (c_oflag t) (c_cflag t) (c_lflag t)
                            255 (u8 (timeout / 100)) (c_ispeed t) (c_ospeed t) in
        match tcsetattr p t' with
        | None => (Exit E_set_attributes, p)
        | Some p' => (Ok tt, p')
        end
    end.

(** [tcflush(fpCom, TCIOFLUSH)]: input that has already arrived is dropped. *)
Fixpoint tcflush (l : list event) : list event :=
  match l with
  | Ev w (RdBytes bs) :: l' => if w <=? 0 then tcflush l' else l
  | _ => l
  end.

Definition flush_port : M unit :=
  fun p => (Ok tt, with_line p (now p) (tcflush (line p))).

(** [SLEEP(ms)]: time passes, pending input comes closer. *)
Definition SLEEP (ms : Z) : M unit :=
  fun p =>
    (Ok tt,
     with_line p (now p + ms)
       match line p with
       | [] => []
       | Ev w r :: l' => Ev (Z.max 0 (w - ms)) r :: l'
       end).

(** The read timeout of the port in ms, as [get_port_attribute] and
    [receive_port] read it back. *)
Definition timeout_ms (p : port) : Z := c_vtime (tio p) * 100.

(** ** Port attributes ([get_port_attribute], [set_port_attribute]) *)

(** The constants of [<termios.h>] and [<sys/ioctl.h>] the two routines use.
    They belong to the platform, not to the repository, and are taken as
    parameters. [B14400] and [B28800] exist on some platforms only
    ([#ifdef B14400], [#ifdef B28800]). *)
Class termios_h : Type := {
  B4800 : Z; B9600 : Z; B14400 : option Z; B19200 : Z; B28800 : option Z;
  B38400 : Z; B57600 : Z; B115200 : Z;
  CS7 : Z; CS8 : Z; CSIZE : Z; PARENB : Z; CSTOPB : Z;
  CRTSCTS : Z; CREAD : Z; CLOCAL : Z;
  IXON : Z; IXOFF : Z; IXANY : Z;
  ICANON : Z; ECHO : Z; ECHOE : Z; ISIG : Z;
  OPOST : Z;
  TIOCM_RTS : Z; TIOCM_DTR : Z
}.

Definition UINT32_MAX : Z := 4294967295.

(** The arguments of [set_port_attribute], the results of
    [get_port_attribute]. *)
Record attributes : Type := mkAttr {
  baudrate : Z;
  timeout  : Z;
  numBits  : Z;
  parity   : Z;
  numStop  : Z;
  RTS      : Z;
  DTR      : Z
}.

Section Attributes.
Context {K : termios_h}.

(** [case c: ...] of a constant that may not be defined. *)
Definition is_case (x : Z) (c : option Z) : bool :=
  match c with
  | Some v => x =? v
  | None => false
  end.

(** [switch(baudrate) { case 4800: brate=B4800; ... }], with
    [speed_t brate = baudrate] when no case applies. [cfsetispeed] and
    [cfsetospeed] are taken to store the value they are given; a C library
    may refuse a value that is none of its speed constants, which concerns
    the rates without a case only. *)
Definition brate_of (baudrate : Z) : Z :=
  if baudrate =? 4800 then B4800
  else if baudrate =? 9600 then B9600
  else if baudrate =? 14400 then match B14400 with Some b => b | None => baudrate end
  else if baudrate =? 19200 then B19200
  else if baudrate =? 28800 then match B28800 with Some b => b | None => baudrate end
  else if baudrate =? 38400 then B38400
  else if baudrate =? 57600 then B57600
  else if baudrate =? 115200 then B115200
  else baudrate.

(** [switch (brate) { case B4800: *baudrate = 4800; ... default: UINT32_MAX }] *)
Definition baudrate_of (brate : Z) : Z :=
  if brate =? B4800 then 4800
  else if brate =? B9600 then 9600
  else if is_case brate B14400 then 14400
  else if brate =? B19200 then 19200
  else if is_case brate B28800 then 28800
  else if brate =? B38400 then 38400
  else if brate =? B57600 then 57600
  else if brate =? B115200 then 115200
  else UINT32_MAX.

(** [flags |= x] and [flags &= ~x] *)
Definition set_bits (flags x : Z) : Z := Z.lor flags x.
Definition clear_bits (flags x : Z) : Z := Z.land flags (Z.lnot x).

(** The RTS/DTR part shared by the setters:
    [ioctl(TIOCMGET); status |= / &= ~ ...; ioctl(TIOCMSET)]. *)
Definition set_modem_lines (RTS DTR : Z) : M unit :=
  fun p =>
    let status := modem p in
    let status := if RTS =? 1 then set_bits status TIOCM_RTS
                  else clear_bits status TIOCM_RTS in
    let status := if DTR =? 1 then set_bits status TIOCM_DTR
                  else clear_bits status TIOCM_DTR in
    if 0 <? fd p then (Ok tt, with_modem p status)
    else (Exit E_modem_lines, p).

(** [set_port_attribute(fpCom, baudrate, timeout, numBits, parity, numStop, RTS, DTR)] *)
Definition set_port_attribute (a : attributes) : M unit :=
  fun p =>
    match tcgetattr p with
    | None => (Exit E_get_attributes, p)
    | Some t =>
        let brate := brate_of (baudrate a) in
        let cflag := c_cflag t in
        let cflag := if numBits a =? 7 then set_bits cflag CS7
                     else set_bits cflag CS8 in
        let cflag := clear_bits cflag PARENB in
        let cflag := if numStop a =? 1 then clear_bits cflag CSTOPB
                     else set_bits cflag CSTOPB in
        let cflag := clear_bits cflag CSIZE in
        let cflag := clear_bits cflag CRTSCTS in
        let cflag := set_bits cflag (Z.lor CREAD CLOCAL) in
        let iflag := clear_bits (c_iflag t) (Z.lor (Z.lor IXON IXOFF) IXANY) in
        let lflag := clear_bits (c_lflag t)
                       (Z.lor (Z.lor (Z.lor ICANON ECHO) ECHOE) ISIG) in
        let oflag := clear_bits (c_oflag t) OPOST in
        let t' := mkTermios iflag oflag cflag lflag
                            255 (u8 (timeout a / 100)) brate brate in
        match tcsetattr p t' with
        | None => (Exit E_set_attributes, p)
        | Some p' => set_modem_lines (RTS a) (DTR a) p'
        end
    end.

(** [get_port_attribute(fpCom, &baudrate, &timeout, &numBits, &parity, &numStop, &RTS, &DTR)] *)
Definition get_port_attribute : M attributes :=
  fun p =>
    match tcgetattr p with
    | None => (Exit E_get_attributes, p)
    | Some t =>
        let baudrate := baudrate_of (c_ospeed t) in
        let timeout := c_vtime t * 100 in
        let numBits := if neq (Z.land (c_cflag t) CS8) 0 then 8 else 7 in
        let parity := if neq (Z.land (c_cflag t) PARENB) 0 then 1 else 0 in
        let numStop := if neq (Z.lor (c_cflag t) CSTOPB) 0 then 2 else 1 in
        let status := modem p in
        let RTS := if neq (Z.lor status TIOCM_RTS) 0 then 1 else 0 in
        let DTR := if neq (Z.lor status TIOCM_DTR) 0 then 1 else 0 in
        (Ok (mkAttr baudrate timeout numBits parity numStop RTS DTR), p)
    end.

End Attributes.

(** The values of the constants on Linux (asm-generic/termbits.h). *)
#[local] Instance linux : termios_h := {|
  B4800 := 12; B9600 := 13; B14400 := None; B19200 := 14; B28800 := None;
  B38400 := 15; B57600 := 4097; B115200 := 4098;
  CS7 := 32; CS8 := 48; CSIZE := 48; PARENB := 256; CSTOPB := 64;
  CRTSCTS := 2147483648; CREAD := 128; CLOCAL := 2048;
  IXON := 1024; IXOFF := 4096; IXANY := 2048;
  ICANON := 2; ECHO := 8; ECHOE := 16; ISIG := 1;
  OPOST := 1;
  TIOCM_RTS := 4; TIOCM_DTR := 2
|}.

(** ** bootloader.c *)

(** Modelled from the spec: the protocol byte constants of [bootloader.h]
    (not among the sources), as tabulated in the specification. *)
Definition SYNCH : Z := 0x7F.
Definition ACK   : Z := 0x79.
Definition NACK  : Z := 0x1F.
Definition GET   : Z := 0x00.
Definition READ  : Z := 0x11.
Definition GO    : Z := 0x21.
Definition WRITE : Z := 0x31.
Definition ERASE : Z := 0x43.

(** [if (!ptrPort) { ...: port not open, exit! }] *)
Definition check_open : M unit :=
  fun p => fail_if (fd p =? 0) E_port_not_open p.

(** [Tx[0] = c; Tx[1] = (Tx[0] ^ 0xFF);] *)
Definition cmd_frame (c : Z) : list Z := [c; Z.lxor c 0xFF].

(** [Tx[0] = (char) (addr >> 24); ... Tx[4] = (Tx[0] ^ Tx[1] ^ Tx[2] ^ Tx[3]);] *)
Definition addr_frame (addr : Z) : list Z :=
  let t0 := u8 (Z.shiftr addr 24) in
  let t1 := u8 (Z.shiftr addr 16) in
  let t2 := u8 (Z.shiftr addr 8) in
  let t3 := u8 addr in
  [t0; t1; t2; t3; Z.lxor (Z.lxor (Z.lxor t0 t1) t2) t3].

(** [Rx[i]] of a receive buffer that was zeroed at function entry. *)
Definition Rx_at (Rx : list Z) (i : nat) : Z := nth i Rx 0.

(** The body of the [do { ... } while (...)] of [bsl_sync]; [Rx0] is [Rx[0]],
    which keeps its old value when nothing is received.  [count] starts at 0
    and the loop is left at 15, so 15 units of fuel are enough. *)
Fixpoint sync_loop (fuel : nat) (count : Z) (Rx0 : Z) : M (Z * Z) :=
  match fuel with
  | O => exit_ E_out_of_fuel
  | S fuel' =>
      let lenTx := 1 in
      let lenRx := 1 in
      len <- send_port lenTx [SYNCH] ;;
      fail_if (neq len lenTx) (E_send_failed 1) ;;;
      '(len, Rx) <- receive_port lenRx ;;
      let Rx0 := match Rx with b :: _ => b | [] => Rx0 end in
      let count := count + 1 in
      SLEEP 10 ;;;
      if (count <? 15) && (neq len lenRx || (neq Rx0 ACK && neq Rx0 NACK))
      then sync_loop fuel' count Rx0
      else ret (len, Rx0)
  end.

(** [uint8_t bsl_sync(HANDLE ptrPort)] *)
Definition bsl_sync : M Z :=
  check_open ;;;
  flush_port ;;;
  '(len, Rx0) <- sync_loop 15 0 0 ;;
  if (len =? 1) && (Rx0 =? ACK) then ret 0
  else if (len =? 1) && (Rx0 =? NACK) then ret 0
  else if len =? 1 then exit_ (E_wrong_response Rx0)
  else exit_ E_no_response.

(** [uint8_t bsl_memCheck(HANDLE ptrPort, uint32_t addr)] *)
Definition bsl_memCheck (addr : Z) : M Z :=
  check_open ;;;
  (* send read command *)
  len <- send_port 2 (cmd_frame READ) ;;
  fail_if (neq len 2) (E_send_failed 1) ;;;
  '(len, Rx) <- receive_port 1 ;;
  fail_if (neq len 1) (E_ack_timeout 1) ;;;
  fail_if (neq (Rx_at Rx 0) ACK) (E_ack_failure 1) ;;;
  (* send address *)
  len <- send_port 5 (addr_frame addr) ;;
  fail_if (neq len 5) (E_send_failed 2) ;;;
  '(len, Rx) <- receive_port 1 ;;
  fail_if (neq len 1) (E_ack_timeout 2) ;;;
  (* check acknowledge -> on NACK memory cannot be read -> return 0 *)
  if neq (Rx_at Rx 0) ACK then ret 0
  else
    (* send number of bytes to read *)
    let Tx0 := u8 (1 - 1) in
    len <- send_port 2 [Tx0; Z.lxor Tx0 0xFF] ;;
    fail_if (neq len 2) (E_send_failed 3) ;;;
    '(len, Rx) <- receive_port 2 ;;
    fail_if (neq len 2) (E_ack_timeout 3) ;;;
    fail_if (neq (Rx_at Rx 0) ACK) (E_ack_failure 3) ;;;
    (* memory read succeeded -> memory exists *)
    ret 1.

(** The [if / else if] chain of density probes in [bsl_getInfo]. *)
Definition probe_density : M Z :=
  r <- bsl_memCheck 0x047FFF ;;
  if neq r 0 then ret 256
  else
    r <- bsl_memCheck 0x027FFF ;;
    if neq r 0 then ret 128
    else
      r <- bsl_memCheck 0x00FFFF ;;
      if neq r 0 then ret 32
      else
        r <- bsl_memCheck 0x009FFF ;;
        if neq r 0 then ret 8
        else exit_ E_cannot_identify.

(** [uint8_t bsl_getInfo(HANDLE ptrPort, int *flashsize, uint8_t *vers)]:
    the result is the pair [( *flashsize, *vers )]. *)
Definition bsl_getInfo : M (Z * Z) :=
  check_open ;;;
  flush_port ;;;
  SLEEP 50 ;;;
  (* reduce timeout for faster check *)
  set_timeout 100 ;;;
  flashsize <- probe_density ;;
  (* restore timeout to avoid timeouts during flash operation *)
  set_timeout 1000 ;;;
  (* get BSL version *)
  len <- send_port 2 (cmd_frame GET) ;;
  fail_if (neq len 2) (E_send_failed 1) ;;;
  '(len, Rx) <- receive_port 9 ;;
  fail_if (neq len 9) (E_ack_timeout 1) ;;;
  fail_if (neq (Rx_at Rx 0) ACK || neq (Rx_at Rx 8) ACK) (E_ack_failure 1) ;;;
  fail_if (neq (Rx_at Rx 3) GET) (E_wrong_code GET) ;;;
  fail_if (neq (Rx_at Rx 4) READ) (E_wrong_code READ) ;;;
  fail_if (neq (Rx_at Rx 5) GO) (E_wrong_code GO) ;;;
  fail_if (neq (Rx_at Rx 6) WRITE) (E_wrong_code WRITE) ;;;
  fail_if (neq (Rx_at Rx 7) ERASE) (E_wrong_code ERASE) ;;;
  (* copy version number *)
  let vers := u8 (Rx_at Rx 2) in
  ret (flashsize, vers).

(** [uint8_t bsl_flashErase(HANDLE ptrPort, uint32_t addr)] *)
Definition sector_code (addr : Z) : Z := u8 (u32 (addr - 0x8000) / 1024).

Definition bsl_flashErase (addr : Z) : M Z :=
  (* calculate sector code *)
  let sector := sector_code addr in
  check_open ;;;
  (* send erase command *)
  len <- send_port 2 (cmd_frame ERASE) ;;
  fail_if (neq len 2) (E_send_failed 1) ;;;
  '(len, Rx) <- receive_port 1 ;;
  fail_if (neq len 1) (E_ack_timeout 1) ;;;
  fail_if (neq (Rx_at Rx 0) ACK) (E_ack_failure 1) ;;;
  (* send code of sector to erase *)
  let Tx0 := 0x00 in
  let Tx1 := sector in
  len <- send_port 3 [Tx0; Tx1; Z.lxor Tx0 Tx1] ;;
  fail_if (neq len 3) (E_send_failed 2) ;;;
  '(len, Rx) <- receive_port 1 ;;
  fail_if (neq len 1) (E_ack_timeout 2) ;;;
  fail_if (neq (Rx_at Rx 0) ACK) (E_ack_failure 2) ;;;
  ret 0.

(** [uint8_t bsl_jumpTo(HANDLE ptrPort, uint32_t addr)] *)
Definition bsl_jumpTo (addr : Z) : M Z :=
  check_open ;;;
  len <- send_port 2 (cmd_frame GO) ;;
  fail_if (neq len 2) (E_send_failed 1) ;;;
  '(len, Rx) <- receive_port 1 ;;
  fail_if (neq len 1) (E_ack_timeout 1) ;;;
  fail_if (neq (Rx_at Rx 0) ACK) (E_ack_failure 1) ;;;
  len <- send_port 5 (addr_frame addr) ;;
  fail_if (neq len 5) (E_send_failed 2) ;;;
  '(len, Rx) <- receive_port 1 ;;
  fail_if (neq len 1) (E_ack_timeout 2) ;;;
  fail_if (neq (Rx_at Rx 0) ACK) (E_ack_failure 2) ;;;
  ret 0.

(** [buf[i] = v]; a store outside the caller's buffer is undefined in C and
    leaves the list alone here. *)
Fixpoint store (buf : list Z) (i : nat) (v : Z) : list Z :=
  match buf, i with
  | [], _ => []
  | _ :: t, O => v :: t
  | h :: t, S i' => h :: store t i' v
  end.

(** [for (i=0; i<numBytes; i++) buf[i] = 0;] *)
Fixpoint zero_fill (n : nat) (i : nat) (buf : list Z) : list Z :=
  match n with
  | O => buf
  | S n' => zero_fill n' (S i) (store buf i 0)
  end.

(** [for (i=1; i<lenRx; i++) buf[idx++] = Rx[i];] over the bytes
    [Rx[1..lenRx-1]]: the buffer and [idx] afterwards. *)
Fixpoint copy_out (data : list Z) (idx : Z) (buf : list Z) : list Z * Z :=
  match data with
  | [] => (buf, idx)
  | b :: data' => copy_out data' (u32 (idx + 1)) (store buf (Z.to_nat idx) b)
  end.

(** The [for (addrTmp=addrStart; addrTmp<addrStart+numBytes; addrTmp+=addrStep)]
    loop of [bsl_memRead]; all of [addrTmp], [addrStep], [idx] are
    [uint32_t]. One unit of fuel per chunk. *)
Fixpoint memRead_loop (fuel : nat) (addrStart numBytes addrTmp addrStep idx : Z)
         (buf : list Z) : M (list Z) :=
  if negb (addrTmp <? u32 (addrStart + numBytes)) then ret buf
  else
    match fuel with
    | O => exit_ E_out_of_fuel
    | S fuel' =>
        (* if addr too close to end of range reduce stepsize *)
        let addrStep := if u32 (addrStart + numBytes) <? u32 (addrTmp + 256)
                        then u32 (addrStart + numBytes - addrTmp)
                        else addrStep in
        (* send read command *)
        len <- send_port 2 (cmd_frame READ) ;;
        fail_if (neq len 2) (E_send_failed 1) ;;;
        '(len, Rx) <- receive_port 1 ;;
        fail_if (neq len 1) (E_ack_timeout 1) ;;;
        fail_if (neq (Rx_at Rx 0) ACK) (E_ack_failure 1) ;;;
        (* send address *)
        len <- send_port 5 (addr_frame addrTmp) ;;
        fail_if (neq len 5) (E_send_failed 2) ;;;
        '(len, Rx) <- receive_port 1 ;;
        fail_if (neq len 1) (E_ack_timeout 2) ;;;
        fail_if (neq (Rx_at Rx 0) ACK) (E_ack_failure 2) ;;;
        (* send number of bytes *)
        let Tx0 := u8 (addrStep - 1) in
        let lenRx := addrStep + 1 in
        len <- send_port 2 [Tx0; Z.lxor Tx0 0xFF] ;;
        fail_if (neq len 2) (E_send_failed 3) ;;;
        '(len, Rx) <- receive_port lenRx ;;
        fail_if (neq len lenRx) (E_ack_timeout 3) ;;;
        fail_if (neq (Rx_at Rx 0) ACK) (E_ack_failure 3) ;;;
        (* copy data to buffer *)
        let '(buf, idx) := copy_out (skipn 1 Rx) idx buf in
        memRead_loop fuel' addrStart numBytes (u32 (addrTmp + addrStep)) addrStep idx buf
    end.

(** [uint8_t bsl_memRead(HANDLE ptrPort, uint32_t addrStart, uint32_t numBytes, char *buf)]:
    the result is the content of [buf] afterwards. *)
Definition bsl_memRead (fuel : nat) (addrStart numBytes : Z) (buf : list Z) : M (list Z) :=
  check_open ;;;
  (* init data buffer *)
  let buf := zero_fill (Z.to_nat numBytes) 0 buf in
  (* loop over addresses in <=256B steps *)
  memRead_loop fuel addrStart numBytes addrStart 256 0 buf.

(** [for (i=0; i<addrStep; i++) { Tx[lenTx] = buf[idx++]; chk ^= Tx[lenTx]; lenTx++; }]:
    the bytes appended to [Tx], [chk] and [idx] afterwards. A read outside the
    caller's buffer is undefined in C and gives 0 here. *)
Fixpoint fill_payload (n : nat) (buf : list Z) (idx : Z) (Tx : list Z) (chk : Z)
  : list Z * Z * Z :=
  match n with
  | O => (Tx, chk, idx)
  | S n' =>
      let b := u8 (nth (Z.to_nat idx) buf 0) in
      fill_payload n' buf (u32 (idx + 1)) (Tx ++ [b]) (u8 (Z.lxor chk b))
  end.

(** "construct number of bytes + data + checksum": [Tx[0..lenTx-1]] and [idx]. *)
Definition payload_frame (addrStep : Z) (buf : list Z) (idx : Z) : list Z * Z :=
  let Tx := [u8 (addrStep - 1)] in
  let chk := u8 (addrStep - 1) in
  let '(Tx, chk, idx) := fill_payload (Z.to_nat addrStep) buf idx Tx chk in
  (Tx ++ [chk], idx).

(** The [for] loop of [bsl_memWrite], in <=128B steps. *)
Fixpoint memWrite_loop (fuel : nat) (addrStart numBytes addrTmp addrStep idx : Z)
         (buf : list Z) : M unit :=
  if negb (addrTmp <? u32 (addrStart + numBytes)) then ret tt
  else
    match fuel with
    | O => exit_ E_out_of_fuel
    | S fuel' =>
        (* if addr too close to end of range reduce stepsize *)
        let addrStep := if u32 (addrStart + numBytes) <? u32 (addrTmp + 128)
                        then u32 (addrStart + numBytes - addrTmp)
                        else addrStep in
        (* send write command *)
        len <- send_port 2 (cmd_frame WRITE) ;;
        fail_if (neq len 2) (E_send_failed 1) ;;;
        '(len, Rx) <- receive_port 1 ;;
        fail_if (neq len 1) (E_ack_timeout 1) ;;;
        fail_if (neq (Rx_at Rx 0) ACK) (E_ack_failure 1) ;;;
        (* send address *)
        len <- send_port 5 (addr_frame addrTmp) ;;
        fail_if (neq len 5) (E_send_failed 2) ;;;
        '(len, Rx) <- receive_port 1 ;;
        fail_if (neq len 1) (E_ack_timeout 2) ;;;
        fail_if (neq (Rx_at Rx 0) ACK) (E_ack_failure 2) ;;;
        (* send number of bytes and data *)
        let '(Tx, idx) := payload_frame addrStep buf idx in
        let lenTx := Z.of_nat (length Tx) in
        len <- send_port lenTx Tx ;;
        fail_if (neq len lenTx) (E_send_failed 3) ;;;
        '(len, Rx) <- receive_port 1 ;;
        fail_if (neq len 1) (E_ack_timeout 3) ;;;
        fail_if (neq (Rx_at Rx 0) ACK) (E_ack_failure 3) ;;;
        memWrite_loop fuel' addrStart numBytes (u32 (addrTmp + addrStep)) addrStep idx buf
    end.

(** [uint8_t bsl_memWrite(HANDLE ptrPort, uint32_t addrStart, uint32_t numBytes, char *buf, uint8_t verbose)];
    [verbose] only selects console output. *)
Definition bsl_memWrite (fuel : nat) (addrStart numBytes : Z) (buf : list Z)
           (verbose : Z) : M Z :=
  check_open ;;;
  memWrite_loop fuel addrStart numBytes addrStart 128 0 buf ;;;
  ret 0.

(** ** serial_comm.c, the remaining routines of the POSIX branch *)

(** [init_port] and [close_port] stop the process with messages of their
    own. *)
Inductive port_error : Type :=
| E_open_failed
| E_init_get_attributes
| E_init_set_attributes
| E_init_modem_lines
| E_close_failed.

Inductive outcome (A : Type) : Type :=
| Done (a : A)
| Stop (e : port_error).
Arguments Done {A} a.
Arguments Stop {A} e.

Definition with_fd (p : port) (h : Z) : port :=
  mkPort h (tio p) (modem p) (now p) (line p) (wr p) (wire p) (sys p).

(** [close(fd)] succeeds on a descriptor the kernel knows. *)
Definition close (p : port) : Z := if 0 <? fd p then 0 else -1.

(** [void close_port(HANDLE *fpCom)]; the field [fd] of the port is
    [*fpCom]. *)
Definition close_port (p : port) : outcome unit * port :=
  if neq (fd p) 0 then
    if neq (close p) 0 then (Stop E_close_failed, with_fd p 0)
    else (Done tt, with_fd p 0)
  else (Done tt, with_fd p 0).

Section MoreAttributes.
Context {K : termios_h}.

(** [PARODD] of [<termios.h>], used by [init_port] only. *)
Variable PARODD : Z.

(** [void set_baudrate(HANDLE fpCom, uint32_t baudrate)] *)
Definition set_baudrate (baudrate : Z) : M unit :=
  fun p =>
    match tcgetattr p with
    | None => (Exit E_get_attributes, p)
    | Some t =>
        let brate := brate_of baudrate in
        let t' := mkTermios (c_iflag t) (c_oflag t) (c_cflag t) (c_lflag t)
                            (c_vmin t) (c_vtime t) brate brate in
        match tcsetattr p t' with
        | None => (Exit E_set_attributes, p)
        | Some p' => (Ok tt, p')
        end
    end.

(** [HANDLE init_port(const char *port, uint32_t baudrate, uint32_t timeout,
    uint8_t numBits, uint8_t parity, uint8_t numStop, uint8_t RTS, uint8_t DTR)].
    [opened] is what [open(port, O_RDWR | O_NOCTTY | O_NDELAY)] returns for
    the device whose state is the port: -1 or the new descriptor. *)
Definition init_port (opened : Z) (a : attributes) (p : port) : outcome Z * port :=
  if opened =? -1 then (Stop E_open_failed, with_fd p 0)
  else
    let p := with_fd p opened in
    match tcgetattr p with
    | None => (Stop E_init_get_attributes, p)
    | Some t =>
        let brate := brate_of (baudrate a) in
        let cflag := c_cflag t in
        let cflag := if numBits a =? 7 then set_bits cflag CS7
                     else set_bits cflag CS8 in
        let cflag := if parity a =? 0 then clear_bits cflag PARENB
                     else if parity a =? 1
                          then set_bits (set_bits cflag PARENB) PARODD
                          else if parity a =? 2
                               then clear_bits (set_bits cflag PARENB) PARODD
                               else cflag in
        let cflag := if numStop a =? 1 then clear_bits cflag CSTOPB
                     else set_bits cflag CSTOPB in
        let cflag := clear_bits cflag CSIZE in
        let cflag := clear_bits cflag CRTSCTS in
        let cflag := set_bits cflag (Z.lor CREAD CLOCAL) in
        let iflag := clear_bits (c_iflag t) (Z.lor (Z.lor IXON IXOFF) IXANY) in
        let lflag := clear_bits (c_lflag t)
                       (Z.lor (Z.lor (Z.lor ICANON ECHO) ECHOE) ISIG) in
        let oflag := clear_bits (c_oflag t) OPOST in
        let t' := mkTermios iflag oflag cflag lflag
                            255 (u8 (timeout a / 100)) brate brate in
        match tcsetattr p t' with
        | None => (Stop E_init_set_attributes, p)
        | Some p' =>
            match set_modem_lines (RTS a) (DTR a) p' with
            | (Ok _, p'') => (Done (fd p''), p'')
            | (Exit _, p'') => (Stop E_init_modem_lines, p'')
            end
        end
    end.

End MoreAttributes.

(** ** Scripted targets used in the examples *)

(** An open port at 8N1 with read timeout [vtime * 100] ms, whose target
    will deliver [l]; every write is accepted in full. *)
Definition mock (vtime : Z) (l : list event) : port :=
  mkPort 3 (mkTermios 0 0 0 0 255 vtime 13 13) 0 0 l [] [] [].

(** A reply of the target, readable 1 ms after the host starts waiting. *)
Definition reply (bs : list Z) : event := Ev 1 (RdBytes bs).

(** The frames written, and the replies received, in a stretch of wire. *)
Fixpoint tx_of (w : list io) : list (list Z) :=
  match w with
  | [] => []
  | TxEv bs :: w' => bs :: tx_of w'
  | RxEv _ :: w' => tx_of w'
  end.

Fixpoint rx_of (w : list io) : list (list Z) :=
  match w with
  | [] => []
  | TxEv _ :: w' => rx_of w'
  | RxEv bs :: w' => bs :: rx_of w'
  end.

(** ** Vocabulary of the properties *)

(** What [bsl_memCheck] leaves on the wire when it answers 0 and when it
    answers 1. *)
Definition check_refused (addr b : Z) : list io :=
  [TxEv (cmd_frame READ); RxEv [ACK]; TxEv (addr_frame addr); RxEv [b]].

Definition check_granted (addr d : Z) : list io :=
  [TxEv (cmd_frame READ); RxEv [ACK]; TxEv (addr_frame addr); RxEv [ACK];
   TxEv [0x00; 0xFF]; RxEv [ACK; d]].

(** A reply that ends the retry loop: exactly one byte, ACK or NACK. *)
Definition good_reply (r : list Z) : bool :=
  match r with
  | [b] => (b =? ACK) || (b =? NACK)
  | _ => false
  end.

(** The wire after the rounds whose replies were [rs]. *)
Definition rounds (rs : list (list Z)) : list io :=
  flat_map (fun r => [TxEv [SYNCH]; RxEv r]) rs.

(** The state in which the retry loop of [bsl_sync] is left. *)
Inductive sync_end (p : port) (count : Z) : res (Z * Z) -> port -> Prop :=
| sync_write_failed rs p' :
    Forall (fun r => good_reply r = false) rs ->
    count + Z.of_nat (length rs) < 15 ->
    wire p' = wire p ++ rounds rs ++ [TxEv []] ->
    sync_end p count (Exit (E_send_failed 1)) p'
| sync_answered rs r Rx0 p' :
    Forall (fun r => good_reply r = false) rs ->
    count + Z.of_nat (length rs) < 15 ->
    good_reply r = true \/ count + Z.of_nat (length rs) = 14 ->
    (r = [Rx0] \/ r = []) ->
    wire p' = wire p ++ rounds (rs ++ [r]) ->
    sync_end p count (Ok (Z.of_nat (length r), Rx0)) p'.

(** How [bsl_sync] ends on an open port: the replies [rs] of the rounds that
    did not synchronise, then a refused write, a valid reply, or the reply of
    round 15. *)
Inductive sync_run (p : port) : res Z -> port -> Prop :=
| run_write_failed rs p' :
    Forall (fun r => good_reply r = false) rs ->
    (length rs < 15)%nat ->
    wire p' = wire p ++ rounds rs ++ [TxEv []] ->
    sync_run p (Exit (E_send_failed 1)) p'
| run_synchronised rs r p' :
    Forall (fun r => good_reply r = false) rs ->
    (length rs < 15)%nat ->
    good_reply r = true ->
    wire p' = wire p ++ rounds (rs ++ [r]) ->
    sync_run p (Ok 0) p'
| run_silent rs p' :
    Forall (fun r => good_reply r = false) rs ->
    length rs = 14%nat ->
    wire p' = wire p ++ rounds (rs ++ [[]]) ->
    sync_run p (Exit E_no_response) p'
| run_wrong rs b p' :
    Forall (fun r => good_reply r = false) rs ->
    length rs = 14%nat ->
    good_reply [b] = false ->
    wire p' = wire p ++ rounds (rs ++ [[b]]) ->
    sync_run p (Exit (E_wrong_response b)) p'.

(** The stretch of wire of the density probes that ends with a granted
    probe, and the flash size it stands for. *)
Inductive density_probe : list io -> Z -> Prop :=
| probe_256 d :
    density_probe (check_granted 0x047FFF d) 256
| probe_128 b1 d :
    b1 <> ACK ->
    density_probe (check_refused 0x047FFF b1 ++ check_granted 0x027FFF d) 128
| probe_32 b1 b2 d :
    b1 <> ACK -> b2 <> ACK ->
    density_probe (check_refused 0x047FFF b1 ++ check_refused 0x027FFF b2 ++
                   check_granted 0x00FFFF d) 32
| probe_8 b1 b2 b3 d :
    b1 <> ACK -> b2 <> ACK -> b3 <> ACK ->
    density_probe (check_refused 0x047FFF b1 ++ check_refused 0x027FFF b2 ++
                   check_refused 0x00FFFF b3 ++ check_granted 0x009FFF d) 8.

(** All four probes refused. *)
Inductive density_unknown : list io -> Prop :=
| probe_none b1 b2 b3 b4 :
    b1 <> ACK -> b2 <> ACK -> b3 <> ACK -> b4 <> ACK ->
    density_unknown (check_refused 0x047FFF b1 ++ check_refused 0x027FFF b2 ++
                     check_refused 0x00FFFF b3 ++ check_refused 0x009FFF b4).

Definition is_byte (b : Z) : Prop := 0 <= b < 256.









(** Scenario 3 of the specification: a 32 kB device with bootloader 1.2. *)
Definition target_32k : list event :=
  [reply [ACK]; reply [NACK];           (* 0x047FFF refused *)
   reply [ACK]; reply [NACK];           (* 0x027FFF refused *)
   reply [ACK]; reply [ACK]; reply [ACK; 0x00];   (* 0x00FFFF granted *)
   reply [0x79; 0x06; 0x12; 0x00; 0x11; 0x21; 0x31; 0x43; 0x79]].

(** The port after a frame [f] was written in full and the reply [bs]
    arrived after [w] ms. *)
Definition after_round (p : port) (f : list Z) (w : Z) (bs : list Z)
           (l : list event) : port :=
  mkPort (fd p) (tio p) (modem p) (now p + w) l (tl (wr p))
         (wire p ++ [TxEv f; RxEv bs])
         (sys p ++ [SysSelect (timeout_ms p) w 1;
                    SysRead (Z.of_nat (length bs)) (Z.of_nat (length bs))]).

(** The port after a round of [bsl_sync] in which nothing arrived: the
    timeout and the 10 ms sleep have passed. *)
Definition after_silence (p : port) (w : Z) (r : rd) (l : list event) : port :=
  mkPort (fd p) (tio p) (modem p) (now p + timeout_ms p + 10)
         (Ev (Z.max 0 (w - timeout_ms p - 10)) r :: l) (tl (wr p))
         (wire p ++ [TxEv [SYNCH]; RxEv []])
         (sys p ++ [SysSelect (timeout_ms p) (timeout_ms p) 0]).

(** A target that answers with one byte at a time: a reply is the byte
    [snd r] and becomes readable [fst r] ms after the reply before it was
    read (after the call, for the first one). *)
Definition byte_replies (rs : list (Z * Z)) : list event :=
  map (fun r => Ev (fst r) (RdBytes [snd r])) rs.

(** Every reply arrives later than the reply before it was read, and
    within [t] ms. *)
Definition in_time (t : Z) (rs : list (Z * Z)) : Prop :=
  Forall (fun r => 0 < fst r <= t) rs.

(** A byte that does not synchronise. *)
Definition wrong_byte (b : Z) : Prop := b <> ACK /\ b <> NACK.

(** The pending input [l] delivers the bytes [bs], one per wait and each
    within [t] ms, and goes on as [l']. *)
Inductive delivers (t : Z) : list Z -> list event -> list event -> Prop :=
| delivers_nil l : delivers t [] l l
| delivers_cons w b bs l l' :
    w <= t -> delivers t bs l l' ->
    delivers t (b :: bs) (Ev w (RdBytes [b]) :: l) l'.

(** The pending input after [SLEEP(ms)]. *)
Definition slept (ms : Z) (l : list event) : list event :=
  match l with
  | [] => []
  | Ev w r :: l' => Ev (Z.max 0 (w - ms)) r :: l'
  end.


(** A reply that arrives in pieces: piece number [i] holds the bytes
    [snd pc] and becomes readable [fst pc] ms after the piece before it was
    read. *)
Definition pieces_of (pcs : list (Z * list Z)) : list event :=
  map (fun pc => Ev (fst pc) (RdBytes (snd pc))) pcs.

(** * Properties *)

(** ** Running the monad *)

Lemma bind_Ok {A B} (m : M A) (f : A -> M B) p b p' :
  bind m f p = (Ok b, p') ->
  exists a p1, m p = (Ok a, p1) /\ f a p1 = (Ok b, p').
Proof.
  unfold bind. destruct (m p) as [[a | e] p1]; intros H.
  - exists a, p1. split; [reflexivity | exact H].
  - discriminate H.
Qed.

Lemma bind_Exit {A B} (m : M A) (f : A -> M B) p e p' :
  bind m f p = (Exit e, p') ->
  m p = (Exit e, p') \/ exists a p1, m p = (Ok a, p1) /\ f a p1 = (Exit e, p').
Proof.
  unfold bind. destruct (m p) as [[a | e0] p1]; intros H.
  - right. exists a, p1. split; [reflexivity | exact H].
  - left. inversion H; subst. reflexivity.
Qed.

Lemma fail_if_Ok cond e p u p' :
  fail_if cond e p = (Ok u, p') -> cond = false /\ p' = p.
Proof.
  unfold fail_if, exit_, ret. destruct cond; intros H; inversion H; auto.
Qed.

Lemma neq_false x y : neq x y = false -> x = y.
Proof. unfold neq. intros H. apply negb_false_iff in H. apply Z.eqb_eq. exact H. Qed.

Lemma neq_true x y : neq x y = true -> x <> y.
Proof. unfold neq. intros H. apply negb_true_iff in H. apply Z.eqb_neq. exact H. Qed.

(** ** What one [send_port] and one [receive_port] do to the port *)

Lemma send_port_inv lenTx Tx p r p' :
  send_port lenTx Tx p = (Ok r, p') ->
  fd p' = fd p /\ tio p' = tio p /\ modem p' = modem p /\
  wire p' = wire p ++ [TxEv (firstn (Z.to_nat r) Tx)].
Proof.
  unfold send_port. intros H. inversion H; subst; clear H. cbn.
  repeat split; reflexivity.
Qed.

Lemma send_port_total lenTx Tx p :
  exists r p', send_port lenTx Tx p = (Ok r, p').
Proof. unfold send_port. eauto. Qed.

(** A frame that was accepted in full is on the wire as it was built. *)
Lemma send_port_full lenTx Tx p r p' :
  send_port lenTx Tx p = (Ok r, p') ->
  neq r lenTx = false -> lenTx = Z.of_nat (length Tx) ->
  fd p' = fd p /\ tio p' = tio p /\ wire p' = wire p ++ [TxEv Tx].
Proof.
  intros H Hn Hl. apply neq_false in Hn.
  destruct (send_port_inv _ _ _ _ _ H) as (Hf & Ht & _ & Hw).
  repeat split; auto. rewrite Hw. subst r. rewrite Hl, Nat2Z.id, firstn_all.
  reflexivity.
Qed.

Lemma firstn_length_Z {A} (n : Z) (l : list A) :
  0 <= n -> Z.of_nat (length (firstn (Z.to_nat n) l)) = Z.min n (Z.of_nat (length l)).
Proof. intros Hn. rewrite length_firstn. lia. Qed.

(** The loop of [receive_port] only appends to [dest], and what it appends
    is what [remaining] went down by. *)
Lemma recv_loop_count timeout l :
  forall remaining dest, 0 <= remaining ->
    match recv_loop timeout l remaining dest with
    | (s, r, d, _, _) =>
        0 <= r <= remaining /\
        (s = Complete <-> r = 0) /\
        exists extra, d = dest ++ extra /\ Z.of_nat (length extra) = remaining - r
    end.
Proof.
  induction l as [| e l' IH]; intros remaining dest Hr; simpl.
  - destruct (remaining =? 0) eqn:E.
    + repeat split; try lia. exists []. rewrite app_nil_r. split; [reflexivity | simpl; lia].
    + repeat split; try lia; try discriminate. exists []. rewrite app_nil_r.
      split; [reflexivity | simpl; lia].
  - destruct (remaining =? 0) eqn:E.
    + repeat split; try lia. exists []. rewrite app_nil_r. split; [reflexivity | simpl; lia].
    + destruct (select _ e) as [ready blocked].
      destruct (neq ready 1).
      * repeat split; try lia; try discriminate. exists []. rewrite app_nil_r.
        split; [reflexivity | simpl; lia].
      * destruct (read remaining (ev_rd e)) as [[got bs] eagain] eqn:Erd.
        assert (Hgot : got = -1 /\ bs = [] \/
                       0 <= got <= remaining /\ Z.of_nat (length bs) = got).
        { unfold read in Erd. destruct (ev_rd e); inversion Erd; subst; auto.
          right. rewrite firstn_length_Z by lia. lia. }
        destruct (got =? -1) eqn:Eg.
        { destruct eagain.
          - specialize (IH remaining dest Hr).
            destruct (recv_loop timeout l' remaining dest) as [[[[s r] d] l2] c].
            exact IH.
          - repeat split; try lia; try discriminate. exists []. rewrite app_nil_r.
            split; [reflexivity | simpl; lia]. }
        destruct Hgot as [[Hg _] | [Hg Hlen]]; [lia |].
        destruct (0 <? got) eqn:Epos.
        { destruct (remaining - got =? 0) eqn:Ez.
          - repeat split; try lia. exists bs. split; [reflexivity | lia].
          - assert (Hr' : 0 <= remaining - got) by lia.
            specialize (IH (remaining - got) (dest ++ bs) Hr').
            destruct (recv_loop timeout l' (remaining - got) (dest ++ bs))
              as [[[[s r] d] l2] c].
            destruct IH as (H1 & H2 & extra & H3 & H4).
            repeat split; try lia; try apply H2.
            exists (bs ++ extra). rewrite app_assoc. split; [exact H3 |].
            rewrite length_app. lia. }
        specialize (IH remaining dest Hr).
        destruct (recv_loop timeout l' remaining dest) as [[[[s r] d] l2] c].
        exact IH.
Qed.

Lemma receive_port_inv lenRx p len data p' :
  0 <= lenRx ->
  receive_port lenRx p = (Ok (len, data), p') ->
  0 < fd p /\ fd p' = fd p /\ tio p' = tio p /\ modem p' = modem p /\
  wire p' = wire p ++ [RxEv data] /\
  len = Z.of_nat (length data) /\ len <= lenRx.
Proof.
  intros Hn. unfold receive_port, receive_port_why, tcgetattr.
  destruct (0 <? fd p) eqn:Ef; [| discriminate].
  pose proof (recv_loop_count (c_vtime (tio p) * 100) (line p) lenRx [] Hn) as Hc.
  destruct (recv_loop _ (line p) lenRx []) as [[[[s r] d] l2] c].
  destruct Hc as (H1 & _ & extra & H3 & H4). cbn in H3.
  cbn. intros H. inversion H; subst; clear H. cbn.
  repeat split; try reflexivity; lia.
Qed.

Lemma receive_port_total lenRx p :
  0 < fd p -> exists len data p', receive_port lenRx p = (Ok (len, data), p').
Proof.
  intros Hf. unfold receive_port, receive_port_why, tcgetattr.
  replace (0 <? fd p) with true by (symmetry; lia).
  destruct (recv_loop _ (line p) lenRx []) as [[[[s r] d] l2] c].
  cbn. eauto.
Qed.

(** A receive that returned what was asked for fills [Rx[0..lenRx-1]]. *)
Lemma length1 {A} (l : list A) : Z.of_nat (length l) = 1 -> exists a, l = [a].
Proof.
  destruct l as [| a [| b l]]; simpl; intros H; try lia. exists a. reflexivity.
Qed.

Lemma length2 {A} (l : list A) : Z.of_nat (length l) = 2 -> exists a b, l = [a; b].
Proof.
  destruct l as [| a [| b [| c l]]]; simpl; intros H; try lia. exists a, b. reflexivity.
Qed.

Lemma fail_if_Exit cond e p e' p' :
  fail_if cond e p = (Exit e', p') -> e' = e /\ p' = p.
Proof.
  unfold fail_if, exit_, ret. destruct cond; intros H; inversion H; auto.
Qed.

Lemma send_port_Exit lenTx Tx p e p' : send_port lenTx Tx p = (Exit e, p') -> False.
Proof. unfold send_port. discriminate. Qed.

Lemma receive_port_Exit lenRx p e p' :
  receive_port lenRx p = (Exit e, p') -> e = E_get_attributes.
Proof.
  unfold receive_port, receive_port_why. destruct (tcgetattr p).
  - destruct (recv_loop _ _ _ _) as [[[[s r] d] l2] c]. cbn. discriminate.
  - cbn. intros H. inversion H. reflexivity.
Qed.

Lemma check_open_Exit p e p' : check_open p = (Exit e, p') -> e = E_port_not_open.
Proof. unfold check_open. intros H. apply fail_if_Exit in H. tauto. Qed.

(** ** One round of the dialogue: write a frame, read the reply *)

Lemma fail_if_bind_Ok {B} cond e (k : unit -> M B) p b p' :
  bind (fail_if cond e) k p = (Ok b, p') -> cond = false /\ k tt p = (Ok b, p').
Proof.
  intros H. apply bind_Ok in H. destruct H as ([] & p1 & H1 & H2).
  apply fail_if_Ok in H1. destruct H1 as [Hc ->]. auto.
Qed.

Lemma dialogue_Ok {B} n f m e1 (K : Z * list Z -> M B) p b p' :
  n = Z.of_nat (length f) -> 0 <= m ->
  bind (send_port n f)
       (fun len => bind (fail_if (neq len n) e1)
                        (fun _ => bind (receive_port m) K)) p = (Ok b, p') ->
  exists len Rx p1,
    K (len, Rx) p1 = (Ok b, p') /\
    wire p1 = wire p ++ [TxEv f; RxEv Rx] /\
    len = Z.of_nat (length Rx) /\ len <= m /\
    fd p1 = fd p /\ tio p1 = tio p /\ 0 < fd p.
Proof.
  intros Hn Hm H.
  apply bind_Ok in H. destruct H as (len0 & p0 & Hs & H).
  apply fail_if_bind_Ok in H. destruct H as [Hc H].
  destruct (send_port_full _ _ _ _ _ Hs Hc Hn) as (Hf0 & Ht0 & Hw0).
  apply bind_Ok in H. destruct H as ([len Rx] & p1 & Hr & H).
  destruct (receive_port_inv _ _ _ _ _ Hm Hr) as (Ho & Hf1 & Ht1 & _ & Hw1 & Hl & Hle).
  exists len, Rx, p1. repeat split; auto; try congruence.
  rewrite Hw1, Hw0, <- app_assoc. reflexivity.
Qed.

(** The same round followed by [if (len != lenRx) Exit]: the reply has
    exactly the length asked for. *)
Lemma dialogue_full_Ok {B} n f m e1 e2 (K : Z -> list Z -> M B) p b p' :
  n = Z.of_nat (length f) -> 0 <= m ->
  bind (send_port n f)
       (fun len => bind (fail_if (neq len n) e1)
          (fun _ => bind (receive_port m)
             (fun x => match x with
                       | (len, Rx) => bind (fail_if (neq len m) e2) (fun _ => K len Rx)
                       end))) p = (Ok b, p') ->
  exists Rx p1,
    K m Rx p1 = (Ok b, p') /\
    wire p1 = wire p ++ [TxEv f; RxEv Rx] /\
    Z.of_nat (length Rx) = m /\
    fd p1 = fd p /\ tio p1 = tio p /\ 0 < fd p.
Proof.
  intros Hn Hm H.
  apply dialogue_Ok in H; auto.
  destruct H as (len & Rx & p1 & H & Hw & Hl & Hle & Hf & Ht & Ho).
  apply fail_if_bind_Ok in H. destruct H as [Hc H].
  apply neq_false in Hc. subst len.
  exists Rx, p1. repeat split; auto.
Qed.

Lemma check_open_Ok {B} (k : unit -> M B) p b p' :
  bind check_open k p = (Ok b, p') -> fd p <> 0 /\ k tt p = (Ok b, p').
Proof.
  unfold check_open. intros H. apply bind_Ok in H.
  destruct H as ([] & p1 & H1 & H2).
  apply fail_if_Ok in H1. destruct H1 as [Hc ->].
  split; [apply Z.eqb_neq; exact Hc | exact H2].
Qed.

Lemma ret_Ok {A} (a b : A) p p' : ret a p = (Ok b, p') -> a = b /\ p' = p.
Proof. unfold ret. intros H. inversion H. auto. Qed.

(** ** A target that answers in time *)

(** [tv] holds [timeout] milliseconds. *)
Lemma tv_is_timeout t : (t / 1000) * 1000 + ((t mod 1000) * 1000) / 1000 = t.
Proof.
  rewrite Z.div_mul by lia.
  pose proof (Z.div_mod t 1000 ltac:(lia)). lia.
Qed.

Lemma u32_small x : 0 <= x < 4294967296 -> u32 x = x.
Proof. intros H. unfold u32. apply Z.mod_small. exact H. Qed.

Lemma check_open_pass p : fd p <> 0 -> check_open p = (Ok tt, p).
Proof.
  intros H. unfold check_open, fail_if.
  replace (fd p =? 0) with false by (symmetry; apply Z.eqb_neq; exact H).
  reflexivity.
Qed.

Lemma send_port_accepted n f p :
  wr p = [] -> n = Z.of_nat (length f) ->
  send_port n f p =
  (Ok n, mkPort (fd p) (tio p) (modem p) (now p) (line p) (tl (wr p))
                (wire p ++ [TxEv f]) (sys p)).
Proof.
  intros Hw Hn. unfold send_port. rewrite Hw. cbn [tl].
  rewrite Hn, Nat2Z.id, firstn_all. reflexivity.
Qed.

Lemma skipn_all_Z {A} (l : list A) : skipn (Z.to_nat (Z.of_nat (length l))) l = [].
Proof. rewrite Nat2Z.id. apply skipn_all. Qed.

Lemma receive_port_ready p w bs l :
  0 < fd p -> line p = Ev w (RdBytes bs) :: l -> w <= timeout_ms p ->
  bs <> [] ->
  receive_port (Z.of_nat (length bs)) p =
  (Ok (Z.of_nat (length bs), bs),
   mkPort (fd p) (tio p) (modem p) (now p + w) l (wr p)
          (wire p ++ [RxEv bs])
          (sys p ++ [SysSelect (timeout_ms p) w 1;
                     SysRead (Z.of_nat (length bs)) (Z.of_nat (length bs))])).
Proof.
  intros Ho Hl Hw Hne.
  assert (Hpos : 0 < Z.of_nat (length bs)) by (destruct bs; [contradiction | simpl; lia]).
  unfold receive_port, receive_port_why, tcgetattr.
  replace (0 <? fd p) with true by (symmetry; lia).
  fold (timeout_ms p). rewrite Hl. cbn [recv_loop].
  replace (Z.of_nat (length bs) =? 0) with false by (symmetry; apply Z.eqb_neq; lia).
  rewrite tv_is_timeout. unfold select. cbn [ev_wait ev_rd].
  replace (timeout_ms p <? w) with false by (symmetry; apply Z.ltb_ge; lia).
  cbn [neq Z.eqb Pos.eqb negb read].
  rewrite Z.min_id.
  replace (Z.of_nat (length bs) =? -1) with false by (symmetry; apply Z.eqb_neq; lia).
  replace (0 <? Z.of_nat (length bs)) with true by (symmetry; apply Z.ltb_lt; lia).
  rewrite Z.sub_diag. cbn [Z.eqb].
  rewrite skipn_all_Z, Nat2Z.id, firstn_all.
  cbn [fst app elapsed fold_right blocked_of].
  rewrite !Z.add_0_r, Z.sub_0_r. reflexivity.
Qed.

(** The reply is not there within the timeout: nothing is received. *)
Lemma receive_port_late p w r l n :
  0 < fd p -> line p = Ev w r :: l -> timeout_ms p < w -> n <> 0 ->
  receive_port n p =
  (Ok (n - n, []),
   mkPort (fd p) (tio p) (modem p) (now p + timeout_ms p)
          (Ev (w - timeout_ms p) r :: l) (wr p)
          (wire p ++ [RxEv []])
          (sys p ++ [SysSelect (timeout_ms p) (timeout_ms p) 0])).
Proof.
  intros Ho Hl Hw Hn.
  unfold receive_port, receive_port_why, tcgetattr.
  replace (0 <? fd p) with true by (symmetry; lia).
  fold (timeout_ms p). rewrite Hl. cbn [recv_loop].
  replace (n =? 0) with false by (symmetry; apply Z.eqb_neq; lia).
  rewrite tv_is_timeout. unfold select. cbn [ev_wait ev_rd].
  replace (timeout_ms p <? w) with true by (symmetry; apply Z.ltb_lt; lia).
  cbn [neq Z.eqb negb fst elapsed fold_right blocked_of].
  rewrite Z.add_0_r. reflexivity.
Qed.

(** One round with a target that answers in time. *)
Lemma dialogue_acked {B} f e1 e2 (K : Z -> list Z -> M B) p w bs l :
  0 < fd p -> wr p = [] -> line p = Ev w (RdBytes bs) :: l ->
  w <= timeout_ms p -> bs <> [] ->
  bind (send_port (Z.of_nat (length f)) f)
       (fun len => bind (fail_if (neq len (Z.of_nat (length f))) e1)
          (fun _ => bind (receive_port (Z.of_nat (length bs)))
             (fun x => match x with
                       | (len, Rx) =>
                           bind (fail_if (neq len (Z.of_nat (length bs))) e2)
                                (fun _ => K len Rx)
                       end))) p
  = K (Z.of_nat (length bs)) bs (after_round p f w bs l).
Proof.
  intros Ho Hwr Hl Hw Hne.
  unfold bind at 1. rewrite (send_port_accepted _ f p Hwr eq_refl).
  unfold bind at 1. unfold fail_if, neq. rewrite Z.eqb_refl. cbn [negb ret].
  unfold bind at 1.
  rewrite (receive_port_ready _ w bs l) by (cbn; assumption).
  unfold bind at 1. rewrite Z.eqb_refl. cbn [negb ret].
  unfold after_round. cbn [fd tio modem now line wr wire sys].
  unfold timeout_ms. cbn [tio]. rewrite <- app_assoc. reflexivity.
Qed.

Lemma dialogue_answered {B} n f m e1 e2 (K : Z -> list Z -> M B) p w bs l :
  n = Z.of_nat (length f) -> m = Z.of_nat (length bs) ->
  0 < fd p -> wr p = [] -> line p = Ev w (RdBytes bs) :: l ->
  w <= timeout_ms p -> bs <> [] ->
  bind (send_port n f)
       (fun len => bind (fail_if (neq len n) e1)
          (fun _ => bind (receive_port m)
             (fun x => match x with
                       | (len, Rx) => bind (fail_if (neq len m) e2) (fun _ => K len Rx)
                       end))) p
  = K m bs (after_round p f w bs l).
Proof.
  intros -> ->. apply dialogue_acked.
Qed.

Lemma after_round_facts p f w bs l :
  wr p = [] ->
  fd (after_round p f w bs l) = fd p /\
  wr (after_round p f w bs l) = [] /\
  line (after_round p f w bs l) = l /\
  timeout_ms (after_round p f w bs l) = timeout_ms p /\
  wire (after_round p f w bs l) = wire p ++ [TxEv f; RxEv bs] /\
  now (after_round p f w bs l) = now p + w.
Proof. intros H. unfold after_round. cbn. rewrite H. repeat split. Qed.

(** ** [bsl_memCheck] *)

Lemma bsl_memCheck_Ok addr p r p' :
  bsl_memCheck addr p = (Ok r, p') ->
  fd p' = fd p /\ tio p' = tio p /\ 0 < fd p /\
  ((r = 0 /\ exists b, b <> ACK /\ wire p' = wire p ++ check_refused addr b) \/
   (r = 1 /\ exists d, wire p' = wire p ++ check_granted addr d)).
Proof.
  unfold bsl_memCheck. intros H.
  apply check_open_Ok in H. destruct H as [_ H].
  apply dialogue_full_Ok in H; [| reflexivity | lia].
  destruct H as (Rx1 & p1 & H & Hw1 & Hl1 & Hf1 & Ht1 & Ho).
  apply length1 in Hl1. destruct Hl1 as [a1 ->].
  apply fail_if_bind_Ok in H. destruct H as [Ha1 H].
  apply neq_false in Ha1. cbn in Ha1. subst a1.
  apply dialogue_full_Ok in H; [| reflexivity | lia].
  destruct H as (Rx2 & p2 & H & Hw2 & Hl2 & Hf2 & Ht2 & _).
  apply length1 in Hl2. destruct Hl2 as [a2 ->].
  cbn [Rx_at nth] in H.
  destruct (neq a2 ACK) eqn:Ea2.
  - apply ret_Ok in H. destruct H as [<- ->].
    repeat split; try congruence.
    left. split; [reflexivity |]. exists a2. split; [apply neq_true; exact Ea2 |].
    rewrite Hw2, Hw1, <- app_assoc. reflexivity.
  - apply neq_false in Ea2. subst a2.
    cbv zeta in H.
    apply dialogue_full_Ok in H; [| reflexivity | lia].
    destruct H as (Rx3 & p3 & H & Hw3 & Hl3 & Hf3 & Ht3 & _).
    apply length2 in Hl3. destruct Hl3 as (a3 & d & ->).
    apply fail_if_bind_Ok in H. destruct H as [Ha3 H].
    apply neq_false in Ha3. cbn in Ha3. subst a3.
    apply ret_Ok in H. destruct H as [<- ->].
    repeat split; try congruence.
    right. split; [reflexivity |]. exists d.
    rewrite Hw3, Hw2, Hw1, <- !app_assoc. reflexivity.
Qed.

(** ** [bsl_sync] *)

Lemma rounds_app rs1 rs2 : rounds (rs1 ++ rs2) = rounds rs1 ++ rounds rs2.
Proof. unfold rounds. apply flat_map_app. Qed.

Lemma tx_of_app w1 w2 : tx_of (w1 ++ w2) = tx_of w1 ++ tx_of w2.
Proof.
  induction w1 as [| [bs | bs] w1 IH]; simpl; [reflexivity | rewrite IH | rewrite IH];
    reflexivity.
Qed.

Lemma rx_of_app w1 w2 : rx_of (w1 ++ w2) = rx_of w1 ++ rx_of w2.
Proof.
  induction w1 as [| [bs | bs] w1 IH]; simpl; [reflexivity | rewrite IH | rewrite IH];
    reflexivity.
Qed.

Lemma rx_of_rounds rs : rx_of (rounds rs) = rs.
Proof. induction rs as [| r rs IH]; simpl; [| rewrite IH]; reflexivity. Qed.

Lemma tx_of_rounds rs : tx_of (rounds rs) = repeat [SYNCH] (length rs).
Proof. induction rs as [| r rs IH]; simpl; [| rewrite IH]; reflexivity. Qed.

(** A short write of the one-byte frame puts nothing on the wire. *)
Lemma send_port_short x p r p' :
  send_port 1 [x] p = (Ok r, p') -> neq r 1 = true ->
  wire p' = wire p ++ [TxEv []] /\ fd p' = fd p.
Proof.
  unfold send_port. intros H Hn. apply neq_true in Hn.
  inversion H as [[Hr Hp]]. cbn. split; [| reflexivity].
  assert (Hle : r <= 0).
  { rewrite <- Hr. destruct (wr p) as [| w ?]; [lia |].
    destruct (w <? 0); lia. }
  rewrite Hr. replace (Z.to_nat r) with 0%nat by lia. reflexivity.
Qed.

Lemma SLEEP_inv ms p : exists p', SLEEP ms p = (Ok tt, p') /\
  fd p' = fd p /\ tio p' = tio p /\ wire p' = wire p.
Proof. unfold SLEEP. eexists. repeat split. Qed.

Lemma flush_port_inv p : exists p', flush_port p = (Ok tt, p') /\
  fd p' = fd p /\ tio p' = tio p /\ wire p' = wire p.
Proof. unfold flush_port. eexists. repeat split. Qed.

Lemma good_reply_one len Rx Rx0 :
  len = Z.of_nat (length Rx) -> len <= 1 ->
  neq len 1 || (neq (match Rx with b :: _ => b | [] => Rx0 end) ACK &&
                neq (match Rx with b :: _ => b | [] => Rx0 end) NACK)
  = negb (good_reply Rx).
Proof.
  intros Hl Hle. destruct Rx as [| b [| c Rx]]; simpl in *; subst len.
  - reflexivity.
  - unfold neq. simpl. rewrite negb_orb. reflexivity.
  - lia.
Qed.

Lemma sync_loop_run fuel :
  forall count Rx0 p res p',
    0 < fd p -> 0 <= count -> Z.of_nat fuel = 15 - count ->
    0 < Z.of_nat fuel ->
    sync_loop fuel count Rx0 p = (res, p') ->
    sync_end p count res p'.
Proof.
  induction fuel as [| fuel IH]; intros count Rx0 p res p' Ho Hc Hf Hpos H;
    [simpl in Hpos; lia |].
  cbn [sync_loop] in H. unfold bind at 1 in H.
  destruct (send_port_total 1 [SYNCH] p) as (len0 & p0 & Hs). rewrite Hs in H.
  unfold bind at 1 in H. unfold fail_if in H.
  destruct (neq len0 1) eqn:Hn0.
  - (* the write was short *)
    cbn in H. inversion H; subst; clear H.
    destruct (send_port_short _ _ _ _ Hs Hn0) as [Hw _].
    apply (sync_write_failed p count []).
    + apply Forall_nil.
    + simpl. lia.
    + exact Hw.
  - cbn [ret exit_] in H. cbv beta iota in H.
    destruct (send_port_full _ _ _ _ _ Hs Hn0 eq_refl) as (Hf0 & Ht0 & Hw0).
    assert (Ho0 : 0 < fd p0) by lia.
    destruct (receive_port_total 1 p0 Ho0) as (len & Rx & p1 & Hr).
    unfold bind at 1 in H. rewrite Hr in H.
    destruct (receive_port_inv 1 _ _ _ _ ltac:(lia) Hr)
      as (_ & Hf1 & Ht1 & _ & Hw1 & Hl & Hle).
    destruct (SLEEP_inv 10 p1) as (p2 & Hsl & Hf2 & Ht2 & Hw2).
    unfold bind at 1 in H. rewrite Hsl in H.
    rewrite (good_reply_one len Rx Rx0 Hl Hle) in H.
    set (Rx0' := match Rx with b :: _ => b | [] => Rx0 end) in *.
    assert (HRx : Rx = [Rx0'] \/ Rx = []).
    { subst Rx0'. destruct Rx as [| b [| c Rx]]; simpl in *; auto. lia. }
    assert (Hwire : wire p2 = wire p ++ rounds [Rx]).
    { rewrite Hw2, Hw1, Hw0, <- app_assoc. reflexivity. }
    destruct (count + 1 <? 15) eqn:Hlt; simpl andb in H.
    + destruct (good_reply Rx) eqn:Hg; simpl negb in H; cbv iota in H.
      * (* a valid reply *)
        unfold ret in H. inversion H; subst res p'; clear H. rewrite Hl.
        apply (sync_answered p count [] Rx Rx0' p2); auto; simpl; lia.
      * (* another round *)
        assert (Hfd2 : 0 < fd p2) by lia.
        specialize (IH (count + 1) Rx0' p2 res p' Hfd2 ltac:(lia) ltac:(lia) ltac:(lia) H).
        destruct IH as [rs p' Hall Hcnt Hw | rs r b p' Hall Hcnt Hlast Hr0 Hw].
        -- apply (sync_write_failed p count (Rx :: rs)).
           ++ constructor; assumption.
           ++ simpl length. lia.
           ++ rewrite Hw, Hwire, <- app_assoc. reflexivity.
        -- apply (sync_answered p count (Rx :: rs) r b p').
           ++ constructor; assumption.
           ++ simpl length. lia.
           ++ simpl length. destruct Hlast; [left; assumption | right; lia].
           ++ assumption.
           ++ rewrite Hw, Hwire, <- app_assoc. reflexivity.
    + (* count reached 15 *)
      unfold ret in H. inversion H; subst res p'; clear H. rewrite Hl.
      apply (sync_answered p count [] Rx Rx0' p2); auto; simpl; lia.
Qed.

Lemma good_reply_iff r : good_reply r = true <-> r = [ACK] \/ r = [NACK].
Proof.
  unfold good_reply. destruct r as [| b [| c r]]; split; intros H;
    try discriminate; try (destruct H; discriminate).
  - apply orb_true_iff in H. destruct H as [H | H]; apply Z.eqb_eq in H; subst; auto.
  - destruct H as [H | H]; inversion H; subst; reflexivity.
Qed.

Lemma bsl_sync_run p res p' :
  0 < fd p -> bsl_sync p = (res, p') -> sync_run p res p'.
Proof.
  intros Ho H. unfold bsl_sync in H.
  unfold bind at 1 in H. unfold check_open, fail_if in H.
  replace (fd p =? 0) with false in H by (symmetry; apply Z.eqb_neq; lia).
  cbn [ret] in H.
  destruct (flush_port_inv p) as (p0 & Hfl & Hf0 & _ & Hw0).
  unfold bind at 1 in H. rewrite Hfl in H.
  unfold bind at 1 in H.
  destruct (sync_loop 15 0 0 p0) as [r1 p1] eqn:Hloop.
  apply sync_loop_run in Hloop; try lia.
  destruct Hloop as [rs p1 Hall Hcnt Hw | rs r Rx0 p1 Hall Hcnt Hlast Hr Hw].
  - inversion H; subst; clear H.
    apply (run_write_failed p rs); [assumption | lia | congruence].
  - rewrite Hw0 in Hw.
    destruct Hr as [-> | ->]; cbn [length Z.of_nat Pos.of_succ_nat] in H.
    + change (Z.pos 1 =? 1) with true in H. cbn [andb] in H.
      destruct (Rx0 =? ACK) eqn:Ea.
      { unfold ret in H. inversion H; subst; clear H.
        apply (run_synchronised p rs [Rx0]); auto; [lia |].
        simpl. rewrite Ea. reflexivity. }
      destruct (Rx0 =? NACK) eqn:En.
      { unfold ret in H. inversion H; subst; clear H.
        apply (run_synchronised p rs [Rx0]); auto; [lia |].
        simpl. rewrite En. apply orb_true_r. }
      unfold exit_ in H. inversion H; subst; clear H.
      assert (Hbad : good_reply [Rx0] = false) by (simpl; rewrite Ea, En; reflexivity).
      destruct Hlast as [Hg | Hlen]; [congruence |].
      apply (run_wrong p rs Rx0); auto. lia.
    + change (0 =? 1) with false in H. cbn [andb] in H.
      unfold exit_ in H. inversion H; subst; clear H.
      destruct Hlast as [Hg | Hlen]; [discriminate |].
      apply (run_silent p rs); auto. lia.
Qed.

Lemma Forall_repeat {A} (P : A -> Prop) x n : P x -> Forall P (repeat x n).
Proof. intros H. induction n; simpl; constructor; auto. Qed.

Lemma nth_error_app_last {A} (l : list A) x k y :
  nth_error (l ++ [x]) k = Some y ->
  (k < length l)%nat /\ nth_error l k = Some y \/ k = length l /\ y = x.
Proof.
  intros H. destruct (Nat.lt_ge_cases k (length l)) as [Hlt | Hge].
  - left. rewrite nth_error_app1 in H by assumption. auto.
  - right. rewrite nth_error_app2 in H by assumption.
    destruct (k - length l)%nat as [| j] eqn:E.
    + simpl in H. inversion H. split; [lia | reflexivity].
    + simpl in H. destruct j; discriminate.
Qed.

Lemma Forall_nth_error {A} (P : A -> Prop) l k x :
  Forall P l -> nth_error l k = Some x -> P x.
Proof.
  intros Hall Hk. rewrite Forall_forall in Hall. apply Hall.
  eapply nth_error_In. exact Hk.
Qed.

Lemma not_good r : good_reply r = false -> r <> [ACK] /\ r <> [NACK].
Proof.
  intros H. split; intros ->; vm_compute in H; discriminate.
Qed.

Lemma no_good_among rs k r :
  Forall (fun r => good_reply r = false) rs ->
  nth_error rs k = Some r -> r = [ACK] \/ r = [NACK] -> False.
Proof.
  intros Hall Hk Hg. apply good_reply_iff in Hg.
  pose proof (Forall_nth_error _ _ _ _ Hall Hk) as Hb. simpl in Hb. congruence.
Qed.

Lemma tx_of_refused rs :
  tx_of (rounds rs ++ [TxEv []]) = repeat [SYNCH] (length rs) ++ [[]].
Proof. rewrite tx_of_app, tx_of_rounds. reflexivity. Qed.

Lemma rx_of_refused rs : rx_of (rounds rs ++ [TxEv []]) = rs.
Proof. rewrite rx_of_app, rx_of_rounds. simpl. apply app_nil_r. Qed.

Lemma synch_or_nothing n :
  Forall (fun t => t = [SYNCH] \/ t = []) (repeat [SYNCH] n).
Proof. apply Forall_repeat. left. reflexivity. Qed.

Lemma sync_round_silent fuel count Rx0 p w r l :
  0 < fd p -> wr p = [] -> line p = Ev w r :: l -> timeout_ms p < w ->
  count + 1 < 15 ->
  sync_loop (S fuel) count Rx0 p = sync_loop fuel (count + 1) Rx0 (after_silence p w r l).
Proof.
  intros Ho Hwr Hl Hw Hc. cbn [sync_loop].
  unfold bind at 1. rewrite (send_port_accepted 1 [SYNCH] p Hwr eq_refl).
  unfold bind at 1. cbn [fail_if neq Z.eqb Pos.eqb negb ret].
  unfold bind at 1.
  rewrite (receive_port_late _ w r l 1) by (cbn; auto; discriminate).
  unfold bind at 1. unfold SLEEP.
  cbn [fd tio modem now line wr wire sys Z.sub Z.pos_sub neq Z.eqb negb orb].
  replace (count + 1 <? 15) with true by (symmetry; apply Z.ltb_lt; lia).
  change (1 - 1) with 0.
  cbn [andb neq Z.eqb negb orb]. unfold after_silence, timeout_ms, with_line.
  cbn [fd tio modem now line wr wire sys].
  rewrite <- app_assoc. reflexivity.
Qed.

Lemma sync_round_answered fuel count Rx0 p w b l :
  0 < fd p -> wr p = [] -> line p = Ev w (RdBytes [b]) :: l ->
  w <= timeout_ms p -> good_reply [b] = true ->
  exists p',
    sync_loop (S fuel) count Rx0 p = (Ok (1, b), p') /\
    wire p' = wire p ++ [TxEv [SYNCH]; RxEv [b]].
Proof.
  intros Ho Hwr Hl Hw Hg. cbn [sync_loop].
  unfold bind at 1. rewrite (send_port_accepted 1 [SYNCH] p Hwr eq_refl).
  unfold bind at 1. cbn [fail_if neq Z.eqb Pos.eqb negb ret].
  unfold bind at 1.
  change 1 with (Z.of_nat (length [b])) at 1.
  rewrite (receive_port_ready _ w [b] l) by (cbn; auto; discriminate).
  unfold bind at 1. unfold SLEEP.
  cbn [length Z.of_nat Pos.of_succ_nat neq Z.eqb Pos.eqb negb orb].
  assert (Hcond : neq b ACK && neq b NACK = false).
  { unfold good_reply in Hg. unfold neq. rewrite <- negb_orb, Hg. reflexivity. }
  rewrite Hcond, andb_false_r. unfold ret.
  eexists. split; [reflexivity |].
  cbn [wire with_line]. rewrite <- app_assoc. reflexivity.
Qed.

Lemma sync_loop_answer b l fuel :
  forall count Rx0 p w,
    0 < fd p -> wr p = [] -> line p = Ev w (RdBytes [b]) :: l ->
    good_reply [b] = true -> 0 <= timeout_ms p ->
    Z.of_nat fuel = 15 - count -> 0 <= count -> (0 < fuel)%nat ->
    w <= timeout_ms p + (Z.of_nat fuel - 1) * (timeout_ms p + 10) ->
    exists k p',
      sync_loop fuel count Rx0 p = (Ok (1, b), p') /\
      wire p' = wire p ++ rounds (repeat [] k ++ [[b]]) /\
      (k < fuel)%nat /\
      w <= timeout_ms p + Z.of_nat k * (timeout_ms p + 10) /\
      ((0 < k)%nat -> timeout_ms p + (Z.of_nat k - 1) * (timeout_ms p + 10) < w).
Proof.
  induction fuel as [| fuel IH]; intros count Rx0 p w Ho Hwr Hl Hg Ht Hf Hc Hpos Hw;
    [lia |].
  destruct (Z.le_gt_cases w (timeout_ms p)) as [Hin | Hlate].
  - destruct (sync_round_answered fuel count Rx0 p w b l Ho Hwr Hl Hin Hg)
      as (p' & Hrun & Hwire).
    exists 0%nat, p'. split; [exact Hrun |]. split; [exact Hwire |].
    split; [lia |]. split; [simpl; lia | intros; lia].
  - assert (Hfuel : (0 < fuel)%nat).
    { destruct fuel; [| lia]. simpl in Hw. lia. }
    rewrite (sync_round_silent fuel count Rx0 p w (RdBytes [b]) l Ho Hwr Hl) by lia.
    set (w' := Z.max 0 (w - timeout_ms p - 10)).
    set (q := after_silence p w (RdBytes [b]) l).
    assert (Hq1 : 0 < fd q) by exact Ho.
    assert (Hq2 : wr q = []) by (subst q; cbn [after_silence wr]; rewrite Hwr; reflexivity).
    assert (Hq3 : line q = Ev w' (RdBytes [b]) :: l) by reflexivity.
    assert (Hq4 : timeout_ms q = timeout_ms p) by reflexivity.
    assert (Hq5 : w' <= timeout_ms q + (Z.of_nat fuel - 1) * (timeout_ms q + 10)).
    { rewrite Hq4. subst w'.
      replace (Z.of_nat (S fuel) - 1) with (Z.of_nat fuel - 1 + 1) in Hw by lia.
      rewrite Z.mul_add_distr_r in Hw.
      assert (0 <= (Z.of_nat fuel - 1) * (timeout_ms p + 10))
        by (apply Z.mul_nonneg_nonneg; lia).
      lia. }
    destruct (IH (count + 1) Rx0 q w' Hq1 Hq2 Hq3 Hg ltac:(lia) ltac:(lia) ltac:(lia)
                 Hfuel Hq5)
      as (k & p' & Hrun & Hwire & Hk & Hup & Hlow).
    rewrite Hq4 in Hup, Hlow.
    assert (Hwq : wire q = wire p ++ [TxEv [SYNCH]; RxEv []]) by reflexivity.
    clearbody q. subst w'.
    exists (S k), p'. split; [exact Hrun |].
    split.
    { rewrite Hwire, Hwq. cbn [repeat app rounds flat_map].
      rewrite <- app_assoc. reflexivity. }
    split; [lia |].
    split.
    + replace (Z.of_nat (S k)) with (Z.of_nat k + 1) by lia.
      rewrite Z.mul_add_distr_r. lia.
    + intros _. replace (Z.of_nat (S k) - 1) with (Z.of_nat k) by lia.
      destruct k as [| k].
      * simpl. lia.
      * specialize (Hlow ltac:(lia)).
        replace (Z.of_nat (S k)) with (Z.of_nat (S k) - 1 + 1) by lia.
        rewrite Z.mul_add_distr_r.
        assert (0 <= (Z.of_nat (S k) - 1) * (timeout_ms p + 10))
          by (apply Z.mul_nonneg_nonneg; lia).
        lia.
Qed.

(** *** A target that sends one byte per round *)

Lemma delivers_slept t bs l l' :
  0 <= t -> bs <> [] -> delivers t bs l l' -> delivers t bs (slept 10 l) l'.
Proof.
  intros Ht Hne H. destruct H as [l | w b bs l l' Hw H]; [contradiction |].
  cbn [slept]. constructor; [lia | exact H].
Qed.

Lemma delivers_slept_end t bs l :
  0 <= t -> delivers t bs l [] -> delivers t bs (slept 10 l) [].
Proof.
  intros Ht H. inversion H; subst.
  - constructor.
  - cbn [slept]. constructor; [lia | assumption].
Qed.

Lemma delivers_byte_replies t rs l :
  in_time t rs -> delivers t (map snd rs) (byte_replies rs ++ l) l.
Proof.
  intros H. induction H as [| [w b] rs Hw _ IH]; cbn.
  - constructor.
  - constructor; [cbn in Hw; lia | exact IH].
Qed.

(** Input that is still on its way is not flushed. *)
Lemma tcflush_on_its_way t rs l :
  in_time t rs -> rs <> [] \/ l = [] ->
  tcflush (byte_replies rs ++ l) = byte_replies rs ++ l.
Proof.
  intros H Hne. destruct H as [| [w b] rs Hw _].
  - destruct Hne as [Hne | ->]; [contradiction | reflexivity].
  - cbn in *. replace (w <=? 0) with false by (symmetry; apply Z.leb_gt; lia).
    reflexivity.
Qed.

(** One round in which a single byte arrives in time. *)
Lemma sync_round_byte fuel count Rx0 p w b l :
  0 < fd p -> wr p = [] -> line p = Ev w (RdBytes [b]) :: l ->
  w <= timeout_ms p ->
  exists p1,
    sync_loop (S fuel) count Rx0 p =
      (if (count + 1 <? 15) && negb (good_reply [b])
       then sync_loop fuel (count + 1) b p1
       else (Ok (1, b), p1)) /\
    fd p1 = fd p /\ wr p1 = [] /\ tio p1 = tio p /\ line p1 = slept 10 l /\
    wire p1 = wire p ++ [TxEv [SYNCH]; RxEv [b]].
Proof.
  intros Ho Hwr Hl Hw. cbn [sync_loop].
  unfold bind at 1. rewrite (send_port_accepted 1 [SYNCH] p Hwr eq_refl).
  unfold bind at 1. cbn [fail_if neq Z.eqb Pos.eqb negb ret].
  unfold bind at 1.
  change 1 with (Z.of_nat (length [b])) at 1.
  rewrite (receive_port_ready _ w [b] l) by (cbn; auto; discriminate).
  unfold bind at 1. unfold SLEEP.
  cbn [length Z.of_nat Pos.of_succ_nat neq Z.eqb Pos.eqb negb orb].
  assert (Hcond : neq b ACK && neq b NACK = negb (good_reply [b])).
  { unfold good_reply, neq. rewrite negb_orb. reflexivity. }
  rewrite Hcond.
  eexists. split.
  { destruct ((count + 1 <? 15) && negb (good_reply [b])); reflexivity. }
  cbn [with_line fd wr tio line wire]. rewrite Hwr, <- app_assoc.
  repeat split; reflexivity.
Qed.

(** One round on a line that stays silent. *)
Lemma sync_round_nothing fuel count Rx0 p :
  0 < fd p -> wr p = [] -> line p = [] ->
  exists p1,
    sync_loop (S fuel) count Rx0 p =
      (if count + 1 <? 15 then sync_loop fuel (count + 1) Rx0 p1
       else (Ok (0, Rx0), p1)) /\
    fd p1 = fd p /\ wr p1 = [] /\ tio p1 = tio p /\ line p1 = [] /\
    wire p1 = wire p ++ [TxEv [SYNCH]; RxEv []].
Proof.
  intros Ho Hwr Hl. cbn [sync_loop].
  unfold bind at 1. rewrite (send_port_accepted 1 [SYNCH] p Hwr eq_refl).
  unfold bind at 1. cbn [fail_if neq Z.eqb Pos.eqb negb ret].
  unfold bind at 1.
  unfold receive_port at 1, receive_port_why, tcgetattr.
  cbn [fd tio modem now line wr wire sys].
  replace (0 <? fd p) with true by (symmetry; lia).
  rewrite Hl. cbn [recv_loop Z.eqb fst].
  unfold bind at 1. unfold SLEEP.
  cbn [fd tio modem now line wr wire sys Z.sub Z.pos_sub neq Z.eqb negb orb].
  rewrite andb_true_r.
  eexists. split.
  { destruct (count + 1 <? 15); reflexivity. }
  cbn [with_line fd wr tio line wire]. rewrite Hwr, <- app_assoc.
  repeat split; reflexivity.
Qed.

(** The target never answers: the rounds that are left all time out. *)
Lemma sync_loop_silent fuel :
  forall count Rx0 p,
    0 < fd p -> wr p = [] -> line p = [] ->
    Z.of_nat fuel = 15 - count -> (0 < fuel)%nat ->
    exists p',
      sync_loop fuel count Rx0 p = (Ok (0, Rx0), p') /\
      wire p' = wire p ++ rounds (repeat [] fuel).
Proof.
  induction fuel as [| fuel IH]; intros count Rx0 p Ho Hwr Hl Hf Hpos; [lia |].
  destruct (sync_round_nothing fuel count Rx0 p Ho Hwr Hl)
    as (p1 & Hrun & Hf1 & Hwr1 & _ & Hl1 & Hw1).
  rewrite Hrun.
  destruct (count + 1 <? 15) eqn:Hc.
  - apply Z.ltb_lt in Hc.
    destruct (IH (count + 1) Rx0 p1) as (p' & Hrun' & Hw'); try assumption; try lia.
    exists p'. split; [exact Hrun' |].
    rewrite Hw', Hw1, <- app_assoc. reflexivity.
  - apply Z.ltb_ge in Hc. exists p1. split; [reflexivity |].
    replace fuel with 0%nat by lia. rewrite Hw1. reflexivity.
Qed.

(** The rounds answered by the bytes [pre], none of them ACK or NACK, and
    then by [b]: the loop is left in the round of [b] when [b] is ACK or NACK
    or when that round is round 15. *)
Lemma sync_loop_bytes pre :
  forall fuel count Rx0 p b l',
    0 < fd p -> wr p = [] -> 0 <= timeout_ms p ->
    delivers (timeout_ms p) (pre ++ [b]) (line p) l' ->
    Forall (fun x => good_reply [x] = false) pre ->
    Z.of_nat fuel = 15 - count -> 0 <= count ->
    count + Z.of_nat (length pre) < 15 ->
    good_reply [b] = true \/ count + Z.of_nat (length pre) = 14 ->
    exists p',
      sync_loop fuel count Rx0 p = (Ok (1, b), p') /\
      wire p' = wire p ++ rounds (map (fun x => [x]) (pre ++ [b])).
Proof.
  induction pre as [| x pre IH]; intros fuel count Rx0 p b l' Ho Hwr Ht Hd Hall Hf Hc Hlen Hend.
  - cbn [app length Z.of_nat] in *.
    inversion Hd as [| w b0 bs l0 l1 Hw Hd' Hb Hl]; subst.
    destruct fuel as [| fuel]; [lia |].
    destruct (sync_round_byte fuel count Rx0 p w b l0 Ho Hwr (eq_sym Hl) Hw)
      as (p1 & Hrun & _ & _ & _ & _ & Hw1).
    exists p1. split; [| exact Hw1].
    rewrite Hrun.
    destruct Hend as [Hg | H14].
    + rewrite Hg. cbn [negb]. rewrite andb_false_r. reflexivity.
    + replace (count + 1 <? 15) with false by (symmetry; apply Z.ltb_ge; lia).
      reflexivity.
  - cbn [app length] in *.
    inversion Hd as [| w b0 bs l0 l1 Hw Hd' Hb Hl]; subst.
    inversion Hall as [| ? ? Hx Hall']; subst.
    destruct fuel as [| fuel]; [lia |].
    destruct (sync_round_byte fuel count Rx0 p w x l0 Ho Hwr (eq_sym Hl) Hw)
      as (p1 & Hrun & Hf1 & Hwr1 & Ht1 & Hl1 & Hw1).
    rewrite Hrun, Hx. cbn [negb].
    replace (count + 1 <? 15) with true by (symmetry; apply Z.ltb_lt; lia).
    cbn [andb].
    assert (Htm : timeout_ms p1 = timeout_ms p) by (unfold timeout_ms; rewrite Ht1; reflexivity).
    destruct (IH fuel (count + 1) x p1 b l') as (p' & Hrun' & Hw'); try lia; try assumption.
    + rewrite Htm, Hl1. apply delivers_slept; [exact Ht | | exact Hd'].
      destruct pre; discriminate.
    + destruct Hend as [Hg | H14]; [left; exact Hg | right; lia].
    + exists p'. split; [exact Hrun' |].
      rewrite Hw', Hw1, <- app_assoc. reflexivity.
Qed.

(** The rounds answered by the bytes [bs], none of them ACK or NACK, after
    which the target falls silent. *)
Lemma sync_loop_falls_silent bs :
  forall fuel count Rx0 p,
    0 < fd p -> wr p = [] -> 0 <= timeout_ms p ->
    delivers (timeout_ms p) bs (line p) [] ->
    Forall (fun x => good_reply [x] = false) bs ->
    Z.of_nat fuel = 15 - count -> 0 <= count ->
    count + Z.of_nat (length bs) < 15 ->
    exists Rx0' p',
      sync_loop fuel count Rx0 p = (Ok (0, Rx0'), p') /\
      wire p' = wire p ++ rounds (map (fun x => [x]) bs ++ repeat [] (fuel - length bs)).
Proof.
  induction bs as [| x bs IH]; intros fuel count Rx0 p Ho Hwr Ht Hd Hall Hf Hc Hlen.
  - assert (Hl : line p = []) by (inversion Hd; reflexivity).
    destruct (sync_loop_silent fuel count Rx0 p Ho Hwr Hl Hf ltac:(cbn in Hlen; lia))
      as (p' & Hrun & Hw).
    exists Rx0, p'. split; [exact Hrun |].
    cbn [map app length]. rewrite Nat.sub_0_r. exact Hw.
  - cbn [length] in *.
    inversion Hd as [| w b0 bs0 l0 l1 Hw Hd' Hb Hl]; subst.
    inversion Hall as [| ? ? Hx Hall']; subst.
    destruct fuel as [| fuel]; [lia |].
    destruct (sync_round_byte fuel count Rx0 p w x l0 Ho Hwr (eq_sym Hl) Hw)
      as (p1 & Hrun & Hf1 & Hwr1 & Ht1 & Hl1 & Hw1).
    rewrite Hrun, Hx. cbn [negb].
    replace (count + 1 <? 15) with true by (symmetry; apply Z.ltb_lt; lia).
    cbn [andb].
    assert (Htm : timeout_ms p1 = timeout_ms p) by (unfold timeout_ms; rewrite Ht1; reflexivity).
    destruct (IH fuel (count + 1) x p1) as (Rx0' & p' & Hrun' & Hw'); try lia; try assumption.
    + rewrite Htm, Hl1. apply delivers_slept_end; assumption.
    + exists Rx0', p'. split; [exact Hrun' |].
      rewrite Hw', Hw1, <- app_assoc. reflexivity.
Qed.

Lemma good_reply_false_iff b : good_reply [b] = false <-> b <> ACK /\ b <> NACK.
Proof.
  unfold good_reply. rewrite orb_false_iff, !Z.eqb_neq. reflexivity.
Qed.

Lemma wrong_bytes_not_good bs :
  Forall wrong_byte bs -> Forall (fun x => good_reply [x] = false) bs.
Proof.
  intros H. eapply Forall_impl; [| exact H].
  intros b Hb. apply good_reply_false_iff. exact Hb.
Qed.

Lemma map_snd_app_one (rs : list (Z * Z)) w b :
  map snd (rs ++ [(w, b)]) = map snd rs ++ [b].
Proof. rewrite map_app. reflexivity. Qed.

(** [bsl_sync] against a target that answers every SYNCH in time with one
    byte: the bytes of [rs], none of them ACK or NACK, and then [b]. *)
Lemma bsl_sync_bytes p rs w b l :
  0 < fd p -> wr p = [] ->
  line p = byte_replies (rs ++ [(w, b)]) ++ l ->
  in_time (timeout_ms p) (rs ++ [(w, b)]) ->
  Forall wrong_byte (map snd rs) ->
  (length rs < 15)%nat ->
  good_reply [b] = true \/ length rs = 14%nat ->
  exists p',
    bsl_sync p =
      (if good_reply [b] then Ok 0 else Exit (E_wrong_response b), p') /\
    wire p' = wire p ++ rounds (map (fun x => [x]) (map snd rs ++ [b])).
Proof.
  intros Ho Hwr Hl Hin Hwrong Hlen Hend.
  assert (Ht : 0 <= timeout_ms p).
  { apply Forall_app in Hin. destruct Hin as [_ Hin].
    inversion Hin as [| ? ? Hw _]; subst. cbn in Hw. lia. }
  set (q := with_line p (now p) (tcflush (line p))).
  assert (Hfl : flush_port p = (Ok tt, q)) by reflexivity.
  assert (Hq : line q = line p).
  { subst q. cbn [with_line line]. rewrite Hl.
    apply (tcflush_on_its_way (timeout_ms p)); [exact Hin |].
    left. destruct rs; discriminate. }
  destruct (sync_loop_bytes (map snd rs) 15 0 0 q b l) as (p' & Hrun & Hw');
    try assumption; try reflexivity; try lia.
  - change (timeout_ms q) with (timeout_ms p). rewrite Hq, Hl, <- (map_snd_app_one rs w b).
    apply delivers_byte_replies. exact Hin.
  - apply wrong_bytes_not_good. exact Hwrong.
  - rewrite length_map. lia.
  - rewrite length_map. destruct Hend as [Hg | H14]; [left; exact Hg | right; lia].
  - exists p'. split; [| exact Hw'].
    unfold bsl_sync. unfold bind at 1. rewrite (check_open_pass p) by lia.
    unfold bind at 1. rewrite Hfl. unfold bind at 1. rewrite Hrun.
    cbn [Z.eqb Pos.eqb andb]. unfold good_reply.
    destruct (b =? ACK); [reflexivity |].
    destruct (b =? NACK); reflexivity.
Qed.

(** [bsl_sync] against a target that answers [rs] and then nothing more. *)
Lemma bsl_sync_falls_silent p rs :
  0 < fd p -> wr p = [] ->
  line p = byte_replies rs -> in_time (timeout_ms p) rs -> 0 <= timeout_ms p ->
  Forall wrong_byte (map snd rs) ->
  (length rs < 15)%nat ->
  exists p',
    bsl_sync p = (Exit E_no_response, p') /\
    wire p' = wire p ++
      rounds (map (fun x => [x]) (map snd rs) ++ repeat [] (15 - length rs)).
Proof.
  intros Ho Hwr Hl Hin Ht Hwrong Hlen.
  set (q := with_line p (now p) (tcflush (line p))).
  assert (Hfl : flush_port p = (Ok tt, q)) by reflexivity.
  assert (Hq : line q = line p).
  { subst q. cbn [with_line line]. rewrite Hl.
    rewrite <- (app_nil_r (byte_replies rs)).
    apply (tcflush_on_its_way (timeout_ms p)); [exact Hin | right; reflexivity]. }
  destruct (sync_loop_falls_silent (map snd rs) 15 0 0 q) as (Rx0' & p' & Hrun & Hw');
    try assumption; try reflexivity; try lia.
  - change (timeout_ms q) with (timeout_ms p). rewrite Hq, Hl.
    rewrite <- (app_nil_r (byte_replies rs)).
    apply delivers_byte_replies. exact Hin.
  - apply wrong_bytes_not_good. exact Hwrong.
  - rewrite length_map. lia.
  - exists p'. rewrite length_map in Hw'. split; [| exact Hw'].
    unfold bsl_sync. unfold bind at 1. rewrite (check_open_pass p) by lia.
    unfold bind at 1. rewrite Hfl. unfold bind at 1. rewrite Hrun.
    reflexivity.
Qed.

(** [bsl_sync] against a target whose one reply, ACK or NACK, arrives [w] ms
    after the call: the rounds before it time out. *)
Lemma bsl_sync_answer p w b l :
  0 < fd p -> wr p = [] ->
  line p = Ev w (RdBytes [b]) :: l -> 0 < w ->
  b = ACK \/ b = NACK ->
  0 <= timeout_ms p ->
  w <= 15 * timeout_ms p + 140 ->
  exists k p',
    bsl_sync p = (Ok 0, p') /\
    wire p' = wire p ++ rounds (repeat [] k ++ [[b]]) /\
    (k < 15)%nat /\
    w <= timeout_ms p + Z.of_nat k * (timeout_ms p + 10) /\
    ((0 < k)%nat -> timeout_ms p + (Z.of_nat k - 1) * (timeout_ms p + 10) < w).
Proof.
  intros Ho Hwr Hl Hw Hb Ht Hbound.
  assert (Hg : good_reply [b] = true) by (apply good_reply_iff; destruct Hb; subst; auto).
  set (q := with_line p (now p) (tcflush (line p))).
  assert (Hfl : flush_port p = (Ok tt, q)) by reflexivity.
  assert (Hq3 : line q = Ev w (RdBytes [b]) :: l).
  { subst q. cbn [with_line line]. rewrite Hl. cbn [tcflush].
    replace (w <=? 0) with false by (symmetry; apply Z.leb_gt; lia). reflexivity. }
  destruct (sync_loop_answer b l 15 0 0 q w Ho Hwr Hq3 Hg Ht eq_refl ltac:(lia) ltac:(lia))
    as (k & p' & Hrun & Hwire & Hk & Hup & Hlow).
  { change (timeout_ms q) with (timeout_ms p). lia. }
  exists k, p'.
  split.
  - unfold bsl_sync. unfold bind at 1. rewrite (check_open_pass p) by lia.
    unfold bind at 1. rewrite Hfl. unfold bind at 1. rewrite Hrun.
    cbn [Z.eqb Pos.eqb andb].
    unfold good_reply in Hg.
    destruct (b =? ACK); [reflexivity |]. cbn [orb] in Hg. rewrite Hg. reflexivity.
  - split; [exact Hwire |]. split; [exact Hk |]. split; [exact Hup | exact Hlow].
Qed.

Lemma receive_port_keeps_wr n p r p' : receive_port n p = (r, p') -> wr p' = wr p.
Proof.
  unfold receive_port, receive_port_why. destruct (tcgetattr p).
  - destruct (recv_loop _ _ _ _) as [[[[s r0] d] l2] c]. cbn.
    intros H. inversion H; subst. reflexivity.
  - cbn. intros H. inversion H; subst. reflexivity.
Qed.

(** When every write is accepted the loop is never left through "sending
    command failed". *)
Lemma sync_loop_no_refusal fuel :
  forall count Rx0 p r p',
    wr p = [] -> sync_loop fuel count Rx0 p = (r, p') ->
    forall ph, r <> Exit (E_send_failed ph).
Proof.
  induction fuel as [| fuel IH]; intros count Rx0 p r p' Hwr H ph.
  - cbn in H. inversion H; subst. discriminate.
  - cbn [sync_loop] in H. unfold bind at 1 in H.
    rewrite (send_port_accepted 1 [SYNCH] p Hwr eq_refl) in H.
    unfold bind at 1 in H. cbn [fail_if neq Z.eqb Pos.eqb negb ret] in H.
    unfold bind at 1 in H.
    set (p0 := mkPort (fd p) (tio p) (modem p) (now p) (line p) (tl (wr p))
                      (wire p ++ [TxEv [SYNCH]]) (sys p)) in H.
    assert (Hwr0 : wr p0 = []) by (subst p0; cbn; rewrite Hwr; reflexivity).
    destruct (receive_port 1 p0) as [[[len Rx] | e] p1] eqn:Hr.
    2:{ apply receive_port_Exit in Hr. inversion H; subst. discriminate. }
    apply receive_port_keeps_wr in Hr.
    unfold bind at 1 in H. unfold SLEEP in H.
    match type of H with
    | (if ?c then _ else _) ?q = _ =>
        destruct c;
        [ eapply (IH _ _ q r p'); [cbn [with_line wr]; congruence | exact H]
        | inversion H; subst; discriminate ]
    end.
Qed.

Lemma bsl_sync_no_refusal p ph :
  wr p = [] -> fst (bsl_sync p) <> Exit (E_send_failed ph).
Proof.
  intros Hwr. unfold bsl_sync. unfold bind at 1.
  unfold check_open, fail_if. destruct (fd p =? 0); [cbn; discriminate |].
  cbn [ret]. unfold bind at 1. unfold flush_port. unfold bind at 1.
  destruct (sync_loop 15 0 0 (with_line p (now p) (tcflush (line p))))
    as [[[len Rx0] | e] p1] eqn:Hloop.
  - destruct ((len =? 1) && (Rx0 =? ACK)); [cbn; discriminate |].
    destruct ((len =? 1) && (Rx0 =? NACK)); [cbn; discriminate |].
    destruct (len =? 1); cbn; discriminate.
  - cbn [fst]. intros He. inversion He; subst e.
    refine (sync_loop_no_refusal _ _ _ _ _ _ _ Hloop ph eq_refl). exact Hwr.
Qed.

(** [bsl_sync] against a target that never answers. *)
Lemma bsl_sync_silent p :
  0 < fd p -> wr p = [] -> line p = [] ->
  exists p',
    bsl_sync p = (Exit E_no_response, p') /\
    wire p' = wire p ++ rounds (repeat [] 15).
Proof.
  intros Ho Hwr Hl.
  set (q := with_line p (now p) (tcflush (line p))).
  assert (Hfl : flush_port p = (Ok tt, q)) by reflexivity.
  assert (Hq : line q = []) by (subst q; cbn [with_line line]; rewrite Hl; reflexivity).
  destruct (sync_loop_silent 15 0 0 q Ho Hwr Hq eq_refl ltac:(lia)) as (p' & Hrun & Hw').
  exists p'. split; [| exact Hw'].
  unfold bsl_sync. unfold bind at 1. rewrite (check_open_pass p) by lia.
  unfold bind at 1. rewrite Hfl. unfold bind at 1. rewrite Hrun.
  reflexivity.
Qed.

(** C6. [bsl_sync] writes the SYNCH byte at most 15 times; it returns 0
    exactly when the reply of some round k, 1 <= k <= 15, is the single byte
    ACK or the single byte NACK; and it stops with "no response" or "wrong
    response" (SyncFailed) exactly when 15 rounds passed without such a
    reply. When the writes are accepted these are the only outcomes: a
    target that never answers gets 15 SYNCH bytes and "no response"; a
    target whose ACK or NACK arrives within the 15 rounds, after rounds that
    timed out or that brought other bytes, makes it return 0 in the round of
    that reply. *)
Theorem sync_at_most_15_rounds (p : port) :
  0 < fd p ->
  (exists w,
    wire (snd (bsl_sync p)) = wire p ++ w /\
    (length (tx_of w) <= 15)%nat /\
    Forall (fun t => t = [SYNCH] \/ t = []) (tx_of w) /\
    (fst (bsl_sync p) = Ok 0 <->
     exists k r, (k < 15)%nat /\ nth_error (rx_of w) k = Some r /\
                 (r = [ACK] \/ r = [NACK])) /\
    ((fst (bsl_sync p) = Exit E_no_response \/
      exists b, fst (bsl_sync p) = Exit (E_wrong_response b)) <->
     (length (rx_of w) = 15%nat /\
      forall k r, nth_error (rx_of w) k = Some r -> r <> [ACK] /\ r <> [NACK]))) /\
  (wr p = [] ->
   (fst (bsl_sync p) = Ok 0 \/ fst (bsl_sync p) = Exit E_no_response \/
    exists b, fst (bsl_sync p) = Exit (E_wrong_response b)) /\
   (line p = [] ->
    fst (bsl_sync p) = Exit E_no_response /\
    wire (snd (bsl_sync p)) = wire p ++ rounds (repeat [] 15)) /\
   (forall w b l,
      line p = Ev w (RdBytes [b]) :: l ->
      0 < timeout_ms p -> 0 < w <= 15 * timeout_ms p + 140 ->
      b = ACK \/ b = NACK ->
      exists k, (k < 15)%nat /\
        fst (bsl_sync p) = Ok 0 /\
        wire (snd (bsl_sync p)) = wire p ++ rounds (repeat [] k ++ [[b]])) /\
   (forall rs w b l,
      line p = byte_replies (rs ++ [(w, b)]) ++ l ->
      in_time (timeout_ms p) (rs ++ [(w, b)]) ->
      Forall wrong_byte (map snd rs) -> (length rs < 15)%nat ->
      b = ACK \/ b = NACK ->
      fst (bsl_sync p) = Ok 0 /\
      wire (snd (bsl_sync p)) =
        wire p ++ rounds (map (fun x => [x]) (map snd rs ++ [b])))).
Proof.
  intros Ho. split.
  { destruct (bsl_sync p) as [res p'] eqn:E. cbn [fst snd].
    apply bsl_sync_run in E; [| exact Ho].
    destruct E as [rs p' Hall Hlen Hw | rs r p' Hall Hlen Hg Hw
                  | rs p' Hall Hlen Hw | rs b p' Hall Hlen Hg Hw].
    - exists (rounds rs ++ [TxEv []]).
      rewrite tx_of_refused, rx_of_refused.
      split; [exact Hw |]. split; [rewrite length_app, repeat_length; simpl; lia |].
      split; [apply Forall_app; split; [apply synch_or_nothing |
                                           constructor; [right; reflexivity | constructor]] |].
      split; split.
      + discriminate.
      + intros (k & r & _ & Hk & Hr). exfalso. eapply no_good_among; eauto.
      + intros [H | [b H]]; discriminate.
      + intros [H _]. lia.
    - exists (rounds (rs ++ [r])).
      rewrite tx_of_rounds, rx_of_rounds.
      split; [exact Hw |]. split; [rewrite repeat_length, length_app; simpl; lia |].
      split; [apply synch_or_nothing |].
      split; split.
      + intros _. exists (length rs), r. split; [lia |].
        split; [| apply good_reply_iff; exact Hg].
        rewrite nth_error_app2, Nat.sub_diag by lia. reflexivity.
      + reflexivity.
      + intros [H | [b H]]; discriminate.
      + intros [_ H]. exfalso.
        assert (Hk : nth_error (rs ++ [r]) (length rs) = Some r)
          by (rewrite nth_error_app2, Nat.sub_diag by lia; reflexivity).
        apply H in Hk. apply good_reply_iff in Hg. destruct Hk. destruct Hg; contradiction.
    - exists (rounds (rs ++ [[]])).
      rewrite tx_of_rounds, rx_of_rounds.
      split; [exact Hw |]. split; [rewrite repeat_length, length_app; simpl; lia |].
      split; [apply synch_or_nothing |].
      split; split.
      + discriminate.
      + intros (k & r & _ & Hk & Hr). exfalso.
        apply nth_error_app_last in Hk. destruct Hk as [[_ Hk] | [_ ->]].
        * eapply no_good_among; eauto.
        * destruct Hr; discriminate.
      + intros _. split; [rewrite length_app; simpl; lia |].
        intros k r Hk. apply nth_error_app_last in Hk.
        destruct Hk as [[_ Hk] | [_ ->]].
        * apply not_good. exact (Forall_nth_error _ _ _ _ Hall Hk).
        * split; discriminate.
      + intros _. left. reflexivity.
    - exists (rounds (rs ++ [[b]])).
      rewrite tx_of_rounds, rx_of_rounds.
      split; [exact Hw |]. split; [rewrite repeat_length, length_app; simpl; lia |].
      split; [apply synch_or_nothing |].
      split; split.
      + discriminate.
      + intros (k & r & _ & Hk & Hr). exfalso.
        apply nth_error_app_last in Hk. destruct Hk as [[_ Hk] | [_ ->]].
        * eapply no_good_among; eauto.
        * apply good_reply_iff in Hr. congruence.
      + intros _. split; [rewrite length_app; simpl; lia |].
        intros k r Hk. apply nth_error_app_last in Hk.
        destruct Hk as [[_ Hk] | [_ ->]].
        * apply not_good. exact (Forall_nth_error _ _ _ _ Hall Hk).
        * apply not_good. exact Hg.
      + intros _. right. exists b. reflexivity. }
  intros Hwr. split; [| split; [| split]].
  - (* the outcomes *)
    pose proof (bsl_sync_no_refusal p 1 Hwr) as Hno.
    destruct (bsl_sync p) as [res p'] eqn:E. cbn [fst] in *.
    apply bsl_sync_run in E; [| exact Ho].
    destruct E; [contradiction Hno; reflexivity | left | right; left | right; right; eexists];
      reflexivity.
  - (* a silent target *)
    intros Hl.
    destruct (bsl_sync_silent p Ho Hwr Hl) as (p' & Hrun & Hw).
    rewrite Hrun. split; [reflexivity | exact Hw].
  - (* one reply, ACK or NACK, after rounds that timed out *)
    intros w b l Hl Ht Hw Hb.
    destruct (bsl_sync_answer p w b l Ho Hwr Hl ltac:(lia) Hb ltac:(lia) ltac:(lia))
      as (k & p' & Hrun & Hwire & Hk & _).
    exists k. rewrite Hrun. split; [exact Hk |]. split; [reflexivity | exact Hwire].
  - (* ACK or NACK after rounds that brought other bytes *)
    intros rs w b l Hl Hin Hwrong Hlen Hb.
    assert (Hg : good_reply [b] = true) by (apply good_reply_iff; destruct Hb; subst; auto).
    destruct (bsl_sync_bytes p rs w b l Ho Hwr Hl Hin Hwrong Hlen (or_introl Hg))
      as (p' & Hrun & Hw').
    rewrite Hrun, Hg. split; [reflexivity | exact Hw'].
Qed.

(** The target keeps silent for three rounds and answers NACK in the
    fourth (scenario 2 of the specification); a target that never answers;
    a target that answers 0x55 and then ACK. *)
Lemma sync_at_most_15_rounds_witness :
  (exists k,
     fst (bsl_sync (mock 10 [Ev 3025 (RdBytes [NACK])])) = Ok 0 /\
     wire (snd (bsl_sync (mock 10 [Ev 3025 (RdBytes [NACK])]))) =
       rounds (repeat [] k ++ [[NACK]])) /\
  (fst (bsl_sync (mock 10 [])) = Exit E_no_response /\
   tx_of (wire (snd (bsl_sync (mock 10 [])))) = repeat [SYNCH] 15) /\
  (fst (bsl_sync (mock 10 [reply [0x55]; reply [ACK]])) = Ok 0 /\
   wire (snd (bsl_sync (mock 10 [reply [0x55]; reply [ACK]]))) =
     [TxEv [SYNCH]; RxEv [0x55]; TxEv [SYNCH]; RxEv [ACK]]).
Proof.
  split; [| split].
  3:{ destruct (sync_at_most_15_rounds (mock 10 [reply [0x55]; reply [ACK]]) eq_refl)
        as [_ Hfw].
      destruct (Hfw eq_refl) as (_ & _ & _ & Hbytes).
      apply (Hbytes [(1, 0x55)] 1 ACK []).
      - reflexivity.
      - repeat constructor; cbn; lia.
      - repeat constructor; discriminate.
      - cbn. lia.
      - left. reflexivity. }
  - destruct (sync_at_most_15_rounds (mock 10 [Ev 3025 (RdBytes [NACK])]) eq_refl)
      as [_ Hfw].
    destruct (Hfw eq_refl) as (_ & _ & Hans & _).
    destruct (Hans 3025 NACK [] eq_refl) as (k & _ & Hr & Hw).
    + reflexivity.
    + cbn. lia.
    + right. reflexivity.
    + exists k. split; [exact Hr | exact Hw].
  - destruct (sync_at_most_15_rounds (mock 10 []) eq_refl) as [_ Hfw].
    destruct (Hfw eq_refl) as (_ & Hsil & _).
    destruct (Hsil eq_refl) as [Hr Hw].
    split; [exact Hr |]. rewrite Hw. reflexivity.
Defined.

Example sync_immediate_ack :
  let '(r, p') := bsl_sync (mock 10 [reply [0x79]]) in
  r = Ok 0 /\ wire p' = [TxEv [0x7F]; RxEv [0x79]].
Proof. vm_compute. split; reflexivity. Qed.

Example sync_nack_in_round_4 :
  let '(r, p') := bsl_sync (mock 10 [Ev 3025 (RdBytes [0x1F])]) in
  r = Ok 0 /\ rx_of (wire p') = [[]; []; []; [0x1F]].
Proof. vm_compute. split; reflexivity. Qed.

Example sync_never_answered :
  let '(r, p') := bsl_sync (mock 10 []) in
  r = Exit E_no_response /\ length (tx_of (wire p')) = 15%nat.
Proof. vm_compute. split; reflexivity. Qed.

(** C4, the claim as stated fails: a byte that is neither ACK nor NACK in
    round 1 is followed by a second round, and the ACK of that round makes
    [bsl_sync] return 0. *)
Lemma sync_wrong_byte_counterexample :
  let p := mock 10 [reply [0x55]; reply [ACK]] in
  rx_of (wire (snd (bsl_sync p))) = [[0x55]; [ACK]] /\
  fst (bsl_sync p) = Ok 0 /\
  ~ (forall q b, 0 < fd q ->
       In [b] (rx_of (wire (snd (bsl_sync q)))) -> b <> ACK -> b <> NACK ->
       fst (bsl_sync q) = Exit (E_wrong_response b)).
Proof.
  intros p. split; [vm_compute; reflexivity |]. split; [vm_compute; reflexivity |].
  intros H. specialize (H p 0x55).
  assert (Hr : fst (bsl_sync p) = Ok 0) by (vm_compute; reflexivity).
  rewrite Hr in H. discriminate H.
  - reflexivity.
  - vm_compute. left. reflexivity.
  - discriminate.
  - discriminate.
Qed.

(** C4, amended. A received byte that is neither ACK nor NACK ends
    [bsl_sync] with "wrong response" (carrying that byte) only as the reply
    of round 15; in the rounds before it is one more failed round, after
    which SYNCH is written again. Against a target that answers every SYNCH
    in time with one byte (writes accepted): after up to 14 such bytes an ACK
    or NACK still makes [bsl_sync] return 0, and the fifteenth such byte in a
    row stops it with "wrong response". *)
Theorem sync_wrong_byte_only_in_round_15 (p : port) :
  0 < fd p ->
  (exists w,
    wire (snd (bsl_sync p)) = wire p ++ w /\
    (forall b,
        fst (bsl_sync p) = Exit (E_wrong_response b) <->
        (length (rx_of w) = 15%nat /\ nth_error (rx_of w) 14 = Some [b] /\
         b <> ACK /\ b <> NACK /\
         forall k r, nth_error (rx_of w) k = Some r -> r <> [ACK] /\ r <> [NACK])) /\
    (forall k b,
        (k < 14)%nat -> nth_error (rx_of w) k = Some [b] -> b <> ACK -> b <> NACK ->
        (k + 1 < length (tx_of w))%nat)) /\
  (forall rs w b l,
     wr p = [] ->
     line p = byte_replies (rs ++ [(w, b)]) ++ l ->
     in_time (timeout_ms p) (rs ++ [(w, b)]) ->
     Forall wrong_byte (map snd rs) ->
     ((length rs < 15)%nat -> b = ACK \/ b = NACK ->
      fst (bsl_sync p) = Ok 0 /\
      wire (snd (bsl_sync p)) =
        wire p ++ rounds (map (fun x => [x]) (map snd rs ++ [b]))) /\
     (length rs = 14%nat -> wrong_byte b ->
      fst (bsl_sync p) = Exit (E_wrong_response b) /\
      wire (snd (bsl_sync p)) =
        wire p ++ rounds (map (fun x => [x]) (map snd rs ++ [b])))).
Proof.
  intros Ho. split.
  { destruct (bsl_sync p) as [res p'] eqn:E. cbn [fst snd].
    apply bsl_sync_run in E; [| exact Ho].
    destruct E as [rs p' Hall Hlen Hw | rs r p' Hall Hlen Hg Hw
                  | rs p' Hall Hlen Hw | rs b0 p' Hall Hlen Hg Hw].
    - exists (rounds rs ++ [TxEv []]).
      rewrite tx_of_refused, rx_of_refused.
      split; [exact Hw |]. split.
      + intros b. split; [discriminate | intros [H _]; lia].
      + intros k b Hk Hn _ _. rewrite length_app, repeat_length. simpl.
        assert (k < length rs)%nat by (apply nth_error_Some; congruence). lia.
    - exists (rounds (rs ++ [r])).
      rewrite tx_of_rounds, rx_of_rounds.
      split; [exact Hw |]. split.
      + intros b. split; [discriminate |].
        intros (_ & _ & _ & _ & H). exfalso.
        assert (Hk : nth_error (rs ++ [r]) (length rs) = Some r)
          by (rewrite nth_error_app2, Nat.sub_diag by lia; reflexivity).
        apply H in Hk. apply good_reply_iff in Hg. destruct Hk. destruct Hg; contradiction.
      + intros k b Hk Hn Hb1 Hb2. rewrite repeat_length, length_app. simpl.
        apply nth_error_app_last in Hn. destruct Hn as [[Hn _] | [_ Hn]]; [lia |].
        exfalso. subst r. apply good_reply_iff in Hg.
        destruct Hg as [Hg | Hg]; inversion Hg; contradiction.
    - exists (rounds (rs ++ [[]])).
      rewrite tx_of_rounds, rx_of_rounds.
      split; [exact Hw |]. split.
      + intros b. split; [discriminate |].
        intros (_ & H & _). exfalso.
        rewrite nth_error_app2 in H by lia. rewrite Hlen, Nat.sub_diag in H.
        discriminate H.
      + intros k b Hk Hn _ _. rewrite repeat_length, length_app. simpl. lia.
    - exists (rounds (rs ++ [[b0]])).
      rewrite tx_of_rounds, rx_of_rounds.
      assert (H14 : nth_error (rs ++ [[b0]]) 14 = Some [b0])
        by (rewrite nth_error_app2 by lia; rewrite Hlen, Nat.sub_diag; reflexivity).
      split; [exact Hw |]. split.
      + intros b. split.
        * intros H. inversion H; subst b0; clear H.
          split; [rewrite length_app; simpl; lia |].
          split; [exact H14 |].
          destruct (not_good _ Hg) as [Ha Hn].
          split; [intros ->; apply Ha; reflexivity |].
          split; [intros ->; apply Hn; reflexivity |].
          intros k r Hk. apply nth_error_app_last in Hk.
          destruct Hk as [[_ Hk] | [_ ->]].
          -- apply not_good. exact (Forall_nth_error _ _ _ _ Hall Hk).
          -- apply not_good. exact Hg.
        * intros (_ & H & _). rewrite H14 in H. inversion H. reflexivity.
      + intros k b Hk Hn _ _. rewrite repeat_length, length_app. simpl. lia. }
  intros rs w b l Hwr Hl Hin Hwrong. split.
  - (* a later ACK or NACK *)
    intros Hlen Hb.
    assert (Hg : good_reply [b] = true) by (apply good_reply_iff; destruct Hb; subst; auto).
    destruct (bsl_sync_bytes p rs w b l Ho Hwr Hl Hin Hwrong Hlen (or_introl Hg))
      as (p' & Hrun & Hw').
    rewrite Hrun, Hg. split; [reflexivity | exact Hw'].
  - (* the fifteenth byte *)
    intros Hlen Hb.
    assert (Hg : good_reply [b] = false) by (apply good_reply_false_iff; exact Hb).
    destruct (bsl_sync_bytes p rs w b l Ho Hwr Hl Hin Hwrong ltac:(lia) (or_intror Hlen))
      as (p' & Hrun & Hw').
    rewrite Hrun, Hg. split; [reflexivity | exact Hw'].
Qed.

(** Fourteen rounds answered by 0x55 and then an ACK; fifteen rounds
    answered by 0x55. *)
Lemma sync_wrong_byte_only_in_round_15_witness :
  fst (bsl_sync (mock 10 (repeat (reply [0x55]) 14 ++ [reply [ACK]]))) = Ok 0 /\
  fst (bsl_sync (mock 10 (repeat (reply [0x55]) 15))) = Exit (E_wrong_response 0x55) /\
  length (tx_of (wire (snd (bsl_sync (mock 10 (repeat (reply [0x55]) 15)))))) = 15%nat.
Proof.
  split; [| split].
  - destruct (sync_wrong_byte_only_in_round_15
                (mock 10 (repeat (reply [0x55]) 14 ++ [reply [ACK]])) eq_refl) as [_ Hfw].
    destruct (Hfw (repeat (1, 0x55) 14) 1 ACK [] eq_refl eq_refl) as [Hgood _].
    + repeat constructor; cbn; lia.
    + repeat constructor; discriminate.
    + destruct (Hgood ltac:(cbn; lia) (or_introl eq_refl)) as [Hr _]. exact Hr.
  - destruct (sync_wrong_byte_only_in_round_15
                (mock 10 (repeat (reply [0x55]) 15)) eq_refl) as [_ Hfw].
    destruct (Hfw (repeat (1, 0x55) 14) 1 0x55 [] eq_refl eq_refl) as [_ Hbad].
    + repeat constructor; cbn; lia.
    + repeat constructor; discriminate.
    + destruct (Hbad eq_refl) as [Hr _]; [split; discriminate | exact Hr].
  - destruct (sync_wrong_byte_only_in_round_15
                (mock 10 (repeat (reply [0x55]) 15)) eq_refl) as [_ Hfw].
    destruct (Hfw (repeat (1, 0x55) 14) 1 0x55 [] eq_refl eq_refl) as [_ Hbad].
    + repeat constructor; cbn; lia.
    + repeat constructor; discriminate.
    + destruct (Hbad eq_refl) as [_ Hw]; [split; discriminate |].
      rewrite Hw. reflexivity.
Defined.

Example sync_wrong_byte_in_round_15 :
  fst (bsl_sync (mock 10 (repeat (reply [0x55]) 15))) = Exit (E_wrong_response 0x55).
Proof. vm_compute. reflexivity. Qed.

(** ** Which errors a routine can stop with *)

(** One step through a routine that stopped with an error: either this call
    stopped it, which leaves a goal about its error, or a later one did. *)
Ltac exit_step H :=
  apply bind_Exit in H;
  let a := fresh "a" in
  let q := fresh "q" in
  destruct H as [H | (a & q & _ & H)];
  [ first [ apply check_open_Exit in H
          | apply fail_if_Exit in H; destruct H as [H _]
          | apply send_port_Exit in H; contradiction
          | apply receive_port_Exit in H ];
    try (subst; discriminate); try congruence
  | lazymatch type of a with
    | prod _ _ => destruct a
    | _ => idtac
    end ].

Lemma bsl_memCheck_Exit addr p e p' :
  bsl_memCheck addr p = (Exit e, p') -> e <> E_ack_failure 2.
Proof.
  unfold bsl_memCheck. intros H.
  do 10 exit_step H.
  destruct (neq _ ACK).
  - discriminate H.
  - cbv zeta in H. do 5 exit_step H. discriminate H.
Qed.

(** C1, the claim as stated fails: after the ACK of the address
    [bsl_memCheck] goes on with the length frame [00 FF] and reads two bytes,
    the ACK and one byte of data; when that reply stays out it stops with
    "data timeout" instead of answering 1. *)
Lemma memCheck_payload_phase_counterexample :
  let p := mock 10 [reply [ACK]; reply [ACK]; reply [ACK; 0xAA]] in
  fst (bsl_memCheck 0x8000 p) = Ok 1 /\
  wire (snd (bsl_memCheck 0x8000 p)) =
    [TxEv [0x11; 0xEE]; RxEv [0x79]; TxEv [0x00; 0x00; 0x80; 0x00; 0x80]; RxEv [0x79];
     TxEv [0x00; 0xFF]; RxEv [0x79; 0xAA]] /\
  fst (bsl_memCheck 0x8000 (mock 10 [reply [ACK]; reply [ACK]])) = Exit (E_ack_timeout 3) /\
  ~ (forall addr q z q',
        bsl_memCheck addr q = (Ok z, q') ->
        exists b, wire q' = wire q ++
                    [TxEv (cmd_frame READ); RxEv [ACK]; TxEv (addr_frame addr); RxEv [b]]).
Proof.
  intros p. split; [vm_compute; reflexivity |]. split; [vm_compute; reflexivity |].
  split; [vm_compute; reflexivity |].
  intros H.
  destruct (H 0x8000 p 1 (snd (bsl_memCheck 0x8000 p))) as [b Hb].
  - vm_compute. reflexivity.
  - vm_compute in Hb. discriminate Hb.
Qed.

(** [bsl_memCheck] against a target that acknowledges the command in time
    and answers the address in time with a byte other than ACK. *)
Lemma bsl_memCheck_refused addr p w1 w2 b l :
  0 < fd p -> wr p = [] ->
  line p = Ev w1 (RdBytes [ACK]) :: Ev w2 (RdBytes [b]) :: l ->
  w1 <= timeout_ms p -> w2 <= timeout_ms p -> b <> ACK ->
  bsl_memCheck addr p =
  (Ok 0,
   after_round (after_round p (cmd_frame READ) w1 [ACK] (Ev w2 (RdBytes [b]) :: l))
               (addr_frame addr) w2 [b] l).
Proof.
  intros Ho Hwr Hl H1 H2 Hb.
  destruct (after_round_facts p (cmd_frame READ) w1 [ACK] (Ev w2 (RdBytes [b]) :: l) Hwr)
    as (Hf1 & Hwr1 & Hl1 & Ht1 & _).
  unfold bsl_memCheck. unfold bind at 1. rewrite (check_open_pass p) by lia.
  rewrite (dialogue_answered 2 (cmd_frame READ) 1 _ _ _ p w1 [ACK] _ eq_refl eq_refl
             Ho Hwr Hl H1) by discriminate.
  unfold bind at 1. unfold fail_if at 1. cbn [Rx_at nth].
  unfold neq at 1. rewrite Z.eqb_refl. cbn [negb ret].
  rewrite (dialogue_answered 5 (addr_frame addr) 1 _ _ _ _ w2 [b] l eq_refl eq_refl)
    by (try discriminate; try assumption; lia).
  cbn [Rx_at nth]. unfold neq.
  replace (b =? ACK) with false by (symmetry; apply Z.eqb_neq; exact Hb).
  reflexivity.
Qed.

(** [bsl_memCheck] against a target that acknowledges the command and the
    address in time and answers the length frame in time with ACK and one
    byte of data. *)
Lemma bsl_memCheck_granted addr p w1 w2 w3 d l :
  0 < fd p -> wr p = [] ->
  line p = Ev w1 (RdBytes [ACK]) :: Ev w2 (RdBytes [ACK]) :: Ev w3 (RdBytes [ACK; d]) :: l ->
  w1 <= timeout_ms p -> w2 <= timeout_ms p -> w3 <= timeout_ms p ->
  bsl_memCheck addr p =
  (Ok 1,
   after_round
     (after_round
        (after_round p (cmd_frame READ) w1 [ACK]
                     (Ev w2 (RdBytes [ACK]) :: Ev w3 (RdBytes [ACK; d]) :: l))
        (addr_frame addr) w2 [ACK] (Ev w3 (RdBytes [ACK; d]) :: l))
     [0x00; 0xFF] w3 [ACK; d] l).
Proof.
  intros Ho Hwr Hl H1 H2 H3.
  set (l1 := Ev w2 (RdBytes [ACK]) :: Ev w3 (RdBytes [ACK; d]) :: l) in *.
  set (l2 := Ev w3 (RdBytes [ACK; d]) :: l) in *.
  destruct (after_round_facts p (cmd_frame READ) w1 [ACK] l1 Hwr)
    as (Hf1 & Hwr1 & Hl1 & Ht1 & _).
  set (p1 := after_round p (cmd_frame READ) w1 [ACK] l1) in *.
  destruct (after_round_facts p1 (addr_frame addr) w2 [ACK] l2 Hwr1)
    as (Hf2 & Hwr2 & Hl2 & Ht2 & _).
  set (p2 := after_round p1 (addr_frame addr) w2 [ACK] l2) in *.
  unfold bsl_memCheck. unfold bind at 1. rewrite (check_open_pass p) by lia.
  rewrite (dialogue_answered 2 (cmd_frame READ) 1 _ _ _ p w1 [ACK] l1 eq_refl eq_refl
             Ho Hwr Hl H1) by discriminate.
  fold p1. unfold bind at 1. unfold fail_if at 1. cbn [Rx_at nth].
  unfold neq at 1. rewrite Z.eqb_refl. cbn [negb ret].
  rewrite (dialogue_answered 5 (addr_frame addr) 1 _ _ _ p1 w2 [ACK] l2 eq_refl eq_refl)
    by (try discriminate; try assumption; lia).
  fold p2. cbn [Rx_at nth]. unfold neq at 1. rewrite Z.eqb_refl. cbn [negb]. cbv zeta.
  change (u8 (1 - 1)) with 0. change (Z.lxor 0 0xFF) with 0xFF.
  rewrite (dialogue_answered 2 [0x00; 0xFF] 2 _ _ _ p2 w3 [ACK; d] l eq_refl eq_refl)
    by (try discriminate; try assumption; lia).
  unfold bind at 1. unfold fail_if at 1. cbn [Rx_at nth].
  unfold neq. rewrite Z.eqb_refl. reflexivity.
Qed.

(** C1, amended. [bsl_memCheck] sends [READ, ~READ] and the address frame.
    A reply to the address other than ACK makes it return 0, with nothing
    more on the wire, and is never the error "ACK2 failure". After an ACK it
    runs the payload phase of a 1-byte READ: it sends the length frame
    [00 FF], receives ACK and one data byte, and returns 1. Against a target
    that answers in time (port open, writes accepted, read timeout of 100 ms
    or more): when the command is acknowledged and the address is answered
    by a byte other than ACK the result is 0, no length frame is sent and
    what the target sends next stays unread; when command, address and
    length frame are acknowledged the result is 1. *)
Theorem memCheck_phases (addr : Z) (p : port) (r : res Z) (p' : port) :
  bsl_memCheck addr p = (r, p') ->
  ((r = Ok 0 /\ exists b, b <> ACK /\ wire p' = wire p ++ check_refused addr b) \/
   (r = Ok 1 /\ exists d, wire p' = wire p ++ check_granted addr d) \/
   (exists e, r = Exit e /\ e <> E_ack_failure 2)) /\
  (forall w1 w2 b l,
     0 < fd p -> wr p = [] -> 0 < timeout_ms p ->
     line p = Ev w1 (RdBytes [ACK]) :: Ev w2 (RdBytes [b]) :: l ->
     w1 <= timeout_ms p -> w2 <= timeout_ms p -> b <> ACK ->
     r = Ok 0 /\ wire p' = wire p ++ check_refused addr b /\ line p' = l) /\
  (forall w1 w2 w3 d l,
     0 < fd p -> wr p = [] -> 0 < timeout_ms p ->
     line p = Ev w1 (RdBytes [ACK]) :: Ev w2 (RdBytes [ACK]) ::
              Ev w3 (RdBytes [ACK; d]) :: l ->
     w1 <= timeout_ms p -> w2 <= timeout_ms p -> w3 <= timeout_ms p ->
     r = Ok 1 /\ wire p' = wire p ++ check_granted addr d /\ line p' = l).
Proof.
  intros H. split; [| split].
  - destruct r as [z | e].
    + apply bsl_memCheck_Ok in H. destruct H as (_ & _ & _ & [[-> H] | [-> H]]); auto.
    + right. right. exists e. split; [reflexivity |]. eapply bsl_memCheck_Exit. exact H.
  - intros w1 w2 b l Ho Hwr _ Hl H1 H2 Hb.
    rewrite (bsl_memCheck_refused addr p w1 w2 b l Ho Hwr Hl H1 H2 Hb) in H.
    inversion H; subst r p'; clear H.
    split; [reflexivity |].
    unfold after_round. cbn [wire line]. rewrite <- app_assoc.
    split; reflexivity.
  - intros w1 w2 w3 d l Ho Hwr _ Hl H1 H2 H3.
    rewrite (bsl_memCheck_granted addr p w1 w2 w3 d l Ho Hwr Hl H1 H2 H3) in H.
    inversion H; subst r p'; clear H.
    split; [reflexivity |].
    unfold after_round. cbn [wire line]. rewrite <- !app_assoc.
    split; reflexivity.
Qed.

(** A refused probe of [bsl_getInfo] and a granted one. *)
Lemma memCheck_phases_witness :
  let p := mock 10 [reply [ACK]; reply [NACK]; reply [0x55]] in
  let q := mock 10 [reply [ACK]; reply [ACK]; reply [ACK; 0xAA]] in
  (fst (bsl_memCheck 0x027FFF p) = Ok 0 /\
   wire (snd (bsl_memCheck 0x027FFF p)) = check_refused 0x027FFF NACK /\
   line (snd (bsl_memCheck 0x027FFF p)) = [reply [0x55]]) /\
  (fst (bsl_memCheck 0x00FFFF q) = Ok 1 /\
   wire (snd (bsl_memCheck 0x00FFFF q)) = check_granted 0x00FFFF 0xAA /\
   line (snd (bsl_memCheck 0x00FFFF q)) = []).
Proof.
  intros p q. split.
  - destruct (memCheck_phases 0x027FFF p _ _ (surjective_pairing _)) as (_ & Href & _).
    apply (Href 1 1 NACK [reply [0x55]]); try reflexivity; discriminate.
  - destruct (memCheck_phases 0x00FFFF q _ _ (surjective_pairing _)) as (_ & _ & Hgr).
    apply (Hgr 1 1 1 0xAA []); try reflexivity; discriminate.
Defined.

(** ** [bsl_getInfo] *)

Lemma bsl_memCheck_step {B} addr (k : Z -> M B) p (r : res B) p' :
  bind (bsl_memCheck addr) k p = (r, p') ->
  (exists e, r = Exit e /\ e <> E_cannot_identify /\
             bsl_memCheck addr p = (Exit e, p')) \/
  (exists b p1, b <> ACK /\ wire p1 = wire p ++ check_refused addr b /\
                fd p1 = fd p /\ tio p1 = tio p /\
                bsl_memCheck addr p = (Ok 0, p1) /\ k 0 p1 = (r, p')) \/
  (exists d p1, wire p1 = wire p ++ check_granted addr d /\
                fd p1 = fd p /\ tio p1 = tio p /\
                bsl_memCheck addr p = (Ok 1, p1) /\ k 1 p1 = (r, p')).
Proof.
  unfold bind at 1. destruct (bsl_memCheck addr p) as [[z | e] p1] eqn:E; intros H.
  - destruct (bsl_memCheck_Ok _ _ _ _ E) as (Hf & Ht & _ & [[-> (b & Hb & Hw)] | [-> (d & Hw)]]).
    + right. left. exists b, p1. auto 10.
    + right. right. exists d, p1. auto 10.
  - left. inversion H; subst. exists e. split; [reflexivity |]. split; [| reflexivity].
    intros ->. unfold bsl_memCheck in E.
    do 10 exit_step E.
    destruct (neq _ ACK); [discriminate E |].
    cbv zeta in E. do 5 exit_step E. discriminate E.
Qed.

Lemma probe_density_run p r p' :
  probe_density p = (r, p') ->
  (exists fs w, r = Ok fs /\ density_probe w fs /\ wire p' = wire p ++ w /\
                fd p' = fd p /\ tio p' = tio p) \/
  (exists w, r = Exit E_cannot_identify /\ density_unknown w /\ wire p' = wire p ++ w) \/
  (exists e, r = Exit e /\ e <> E_cannot_identify).
Proof.
  unfold probe_density. intros H.
  apply bsl_memCheck_step in H.
  destruct H as [(e & -> & He & _) | [(b1 & p1 & Hb1 & Hw1 & Hf1 & Ht1 & _ & H)
                                     | (d & p1 & Hw1 & Hf1 & Ht1 & _ & H)]];
    [right; right; eauto | | ].
  2:{ cbn in H. inversion H; subst. left. exists 256, (check_granted 0x047FFF d).
      repeat split; auto. constructor. }
  cbn [neq Z.eqb negb] in H.
  apply bsl_memCheck_step in H.
  destruct H as [(e & -> & He & _) | [(b2 & p2 & Hb2 & Hw2 & Hf2 & Ht2 & _ & H)
                                     | (d & p2 & Hw2 & Hf2 & Ht2 & _ & H)]];
    [right; right; eauto | | ].
  2:{ cbn in H. inversion H; subst. left.
      exists 128, (check_refused 0x047FFF b1 ++ check_granted 0x027FFF d).
      repeat split; try congruence; [constructor; assumption |].
      rewrite Hw2, Hw1, <- app_assoc. reflexivity. }
  cbn [neq Z.eqb negb] in H.
  apply bsl_memCheck_step in H.
  destruct H as [(e & -> & He & _) | [(b3 & p3 & Hb3 & Hw3 & Hf3 & Ht3 & _ & H)
                                     | (d & p3 & Hw3 & Hf3 & Ht3 & _ & H)]];
    [right; right; eauto | | ].
  2:{ cbn in H. inversion H; subst. left.
      exists 32, (check_refused 0x047FFF b1 ++ check_refused 0x027FFF b2 ++
                  check_granted 0x00FFFF d).
      repeat split; try congruence; [constructor; assumption |].
      rewrite Hw3, Hw2, Hw1, <- !app_assoc. reflexivity. }
  cbn [neq Z.eqb negb] in H.
  apply bsl_memCheck_step in H.
  destruct H as [(e & -> & He & _) | [(b4 & p4 & Hb4 & Hw4 & Hf4 & Ht4 & _ & H)
                                     | (d & p4 & Hw4 & Hf4 & Ht4 & _ & H)]];
    [right; right; eauto | | ].
  2:{ cbn in H. inversion H; subst. left.
      exists 8, (check_refused 0x047FFF b1 ++ check_refused 0x027FFF b2 ++
                 check_refused 0x00FFFF b3 ++ check_granted 0x009FFF d).
      repeat split; try congruence; [constructor; assumption |].
      rewrite Hw4, Hw3, Hw2, Hw1, <- !app_assoc. reflexivity. }
  cbn in H. inversion H; subst. right. left.
  exists (check_refused 0x047FFF b1 ++ check_refused 0x027FFF b2 ++
          check_refused 0x00FFFF b3 ++ check_refused 0x009FFF b4).
  split; [reflexivity |]. split; [constructor; assumption |].
  rewrite Hw4, Hw3, Hw2, Hw1, <- !app_assoc. reflexivity.
Qed.

Lemma set_timeout_run t p :
  (exists p1, set_timeout t p = (Ok tt, p1) /\ fd p1 = fd p /\ wire p1 = wire p /\
              c_vtime (tio p1) = u8 (t / 100)) \/
  set_timeout t p = (Exit E_get_attributes, p).
Proof.
  unfold set_timeout, tcgetattr, tcsetattr. destruct (0 <? fd p).
  - left. eexists. repeat split.
  - right. reflexivity.
Qed.

(** How [bsl_getInfo] ends. *)
Lemma bsl_getInfo_run p r p' :
  bsl_getInfo p = (r, p') ->
  (exists fs w resp,
      r = Ok (fs, u8 (Rx_at resp 2)) /\ density_probe w fs /\
      wire p' = wire p ++ w ++ [TxEv (cmd_frame GET); RxEv resp] /\
      length resp = 9%nat /\
      Rx_at resp 0 = ACK /\ Rx_at resp 8 = ACK /\
      timeout_ms p' = 1000) \/
  (r = Exit E_cannot_identify /\
   exists w, density_unknown w /\ wire p' = wire p ++ w) \/
  (exists e, r = Exit e /\ e <> E_cannot_identify).
Proof.
  intros H. unfold bsl_getInfo in H.
  unfold bind at 1 in H. unfold check_open, fail_if in H.
  destruct (fd p =? 0).
  { cbn in H. inversion H; subst. right. right. eexists. split; [reflexivity | discriminate]. }
  cbn [ret] in H.
  destruct (flush_port_inv p) as (p0 & Hfl & Hf0 & _ & Hw0).
  unfold bind at 1 in H. rewrite Hfl in H.
  destruct (SLEEP_inv 50 p0) as (p1 & Hsl & Hf1 & _ & Hw1).
  unfold bind at 1 in H. rewrite Hsl in H.
  unfold bind at 1 in H.
  destruct (set_timeout_run 100 p1) as [(p2 & Hst & Hf2 & Hw2 & _) | Hst]; rewrite Hst in H.
  2:{ inversion H; subst. right. right. eexists. split; [reflexivity | discriminate]. }
  unfold bind at 1 in H.
  destruct (probe_density p2) as [rp p3] eqn:Hp.
  apply probe_density_run in Hp.
  destruct Hp as [(fs & w & -> & Hd & Hw3 & Hf3 & Ht3) | [(w & -> & Hd & Hw3) | (e & -> & He)]].
  - unfold bind at 1 in H.
    destruct (set_timeout_run 1000 p3) as [(p4 & Hst4 & Hf4 & Hw4 & Hv4) | Hst4];
      rewrite Hst4 in H.
    2:{ inversion H; subst. right. right. eexists. split; [reflexivity | discriminate]. }
    destruct r as [[fs' v] | e].
    + left.
      apply dialogue_full_Ok in H; [| reflexivity | lia].
      destruct H as (resp & p5 & H & Hw5 & Hl5 & Hf5 & Ht5 & _).
      apply fail_if_bind_Ok in H. destruct H as [Hacks H].
      apply orb_false_iff in Hacks. destruct Hacks as [Ha0 Ha8].
      apply neq_false in Ha0. apply neq_false in Ha8.
      do 5 (apply fail_if_bind_Ok in H; destruct H as [_ H]).
      cbv zeta in H. apply ret_Ok in H. destruct H as [Heq ->].
      inversion Heq; subst fs' v.
      exists fs, w, resp. repeat split; auto.
      * rewrite Hw5, Hw4, Hw3, Hw2, Hw1, Hw0, <- app_assoc. reflexivity.
      * lia.
      * unfold timeout_ms. rewrite Ht5, Hv4. reflexivity.
    + right. right. exists e. split; [reflexivity |].
      do 10 exit_step H. discriminate H.
  - inversion H; subst. right. left. split; [reflexivity |].
    exists w. split; [exact Hd |]. rewrite Hw3, Hw2, Hw1, Hw0. reflexivity.
  - inversion H; subst. right. right. exists e. auto.
Qed.




Example getInfo_nothing_answers_to_probes :
  fst (bsl_getInfo (mock 10 [reply [ACK]; reply [NACK]; reply [ACK]; reply [NACK];
                             reply [ACK]; reply [NACK]; reply [ACK]; reply [NACK]]))
  = Exit E_cannot_identify.
Proof. vm_compute. reflexivity. Qed.

(** After [bsl_getInfo] has returned, the read timeout is the constant of
    its second [set_timeout] call. *)
Lemma getInfo_leaves_timeout_1000 p fs v p' :
  bsl_getInfo p = (Ok (fs, v), p') -> timeout_ms p' = 1000.
Proof.
  intros H. apply bsl_getInfo_run in H.
  destruct H as [(fs' & w & resp & _ & _ & _ & _ & _ & _ & Ht) | [[Heq _] | (e & Heq & _)]];
    try discriminate.
  exact Ht.
Qed.

(** C5, the code at a port whose read timeout was 2000 ms: [bsl_getInfo]
    identifies the device and leaves the timeout at 1000 ms, the constant of
    its second [set_timeout] call, not at the 2000 ms it found. *)
Theorem getInfo_timeout_not_restored :
  let p := mock 20 target_32k in
  timeout_ms p = 2000 /\
  fst (bsl_getInfo p) = Ok (32, 0x12) /\
  timeout_ms (snd (bsl_getInfo p)) = 1000.
Proof. vm_compute. repeat split; reflexivity. Qed.

(** ** [bsl_flashErase] *)

Lemma bsl_flashErase_Ok addr p z p' :
  bsl_flashErase addr p = (Ok z, p') ->
  z = 0 /\
  wire p' = wire p ++
    [TxEv [ERASE; Z.lxor ERASE 0xFF]; RxEv [ACK];
     TxEv [0x00; sector_code addr; Z.lxor 0x00 (sector_code addr)]; RxEv [ACK]].
Proof.
  unfold bsl_flashErase. cbv zeta. intros H.
  apply check_open_Ok in H. destruct H as [_ H].
  apply dialogue_full_Ok in H; [| reflexivity | lia].
  destruct H as (Rx1 & p1 & H & Hw1 & Hl1 & _).
  apply length1 in Hl1. destruct Hl1 as [a1 ->].
  apply fail_if_bind_Ok in H. destruct H as [Ha1 H].
  apply neq_false in Ha1. cbn in Ha1. subst a1.
  apply dialogue_full_Ok in H; [| reflexivity | lia].
  destruct H as (Rx2 & p2 & H & Hw2 & Hl2 & _).
  apply length1 in Hl2. destruct Hl2 as [a2 ->].
  apply fail_if_bind_Ok in H. destruct H as [Ha2 H].
  apply neq_false in Ha2. cbn in Ha2. subst a2.
  apply ret_Ok in H. destruct H as [<- ->].
  split; [reflexivity |].
  rewrite Hw2, Hw1, <- app_assoc. reflexivity.
Qed.

Lemma sector_code_in_flash addr :
  0x8000 <= addr < 0x48000 -> sector_code addr = (addr - 0x8000) / 1024.
Proof.
  intros Ha. unfold sector_code, u8, u32.
  rewrite (Z.mod_small (addr - 0x8000)) by lia.
  apply Z.mod_small. split.
  - apply Z.div_pos; lia.
  - apply Z.div_lt_upper_bound; lia.
Qed.

(** C9. [bsl_flashErase] computes the sector code [(addr - 0x8000) / 1024]
    in 8 bits and, when it returns, has sent exactly the two frames
    [ERASE, ERASE ^ 0xFF] and [00, sector, 00 ^ sector], each answered by
    ACK; for 0x8C00 the sector code is 3 and the second frame is 00 03 03. *)
Theorem flashErase_frames (addr : Z) (p : port) (z : Z) (p' : port) :
  bsl_flashErase addr p = (Ok z, p') ->
  z = 0 /\
  sector_code addr = ((addr - 0x8000) mod 2 ^ 32 / 1024) mod 2 ^ 8 /\
  (0x8000 <= addr < 0x48000 -> sector_code addr = (addr - 0x8000) / 1024) /\
  wire p' = wire p ++
    [TxEv [ERASE; Z.lxor ERASE 0xFF]; RxEv [ACK];
     TxEv [0x00; sector_code addr; Z.lxor 0x00 (sector_code addr)]; RxEv [ACK]] /\
  sector_code 0x8C00 = 3 /\
  [0x00; sector_code 0x8C00; Z.lxor 0x00 (sector_code 0x8C00)] = [0x00; 0x03; 0x03].
Proof.
  intros H. apply bsl_flashErase_Ok in H. destruct H as [Hz Hw].
  split; [exact Hz |]. split; [reflexivity |].
  split; [apply sector_code_in_flash |]. split; [exact Hw |].
  split; reflexivity.
Qed.

(** Scenario 6 of the specification: erase the sector that holds 0x8C00. *)
Lemma flashErase_frames_witness :
  let p := mock 10 [reply [ACK]; reply [ACK]] in
  let p' := snd (bsl_flashErase 0x8C00 p) in
  wire p' = [TxEv [0x43; 0xBC]; RxEv [0x79]; TxEv [0x00; 0x03; 0x03]; RxEv [0x79]].
Proof.
  intros p p'.
  destruct (flashErase_frames 0x8C00 p 0 p') as (_ & _ & _ & Hw & _).
  - vm_compute. reflexivity.
  - rewrite Hw. vm_compute. reflexivity.
Defined.

(** ** [bsl_memRead] and [bsl_memWrite] of nothing *)

Lemma memRead_loop_empty fuel addrStart addrStep idx buf p :
  0 <= addrStart < 4294967296 ->
  memRead_loop fuel addrStart 0 addrStart addrStep idx buf p = (Ok buf, p).
Proof.
  intros Ha.
  assert (Hc : negb (addrStart <? u32 (addrStart + 0)) = true).
  { rewrite Z.add_0_r, u32_small by exact Ha. rewrite Z.ltb_irrefl. reflexivity. }
  destruct fuel; simpl; rewrite Hc; reflexivity.
Qed.

Lemma memWrite_loop_empty fuel addrStart addrStep idx buf p :
  0 <= addrStart < 4294967296 ->
  memWrite_loop fuel addrStart 0 addrStart addrStep idx buf p = (Ok tt, p).
Proof.
  intros Ha.
  assert (Hc : negb (addrStart <? u32 (addrStart + 0)) = true).
  { rewrite Z.add_0_r, u32_small by exact Ha. rewrite Z.ltb_irrefl. reflexivity. }
  destruct fuel; simpl; rewrite Hc; reflexivity.
Qed.

(** C10. On an open port, [bsl_memRead] and [bsl_memWrite] with
    [numBytes = 0] return 0 at once: the port is left exactly as it was, so
    no frame is sent and no byte is received, and [bsl_memRead] leaves the
    buffer as it found it. This holds whatever the fuel. *)
Theorem zero_bytes_no_traffic (fuel : nat) (addrStart : Z) (buf : list Z)
        (verbose : Z) (p : port) :
  fd p <> 0 ->
  0 <= addrStart < 2 ^ 32 ->
  bsl_memRead fuel addrStart 0 buf p = (Ok buf, p) /\
  bsl_memWrite fuel addrStart 0 buf verbose p = (Ok 0, p).
Proof.
  intros Ho Ha. change (2 ^ 32) with 4294967296 in Ha. split.
  - unfold bsl_memRead. unfold bind. rewrite (check_open_pass p Ho).
    cbn [Z.to_nat zero_fill]. apply memRead_loop_empty. exact Ha.
  - unfold bsl_memWrite. unfold bind. rewrite (check_open_pass p Ho).
    rewrite (memWrite_loop_empty _ _ _ _ _ _ Ha). reflexivity.
Qed.

Lemma zero_bytes_no_traffic_witness :
  let p := mock 10 [reply [ACK]] in
  bsl_memRead 0 0x8000 0 [0xAA; 0xBB] p = (Ok [0xAA; 0xBB], p) /\
  bsl_memWrite 0 0x8000 0 [0xAA; 0xBB] 1 p = (Ok 0, p).
Proof.
  intros p. apply (zero_bytes_no_traffic 0 0x8000 [0xAA; 0xBB] 1 p).
  - discriminate.
  - split; [discriminate | reflexivity].
Defined.

(** ** [bsl_memWrite] *)

(** One round of the dialogue, whatever its outcome. *)
Lemma dialogue_run {B} n f m e1 e2 (K : Z -> list Z -> M B) p (r : res B) p' :
  n = Z.of_nat (length f) -> 0 <= m ->
  bind (send_port n f)
       (fun len => bind (fail_if (neq len n) e1)
          (fun _ => bind (receive_port m)
             (fun x => match x with
                       | (len, Rx) => bind (fail_if (neq len m) e2) (fun _ => K len Rx)
                       end))) p = (r, p') ->
  (exists e, r = Exit e /\ (e = e1 \/ e = e2 \/ e = E_get_attributes)) \/
  (exists Rx p1,
      K m Rx p1 = (r, p') /\
      wire p1 = wire p ++ [TxEv f; RxEv Rx] /\
      Z.of_nat (length Rx) = m /\ fd p1 = fd p /\ tio p1 = tio p).
Proof.
  intros Hn Hm H.
  unfold bind at 1 in H.
  destruct (send_port_total n f p) as (len0 & p0 & Hs). rewrite Hs in H.
  unfold bind at 1 in H. unfold fail_if in H.
  destruct (neq len0 n) eqn:Hc.
  { cbn in H. inversion H; subst. left. eauto. }
  cbn [ret] in H.
  destruct (send_port_full _ _ _ _ _ Hs Hc Hn) as (Hf0 & Ht0 & Hw0).
  unfold bind at 1 in H.
  destruct (receive_port m p0) as [[[len Rx] | e] p1] eqn:Hr.
  2:{ apply receive_port_Exit in Hr. inversion H; subst. left. eauto. }
  destruct (receive_port_inv _ _ _ _ _ Hm Hr) as (_ & Hf1 & Ht1 & _ & Hw1 & Hl & _).
  unfold bind at 1 in H.
  destruct (neq len m) eqn:Hc2.
  { cbn in H. inversion H; subst. left. eauto. }
  cbn [ret] in H. apply neq_false in Hc2. subst len.
  right. exists Rx, p1. repeat split; auto; try congruence.
  rewrite Hw1, Hw0, <- app_assoc. reflexivity.
Qed.

Lemma u8_byte b : is_byte b -> u8 b = b.
Proof. intros H. unfold u8. apply Z.mod_small. exact H. Qed.

Lemma lxor_byte a b : is_byte a -> is_byte b -> is_byte (Z.lxor a b).
Proof.
  unfold is_byte. intros Ha Hb.
  assert (Hnn : 0 <= Z.lxor a b) by (apply Z.lxor_nonneg; lia).
  split; [exact Hnn |].
  destruct (Z.eq_dec (Z.lxor a b) 0) as [-> | Hz]; [lia |].
  change 256 with (2 ^ 8).
  apply Z.log2_lt_pow2; [lia |].
  pose proof (Z.log2_lxor a b ltac:(lia) ltac:(lia)) as Hl.
  assert (Z.log2 a < 8).
  { destruct (Z.eq_dec a 0) as [-> | ?]; [simpl; lia |].
    apply Z.log2_lt_pow2; [lia |]. change (2 ^ 8) with 256. lia. }
  assert (Z.log2 b < 8).
  { destruct (Z.eq_dec b 0) as [-> | ?]; [simpl; lia |].
    apply Z.log2_lt_pow2; [lia |]. change (2 ^ 8) with 256. lia. }
  lia.
Qed.



Lemma fail_if_bind_run {B} cond e (k : unit -> M B) p (r : res B) p' :
  bind (fail_if cond e) k p = (r, p') ->
  (cond = true /\ r = Exit e) \/ (cond = false /\ k tt p = (r, p')).
Proof.
  unfold bind, fail_if. destruct cond; cbn; intros H.
  - left. inversion H. auto.
  - right. auto.
Qed.

Lemma u8_is_byte x : is_byte (u8 x).
Proof. unfold is_byte, u8. apply Z.mod_pos_bound. lia. Qed.







Section WriteLoop.
Variable addrStart : Z.
Variable buf : list Z.
Let n : nat := length buf.
Hypothesis start_pos : 0 <= addrStart.
Hypothesis no_wrap : addrStart + Z.of_nat n + 128 <= 4294967296.
Hypothesis bytes : Forall is_byte buf.



End WriteLoop.







(** ** [receive_port] and its timeout *)








Example receive_gives_up_after_a_silent_second :
  let p := mock 10 [Ev 900 (RdBytes [0x01]); Ev 1200 (RdBytes [0x02])] in
  fst (receive_port 2 p) = Ok (1, [0x01]) /\
  sys (snd (receive_port 2 p)) =
    [SysSelect 1000 900 1; SysRead 2 1; SysSelect 1000 1000 0] /\
  now (snd (receive_port 2 p)) = 1900.
Proof. vm_compute. repeat split; reflexivity. Qed.

(** ** Port attributes read back *)

Section AttributesReadBack.
Context {K : termios_h}.
Hypothesis CSTOPB_bit : CSTOPB <> 0.
Hypothesis RTS_bit : TIOCM_RTS <> 0.
Hypothesis DTR_bit : TIOCM_DTR <> 0.

Lemma lor_bit_nonzero x c : c <> 0 -> neq (Z.lor x c) 0 = true.
Proof.
  intros Hc. unfold neq. apply negb_true_iff. apply Z.eqb_neq.
  intros H. apply Z.lor_eq_0_iff in H. tauto.
Qed.

(** Whatever the port was set to, [get_port_attribute] reports two stop
    bits and RTS = DTR = 1: its tests are [flags | BIT]. *)
Lemma get_port_attribute_fixed_answers p a p' :
  get_port_attribute p = (Ok a, p') ->
  numStop a = 2 /\ RTS a = 1 /\ DTR a = 1.
Proof.
  unfold get_port_attribute. destruct (tcgetattr p); [| discriminate].
  rewrite !lor_bit_nonzero by assumption.
  intros H. inversion H; subst. cbn. auto.
Qed.

End AttributesReadBack.

(** C2, the code at one stop bit with RTS and DTR low (Linux constants):
    after [set_port_attribute] the read-back reports two stop bits,
    RTS = DTR = 1 and seven data bits instead of the values just set. *)
Theorem set_then_get_attributes_differ :
  let a := mkAttr 9600 1000 8 0 1 0 0 in
  let p := mock 10 [] in
  fst ((set_port_attribute a ;;; get_port_attribute) p)
  = Ok (mkAttr 9600 1000 7 0 2 1 1) /\
  fst ((set_port_attribute a ;;; get_port_attribute) p) <> Ok a.
Proof. vm_compute. split; [reflexivity | discriminate]. Qed.

Example stop_bits_and_lines_never_read_back :
  forall p a p',
    get_port_attribute p = (Ok a, p') -> numStop a = 2 /\ RTS a = 1 /\ DTR a = 1.
Proof.
  intros p a p'. apply get_port_attribute_fixed_answers; discriminate.
Qed.

(** * Further properties of the routines *)

(** ** Frames *)

(** The 32-bit value of four big-endian bytes. *)
Definition be32 (b0 b1 b2 b3 : Z) : Z := ((b0 * 256 + b1) * 256 + b2) * 256 + b3.

Lemma lxor_self_cancel a b c d :
  Z.lxor (Z.lxor (Z.lxor (Z.lxor a b) c) d) (Z.lxor (Z.lxor (Z.lxor a b) c) d) = 0.
Proof. apply Z.lxor_nilpotent. Qed.

(** X1. The address frame of a 32-bit address is five bytes: the address in
    big-endian order, from which it is recovered, and a checksum that makes
    the XOR of the whole frame zero. *)
Theorem addr_frame_round_trip (addr : Z) :
  0 <= addr < 2 ^ 32 ->
  exists b0 b1 b2 b3 chk,
    addr_frame addr = [b0; b1; b2; b3; chk] /\
    is_byte b0 /\ is_byte b1 /\ is_byte b2 /\ is_byte b3 /\ is_byte chk /\
    be32 b0 b1 b2 b3 = addr /\
    fold_left Z.lxor (addr_frame addr) 0 = 0.
Proof.
  intros Ha. change (2 ^ 32) with 4294967296 in Ha.
  unfold addr_frame.
  set (b0 := u8 (Z.shiftr addr 24)). set (b1 := u8 (Z.shiftr addr 16)).
  set (b2 := u8 (Z.shiftr addr 8)). set (b3 := u8 addr).
  assert (H0 : is_byte b0) by apply u8_is_byte.
  assert (H1 : is_byte b1) by apply u8_is_byte.
  assert (H2 : is_byte b2) by apply u8_is_byte.
  assert (H3 : is_byte b3) by apply u8_is_byte.
  exists b0, b1, b2, b3, (Z.lxor (Z.lxor (Z.lxor b0 b1) b2) b3).
  split; [reflexivity |].
  repeat (split; [assumption |]).
  split; [auto using lxor_byte |].
  split.
  - subst b0 b1 b2 b3. unfold be32, u8.
    rewrite !Z.shiftr_div_pow2 by lia.
    change (2 ^ 24) with (256 * 256 * 256). change (2 ^ 16) with (256 * 256).
    change (2 ^ 8) with 256.
    rewrite <- !Z.div_div by lia.
    set (q1 := addr / 256). set (q2 := q1 / 256). set (q3 := q2 / 256).
    pose proof (Z.div_mod addr 256 ltac:(lia)) as E1. fold q1 in E1.
    pose proof (Z.div_mod q1 256 ltac:(lia)) as E2. fold q2 in E2.
    pose proof (Z.div_mod q2 256 ltac:(lia)) as E3. fold q3 in E3.
    pose proof (Z.mod_pos_bound addr 256 ltac:(lia)).
    pose proof (Z.mod_pos_bound q1 256 ltac:(lia)).
    pose proof (Z.mod_pos_bound q2 256 ltac:(lia)).
    assert (0 <= q3 < 256) by lia.
    rewrite (Z.mod_small q3) by assumption. lia.
  - cbn [fold_left]. rewrite Z.lxor_0_l. apply lxor_self_cancel.
Qed.

Lemma addr_frame_round_trip_witness :
  exists b0 b1 b2 b3 chk,
    addr_frame 0x047FFF = [b0; b1; b2; b3; chk] /\
    is_byte b0 /\ is_byte b1 /\ is_byte b2 /\ is_byte b3 /\ is_byte chk /\
    be32 b0 b1 b2 b3 = 0x047FFF /\
    fold_left Z.lxor (addr_frame 0x047FFF) 0 = 0.
Proof.
  apply (addr_frame_round_trip 0x047FFF). split; [discriminate | reflexivity].
Defined.

Lemma byte_cases (P : Z -> Prop) :
  (forall n, (n < 256)%nat -> P (Z.of_nat n)) -> forall c, is_byte c -> P c.
Proof.
  intros H c Hc. unfold is_byte in Hc.
  replace c with (Z.of_nat (Z.to_nat c)) by lia. apply H. lia.
Qed.

Lemma lxor_255 c : is_byte c -> Z.lxor c 0xFF = 255 - c.
Proof.
  revert c. apply byte_cases. intros n Hn.
  assert (Hall : forallb (fun k => Z.lxor (Z.of_nat k) 0xFF =? 255 - Z.of_nat k)
                         (seq 0 256) = true) by (vm_compute; reflexivity).
  rewrite forallb_forall in Hall.
  apply Z.eqb_eq. apply Hall. apply in_seq. lia.
Qed.

(** X2. The command frame of an opcode byte is the opcode followed by its
    8-bit complement: the second byte is again a byte, differs from the
    opcode, and the two XOR to 0xFF. *)
Theorem cmd_frame_complement (c : Z) :
  is_byte c ->
  cmd_frame c = [c; 255 - c] /\ is_byte (255 - c) /\ 255 - c <> c /\
  fold_left Z.lxor (cmd_frame c) 0 = 0xFF.
Proof.
  intros Hc. unfold cmd_frame. rewrite (lxor_255 c Hc).
  split; [reflexivity |]. split; [unfold is_byte in *; lia |].
  split; [unfold is_byte in *; lia |].
  cbn [fold_left]. rewrite Z.lxor_0_l, <- (lxor_255 c Hc).
  rewrite <- Z.lxor_assoc, Z.lxor_nilpotent. reflexivity.
Qed.

Lemma cmd_frame_complement_witness :
  cmd_frame ERASE = [ERASE; 255 - ERASE] /\ is_byte (255 - ERASE) /\
  255 - ERASE <> ERASE /\ fold_left Z.lxor (cmd_frame ERASE) 0 = 0xFF.
Proof.
  apply (cmd_frame_complement ERASE). split; [discriminate | reflexivity].
Defined.

(** ** Sector codes *)

(** X3. Every address of the 1 KiB sector number [k] of the flash, which
    starts at 0x8000, has the sector code [k] (for the 256 sectors the 8-bit
    code can name). *)
Theorem sector_code_of_sector (k addr : Z) :
  0 <= k < 256 ->
  0x8000 + 1024 * k <= addr < 0x8000 + 1024 * (k + 1) ->
  sector_code addr = k.
Proof.
  intros Hk Ha. rewrite sector_code_in_flash by lia.
  symmetry. apply (Z.div_unique (addr - 0x8000) 1024 k (addr - 0x8000 - 1024 * k)); lia.
Qed.

Lemma sector_code_of_sector_witness : sector_code 0x8FFF = 3.
Proof. apply (sector_code_of_sector 3 0x8FFF); lia. Defined.

(** X4. [bsl_flashErase] checks no range: the code is cut to 8 bits, so two
    addresses 256 KiB apart get the same sector code, and an address below
    the start of the flash gets the code of one of the sectors 224 to 255. *)
Theorem sector_code_wraps (addr : Z) :
  (0x8000 <= addr -> addr + 0x40000 < 2 ^ 32 ->
   sector_code (addr + 0x40000) = sector_code addr) /\
  (0 <= addr < 0x8000 -> sector_code addr = 224 + addr / 1024).
Proof.
  change (2 ^ 32) with 4294967296. unfold sector_code, u8, u32. split.
  - intros H1 H2.
    rewrite (Z.mod_small (addr + 0x40000 - 0x8000)) by lia.
    rewrite (Z.mod_small (addr - 0x8000)) by lia.
    replace (addr + 0x40000 - 0x8000) with (addr - 0x8000 + 256 * 1024) by lia.
    rewrite Z.div_add by lia. apply (Z_mod_plus_full _ 1 256).
  - intros H.
    replace ((addr - 0x8000) mod 4294967296) with (addr + 4194272 * 1024).
    2:{ apply (Z.mod_unique (addr - 0x8000) 4294967296 (-1)); lia. }
    rewrite Z.div_add by lia.
    assert (0 <= addr / 1024 < 32).
    { split; [apply Z.div_pos; lia | apply Z.div_lt_upper_bound; lia]. }
    replace (addr / 1024 + 4194272) with (224 + addr / 1024 + 16383 * 256) by lia.
    rewrite Z_mod_plus_full. apply Z.mod_small. lia.
Qed.

Lemma sector_code_wraps_witness :
  sector_code (0x8C00 + 0x40000) = sector_code 0x8C00 /\ sector_code 0x0400 = 225.
Proof.
  destruct (sector_code_wraps 0x8C00) as [H _].
  destruct (sector_code_wraps 0x0400) as [_ H'].
  split; [apply H; [discriminate | reflexivity] |].
  apply H'. split; [discriminate | reflexivity].
Defined.

(** ** Timeout and port attributes *)

(** X5. On an open port [set_timeout] stores the timeout in tenths of a
    second in an 8-bit field: the timeout read back is 100 * ((t / 100) mod
    256) ms. A multiple of 100 up to 25500 is kept, a timeout below 100 ms
    becomes 0, and nothing else of the port changes except VMIN, set to
    255. *)
Theorem set_timeout_granularity (t : Z) (p : port) :
  0 < fd p ->
  exists p',
    set_timeout t p = (Ok tt, p') /\
    timeout_ms p' = 100 * ((t / 100) mod 256) /\
    (t mod 100 = 0 -> 0 <= t <= 25500 -> timeout_ms p' = t) /\
    (0 <= t < 100 -> timeout_ms p' = 0) /\
    0 <= timeout_ms p' <= 25500 /\
    c_vmin (tio p') = 255 /\
    c_iflag (tio p') = c_iflag (tio p) /\ c_oflag (tio p') = c_oflag (tio p) /\
    c_cflag (tio p') = c_cflag (tio p) /\ c_lflag (tio p') = c_lflag (tio p) /\
    c_ospeed (tio p') = c_ospeed (tio p) /\ c_ispeed (tio p') = c_ispeed (tio p) /\
    fd p' = fd p /\ modem p' = modem p /\ line p' = line p /\ wire p' = wire p.
Proof.
  intros Ho. unfold set_timeout, tcgetattr, tcsetattr.
  replace (0 <? fd p) with true by (symmetry; lia).
  eexists. split; [reflexivity |].
  unfold timeout_ms, with_tio, u8.
  cbn [tio c_vtime c_vmin c_iflag c_oflag c_cflag c_lflag c_ospeed c_ispeed
       fd modem line wire].
  pose proof (Z.mod_pos_bound (t / 100) 256 ltac:(lia)) as Hb.
  split; [lia |]. split; [| split; [| split; [lia | repeat split]]].
  - intros Hm Ht.
    pose proof (Z.div_mod t 100 ltac:(lia)) as Hd.
    assert (0 <= t / 100 < 256).
    { split; [apply Z.div_pos; lia | apply Z.div_lt_upper_bound; lia]. }
    rewrite Z.mod_small by assumption. lia.
  - intros Ht. rewrite (Z.div_small t 100) by lia. reflexivity.
Qed.

Lemma set_timeout_granularity_witness :
  exists p',
    set_timeout 1050 (mock 10 []) = (Ok tt, p') /\ timeout_ms p' = 1000.
Proof.
  destruct (set_timeout_granularity 1050 (mock 10 [])) as (p' & H & Ht & _).
  - reflexivity.
  - exists p'. split; [exact H |]. rewrite Ht. reflexivity.
Defined.

(** *** Bits *)

Ltac bitwise :=
  apply Z.bits_inj'; intros ? ?;
  repeat first [ rewrite Z.land_spec | rewrite Z.lor_spec
               | rewrite Z.lnot_spec by assumption | rewrite Z.bits_0 ].

Lemma land_bits_0 a b n : Z.land a b = 0 -> Z.testbit a n && Z.testbit b n = false.
Proof. intros H. rewrite <- Z.land_spec, H. apply Z.bits_0. Qed.

(** Bits that were cleared are zero. *)
Lemma clear_bits_land x m a :
  Z.land a m = a -> Z.land (Z.land x (Z.lnot m)) a = 0.
Proof.
  intros Hs. rewrite <- Hs. bitwise.
  destruct (Z.testbit x n), (Z.testbit m n), (Z.testbit a n); reflexivity.
Qed.

Lemma clear_bits_self x m : Z.land (Z.land x (Z.lnot m)) m = 0.
Proof. apply clear_bits_land. apply Z.land_diag. Qed.

(** Clearing or setting other bits does not touch the bits of [a]. *)
Lemma clear_bits_other x m a :
  Z.land m a = 0 -> Z.land (Z.land x (Z.lnot m)) a = Z.land x a.
Proof.
  intros Hd. bitwise. pose proof (land_bits_0 _ _ n Hd).
  destruct (Z.testbit x n), (Z.testbit m n), (Z.testbit a n); auto.
Qed.

Lemma set_bits_other x m a :
  Z.land m a = 0 -> Z.land (Z.lor x m) a = Z.land x a.
Proof.
  intros Hd. bitwise. pose proof (land_bits_0 _ _ n Hd).
  destruct (Z.testbit x n), (Z.testbit m n), (Z.testbit a n); auto.
Qed.

Lemma set_bits_self x m : Z.land (Z.lor x m) m = m.
Proof.
  bitwise. destruct (Z.testbit x n), (Z.testbit m n); reflexivity.
Qed.

Lemma land_lor_0 a b c : Z.land (Z.lor a b) c = 0 <-> Z.land a c = 0 /\ Z.land b c = 0.
Proof.
  rewrite Z.land_lor_distr_l. apply Z.lor_eq_0_iff.
Qed.

Lemma clear_bits_keeps_zero y m a :
  Z.land y a = 0 -> Z.land (Z.land y (Z.lnot m)) a = 0.
Proof.
  intros H. bitwise. pose proof (land_bits_0 _ _ n H).
  destruct (Z.testbit y n), (Z.testbit m n), (Z.testbit a n); auto.
Qed.

Lemma land_subset_zero x m a :
  Z.land x m = 0 -> Z.land a m = a -> Z.land x a = 0.
Proof.
  intros H Hs. rewrite <- Hs. bitwise. pose proof (land_bits_0 _ _ n H).
  destruct (Z.testbit x n), (Z.testbit m n), (Z.testbit a n); auto.
Qed.

Section AttributeProperties.
Context {K : termios_h}.

(** The speed constants of the platform and the rates the [switch]
    statements know there. *)
Definition opt_speed (o : option Z) : list Z :=
  match o with
  | Some c => [c]
  | None => []
  end.

Definition speed_constants : list Z :=
  [B4800; B9600] ++ opt_speed B14400 ++ [B19200] ++ opt_speed B28800 ++
  [B38400; B57600; B115200].

Definition supported_baudrates : list Z :=
  [4800; 9600] ++ match B14400 with Some _ => [14400] | None => [] end ++
  [19200] ++ match B28800 with Some _ => [28800] | None => [] end ++
  [38400; 57600; 115200].

Ltac split_nodup H :=
  repeat (apply NoDup_cons_iff in H;
          let Hn := fresh "Hn" in destruct H as [Hn H]; simpl In in Hn).

Ltac decide_tests :=
  repeat match goal with
         | |- context [?x =? ?y] =>
             destruct (Z.eqb_spec x y);
             [ try (exfalso; intuition congruence) | try congruence ]
         end.

Lemma baudrate_round_trip b :
  NoDup speed_constants -> In b supported_baudrates ->
  baudrate_of (brate_of b) = b.
Proof.
  unfold speed_constants, supported_baudrates, brate_of, baudrate_of, is_case.
  intros Hnd Hin.
  destruct B14400 as [c14 |], B28800 as [c28 |]; simpl in Hnd, Hin;
    split_nodup Hnd;
    repeat (destruct Hin as [<- | Hin]; [cbn; decide_tests; reflexivity |]);
    contradiction.
Qed.

(** X6. On an open port, [set_baudrate] with one of the rates of its
    [switch] is read back by [get_port_attribute] as that rate (the speed
    constants of the platform being distinct); flags, timeout and modem
    lines are as before. *)
Theorem set_baudrate_read_back (b : Z) (p : port) :
  NoDup speed_constants -> In b supported_baudrates -> 0 < fd p ->
  exists p' a,
    set_baudrate b p = (Ok tt, p') /\
    get_port_attribute p' = (Ok a, p') /\
    baudrate a = b /\ timeout a = timeout_ms p /\
    c_cflag (tio p') = c_cflag (tio p) /\ c_iflag (tio p') = c_iflag (tio p) /\
    c_oflag (tio p') = c_oflag (tio p) /\ c_lflag (tio p') = c_lflag (tio p) /\
    c_vmin (tio p') = c_vmin (tio p) /\ modem p' = modem p /\
    line p' = line p /\ wire p' = wire p.
Proof.
  intros Hnd Hin Ho.
  unfold set_baudrate, get_port_attribute, tcgetattr, tcsetattr.
  replace (0 <? fd p) with true by (symmetry; lia).
  eexists. eexists. split; [reflexivity |].
  unfold with_tio. cbn [fd tio modem c_ospeed c_vtime c_cflag c_iflag c_oflag c_lflag
                        c_vmin line wire].
  replace (0 <? fd p) with true by (symmetry; lia).
  split; [reflexivity |].
  cbn [baudrate timeout]. split; [apply baudrate_round_trip; assumption |].
  repeat split.
Qed.

(** X7. On an open port, [set_port_attribute] followed by
    [get_port_attribute] gives back the baud rate, when it is one of the
    rates of the [switch], and the timeout rounded down to tenths of a
    second in 8 bits; VMIN is 255 and nothing is sent or consumed. *)
Theorem set_port_attribute_baud_and_timeout (a : attributes) (p : port) :
  NoDup speed_constants -> 0 < fd p ->
  exists p' g,
    set_port_attribute a p = (Ok tt, p') /\
    get_port_attribute p' = (Ok g, p') /\
    (In (baudrate a) supported_baudrates -> baudrate g = baudrate a) /\
    timeout g = 100 * ((timeout a / 100) mod 256) /\
    (timeout a mod 100 = 0 -> 0 <= timeout a <= 25500 -> timeout g = timeout a) /\
    c_vmin (tio p') = 255 /\ fd p' = fd p /\ line p' = line p /\ wire p' = wire p.
Proof.
  intros Hnd Ho.
  unfold set_port_attribute, set_modem_lines, get_port_attribute, tcgetattr, tcsetattr.
  replace (0 <? fd p) with true by (symmetry; lia).
  unfold with_tio, with_modem. cbn [fd tio modem].
  replace (0 <? fd p) with true by (symmetry; lia).
  eexists. eexists. split; [reflexivity |].
  cbn [fd tio modem c_ospeed c_vtime c_vmin line wire].
  replace (0 <? fd p) with true by (symmetry; lia).
  split; [reflexivity |]. cbn [baudrate timeout c_vtime c_ospeed]. unfold u8.
  split; [intros Hin; apply baudrate_round_trip; assumption |].
  split; [lia |].
  split; [| repeat split].
  intros Hm Ht.
  pose proof (Z.div_mod (timeout a) 100 ltac:(lia)) as Hd.
  assert (0 <= timeout a / 100 < 256).
  { split; [apply Z.div_pos; lia | apply Z.div_lt_upper_bound; lia]. }
  rewrite Z.mod_small by assumption. lia.
Qed.

End AttributeProperties.

Lemma linux_speeds_distinct : NoDup (@speed_constants linux).
Proof. repeat constructor; cbn; intuition discriminate. Qed.

Lemma set_baudrate_read_back_witness :
  exists p' a,
    set_baudrate 115200 (mock 10 []) = (Ok tt, p') /\
    get_port_attribute p' = (Ok a, p') /\ baudrate a = 115200.
Proof.
  destruct (set_baudrate_read_back 115200 (mock 10 []))
    as (p' & a & H1 & H2 & H3 & _).
  - exact linux_speeds_distinct.
  - cbn. auto 10.
  - reflexivity.
  - exists p', a. auto.
Defined.

Lemma set_port_attribute_baud_and_timeout_witness :
  exists p' g,
    set_port_attribute (mkAttr 19200 1000 8 0 1 0 0) (mock 10 []) = (Ok tt, p') /\
    get_port_attribute p' = (Ok g, p') /\ baudrate g = 19200 /\ timeout g = 1000.
Proof.
  destruct (set_port_attribute_baud_and_timeout (mkAttr 19200 1000 8 0 1 0 0) (mock 10 []))
    as (p' & g & H1 & H2 & H3 & H4 & _).
  - exact linux_speeds_distinct.
  - reflexivity.
  - exists p', g. split; [exact H1 |]. split; [exact H2 |].
    split; [apply H3; cbn; auto 10 | rewrite H4; reflexivity].
Defined.

Section FlagProperties.
Context {K : termios_h}.

(** What [set_port_attribute] leaves in the port. *)
Lemma set_port_attribute_open a p :
  0 < fd p ->
  exists p',
    set_port_attribute a p = (Ok tt, p') /\ fd p' = fd p /\
    c_cflag (tio p') =
      set_bits
        (clear_bits
           (clear_bits
              (let c := clear_bits (if numBits a =? 7
                                    then set_bits (c_cflag (tio p)) CS7
                                    else set_bits (c_cflag (tio p)) CS8) PARENB in
               if numStop a =? 1 then clear_bits c CSTOPB else set_bits c CSTOPB)
              CSIZE)
           CRTSCTS)
        (Z.lor CREAD CLOCAL) /\
    c_iflag (tio p') = clear_bits (c_iflag (tio p)) (Z.lor (Z.lor IXON IXOFF) IXANY) /\
    c_lflag (tio p') =
      clear_bits (c_lflag (tio p)) (Z.lor (Z.lor (Z.lor ICANON ECHO) ECHOE) ISIG) /\
    c_oflag (tio p') = clear_bits (c_oflag (tio p)) OPOST /\
    modem p' =
      (let s := if RTS a =? 1 then set_bits (modem p) TIOCM_RTS
                else clear_bits (modem p) TIOCM_RTS in
       if DTR a =? 1 then set_bits s TIOCM_DTR else clear_bits s TIOCM_DTR).
Proof.
  intros Ho.
  unfold set_port_attribute, set_modem_lines, tcgetattr, tcsetattr.
  replace (0 <? fd p) with true by (symmetry; lia).
  unfold with_tio, with_modem. cbn [fd tio modem].
  replace (0 <? fd p) with true by (symmetry; lia).
  eexists. split; [reflexivity |]. cbn. repeat split.
Qed.

Lemma get_port_attribute_open p :
  0 < fd p ->
  exists g,
    get_port_attribute p = (Ok g, p) /\
    numBits g = (if neq (Z.land (c_cflag (tio p)) CS8) 0 then 8 else 7) /\
    parity g = (if neq (Z.land (c_cflag (tio p)) PARENB) 0 then 1 else 0).
Proof.
  intros Ho. unfold get_port_attribute, tcgetattr.
  replace (0 <? fd p) with true by (symmetry; lia).
  eexists. split; [reflexivity |]. cbn. split; reflexivity.
Qed.



(** X9. [set_port_attribute] puts the line in raw mode: canonical input,
    echo and signals, output post-processing and software flow control are
    off, the receiver is on and modem control lines are ignored, and
    hardware flow control is off where CRTSCTS is a flag of its own. *)
Theorem set_port_attribute_raw_mode (a : attributes) (p : port) :
  Z.land (Z.lor CREAD CLOCAL) CRTSCTS = 0 ->
  0 < fd p ->
  exists p',
    set_port_attribute a p = (Ok tt, p') /\
    Z.land (c_lflag (tio p')) (Z.lor (Z.lor (Z.lor ICANON ECHO) ECHOE) ISIG) = 0 /\
    Z.land (c_oflag (tio p')) OPOST = 0 /\
    Z.land (c_iflag (tio p')) (Z.lor (Z.lor IXON IXOFF) IXANY) = 0 /\
    Z.land (c_cflag (tio p')) (Z.lor CREAD CLOCAL) = Z.lor CREAD CLOCAL /\
    Z.land (c_cflag (tio p')) CRTSCTS = 0.
Proof.
  intros H1 Ho.
  destruct (set_port_attribute_open a p Ho) as (p' & Hs & Hf & Hc & Hi & Hl & Hof & _).
  exists p'. split; [exact Hs |].
  rewrite Hc, Hi, Hl, Hof. unfold set_bits, clear_bits.
  repeat split; try apply clear_bits_self.
  - apply set_bits_self.
  - rewrite set_bits_other by exact H1. apply clear_bits_self.
Qed.

(** X10. [set_port_attribute] drives RTS and DTR as asked, where the two
    lines are different bits: a line is raised exactly when its argument is
    1 (any other value lowers it), and the other modem lines stay as they
    were. *)
Theorem set_port_attribute_modem_lines (a : attributes) (p : port) :
  Z.land TIOCM_RTS TIOCM_DTR = 0 ->
  0 < fd p ->
  exists p',
    set_port_attribute a p = (Ok tt, p') /\
    Z.land (modem p') TIOCM_RTS = (if RTS a =? 1 then TIOCM_RTS else 0) /\
    Z.land (modem p') TIOCM_DTR = (if DTR a =? 1 then TIOCM_DTR else 0) /\
    (forall m, Z.land TIOCM_RTS m = 0 -> Z.land TIOCM_DTR m = 0 ->
               Z.land (modem p') m = Z.land (modem p) m).
Proof.
  intros Hd Ho.
  assert (Hd' : Z.land TIOCM_DTR TIOCM_RTS = 0) by (rewrite Z.land_comm; exact Hd).
  destruct (set_port_attribute_open a p Ho) as (p' & Hs & _ & _ & _ & _ & _ & Hm).
  exists p'. split; [exact Hs |]. rewrite Hm. cbv zeta. unfold set_bits, clear_bits.
  split; [| split].
  - destruct (DTR a =? 1);
      [rewrite set_bits_other by exact Hd' | rewrite clear_bits_other by exact Hd'];
      destruct (RTS a =? 1); auto using set_bits_self, clear_bits_self.
  - destruct (DTR a =? 1); auto using set_bits_self, clear_bits_self.
  - intros m Hr Hdm.
    destruct (DTR a =? 1);
      [rewrite set_bits_other by exact Hdm | rewrite clear_bits_other by exact Hdm];
      destruct (RTS a =? 1);
      [rewrite set_bits_other by exact Hr | rewrite clear_bits_other by exact Hr
      | rewrite set_bits_other by exact Hr | rewrite clear_bits_other by exact Hr];
      reflexivity.
Qed.

End FlagProperties.


Lemma set_port_attribute_raw_mode_witness :
  exists p',
    set_port_attribute (mkAttr 9600 1000 8 0 1 0 0) (mock 10 []) = (Ok tt, p') /\
    Z.land (c_lflag (tio p')) (Z.lor (Z.lor (Z.lor ICANON ECHO) ECHOE) ISIG) = 0 /\
    Z.land (c_oflag (tio p')) OPOST = 0 /\
    Z.land (c_iflag (tio p')) (Z.lor (Z.lor IXON IXOFF) IXANY) = 0 /\
    Z.land (c_cflag (tio p')) (Z.lor CREAD CLOCAL) = Z.lor CREAD CLOCAL /\
    Z.land (c_cflag (tio p')) CRTSCTS = 0.
Proof.
  apply (set_port_attribute_raw_mode (mkAttr 9600 1000 8 0 1 0 0) (mock 10 []));
    reflexivity.
Defined.

Lemma set_port_attribute_modem_lines_witness :
  exists p',
    set_port_attribute (mkAttr 9600 1000 8 0 1 1 2) (mock 10 []) = (Ok tt, p') /\
    Z.land (modem p') TIOCM_RTS = TIOCM_RTS /\
    Z.land (modem p') TIOCM_DTR = 0.
Proof.
  destruct (set_port_attribute_modem_lines (mkAttr 9600 1000 8 0 1 1 2) (mock 10 []))
    as (p' & H1 & H2 & H3 & _); [reflexivity | reflexivity |].
  exists p'. auto.
Defined.

(** ** [init_port] and [close_port] *)

Section InitPort.
Context {K : termios_h}.
Variable PARODD : Z.

(** The control flags [init_port] writes. *)
Definition init_cflag (a : attributes) (c : Z) : Z :=
  set_bits
    (clear_bits
       (clear_bits
          (let c := if numBits a =? 7 then set_bits c CS7 else set_bits c CS8 in
           let c := if parity a =? 0 then clear_bits c PARENB
                    else if parity a =? 1
                         then set_bits (set_bits c PARENB) PARODD
                         else if parity a =? 2
                              then clear_bits (set_bits c PARENB) PARODD
                              else c in
           if numStop a =? 1 then clear_bits c CSTOPB else set_bits c CSTOPB)
          CSIZE)
       CRTSCTS)
    (Z.lor CREAD CLOCAL).

Lemma init_port_open opened a p :
  0 < opened ->
  exists p',
    init_port PARODD opened a p = (Done opened, p') /\ fd p' = opened /\
    c_cflag (tio p') = init_cflag a (c_cflag (tio p)) /\
    c_vtime (tio p') = u8 (timeout a / 100) /\
    c_ospeed (tio p') = brate_of (baudrate a) /\
    line p' = line p /\ wire p' = wire p.
Proof.
  intros Ho. unfold init_port.
  replace (opened =? -1) with false by (symmetry; apply Z.eqb_neq; lia).
  unfold set_modem_lines, tcgetattr, tcsetattr, with_fd, with_tio, with_modem.
  cbn [fd tio modem].
  replace (0 <? opened) with true by (symmetry; lia).
  cbn [fd tio modem].
  replace (0 <? opened) with true by (symmetry; lia).
  eexists. split; [reflexivity |]. cbn. repeat split.
Qed.

(** The parity flags do not overlap each other nor the flags written after
    them. *)
Definition parity_flags_apart : Prop :=
  Z.land PARODD PARENB = 0 /\
  Z.land CSTOPB PARENB = 0 /\ Z.land CSTOPB PARODD = 0 /\
  Z.land CSIZE PARENB = 0 /\ Z.land CSIZE PARODD = 0 /\
  Z.land CRTSCTS PARENB = 0 /\ Z.land CRTSCTS PARODD = 0 /\
  Z.land (Z.lor CREAD CLOCAL) PARENB = 0 /\ Z.land (Z.lor CREAD CLOCAL) PARODD = 0.

Lemma tail_keeps_bits a c x :
  Z.land CSTOPB x = 0 -> Z.land CSIZE x = 0 -> Z.land CRTSCTS x = 0 ->
  Z.land (Z.lor CREAD CLOCAL) x = 0 ->
  Z.land
    (set_bits
       (clear_bits
          (clear_bits
             (if numStop a =? 1 then clear_bits c CSTOPB else set_bits c CSTOPB)
             CSIZE)
          CRTSCTS)
       (Z.lor CREAD CLOCAL)) x = Z.land c x.
Proof.
  intros H1 H2 H3 H4. unfold set_bits, clear_bits.
  rewrite set_bits_other by exact H4.
  rewrite clear_bits_other by exact H3.
  rewrite clear_bits_other by exact H2.
  destruct (numStop a =? 1);
    [rewrite clear_bits_other by exact H1 | rewrite set_bits_other by exact H1];
    reflexivity.
Qed.

(** X11. [init_port] on a device that opens returns the new descriptor and,
    unlike [set_port_attribute], honours the parity it is given: 0 clears
    PARENB, 1 sets PARENB and PARODD, 2 sets PARENB and clears PARODD (on a
    platform whose flags do not overlap). [get_port_attribute] then reports
    parity 1 for odd and for even alike. *)
Theorem init_port_parity (opened : Z) (a : attributes) (p : port) :
  parity_flags_apart -> 0 < opened ->
  exists p',
    init_port PARODD opened a p = (Done opened, p') /\ fd p' = opened /\
    (parity a = 0 -> Z.land (c_cflag (tio p')) PARENB = 0) /\
    (parity a = 1 -> Z.land (c_cflag (tio p')) PARENB = PARENB /\
                     Z.land (c_cflag (tio p')) PARODD = PARODD) /\
    (parity a = 2 -> Z.land (c_cflag (tio p')) PARENB = PARENB /\
                     Z.land (c_cflag (tio p')) PARODD = 0) /\
    (parity a = 1 \/ parity a = 2 -> PARENB <> 0 ->
     exists g, get_port_attribute p' = (Ok g, p') /\ parity g = 1).
Proof.
  intros (A1 & A2 & A3 & A4 & A5 & A6 & A7 & A8 & A9) Ho.
  destruct (init_port_open opened a p Ho) as (p' & Hi & Hf & Hc & _).
  exists p'. split; [exact Hi |]. split; [exact Hf |].
  assert (Hen : forall x, Z.land CSTOPB x = 0 -> Z.land CSIZE x = 0 ->
                Z.land CRTSCTS x = 0 -> Z.land (Z.lor CREAD CLOCAL) x = 0 ->
                Z.land (c_cflag (tio p')) x =
                Z.land (let c := if numBits a =? 7 then set_bits (c_cflag (tio p)) CS7
                                 else set_bits (c_cflag (tio p)) CS8 in
                        if parity a =? 0 then clear_bits c PARENB
                        else if parity a =? 1
                             then set_bits (set_bits c PARENB) PARODD
                             else if parity a =? 2
                                  then clear_bits (set_bits c PARENB) PARODD
                                  else c) x).
  { intros x H1 H2 H3 H4. rewrite Hc. unfold init_cflag. cbv zeta.
    apply tail_keeps_bits; assumption. }
  assert (H1 : parity a = 1 -> Z.land (c_cflag (tio p')) PARENB = PARENB /\
                               Z.land (c_cflag (tio p')) PARODD = PARODD).
  { intros Hp. rewrite !Hen by assumption. rewrite Hp. cbn [Z.eqb Pos.eqb]. cbv zeta.
    unfold set_bits. split.
    - rewrite set_bits_other by exact A1. apply set_bits_self.
    - apply set_bits_self. }
  assert (H2 : parity a = 2 -> Z.land (c_cflag (tio p')) PARENB = PARENB /\
                               Z.land (c_cflag (tio p')) PARODD = 0).
  { intros Hp. rewrite !Hen by assumption. rewrite Hp. cbn [Z.eqb Pos.eqb]. cbv zeta.
    unfold set_bits, clear_bits. split.
    - rewrite clear_bits_other by exact A1. apply set_bits_self.
    - apply clear_bits_self. }
  split; [| split; [exact H1 | split; [exact H2 |]]].
  - intros Hp. rewrite Hen by assumption. rewrite Hp. cbn [Z.eqb]. cbv zeta.
    apply clear_bits_self.
  - intros Hp Hne.
    destruct (get_port_attribute_open p' ltac:(lia)) as (g & Hg & _ & Hpar).
    exists g. split; [exact Hg |]. rewrite Hpar.
    assert (Hb : Z.land (c_cflag (tio p')) PARENB = PARENB)
      by (destruct Hp as [Hp | Hp]; [apply H1 | apply H2]; exact Hp).
    rewrite Hb. unfold neq.
    replace (PARENB =? 0) with false by (symmetry; apply Z.eqb_neq; exact Hne).
    reflexivity.
Qed.

End InitPort.

Lemma init_port_parity_witness :
  exists p',
    init_port 512 3 (mkAttr 9600 1000 8 2 1 0 0) (with_fd (mock 10 []) 0)
      = (Done 3, p') /\
    Z.land (c_cflag (tio p')) PARENB = PARENB /\
    Z.land (c_cflag (tio p')) 512 = 0.
Proof.
  destruct (init_port_parity 512 3 (mkAttr 9600 1000 8 2 1 0 0) (with_fd (mock 10 []) 0))
    as (p' & H1 & _ & _ & _ & H2 & _).
  - repeat split.
  - reflexivity.
  - exists p'. split; [exact H1 |]. apply H2. reflexivity.
Defined.

(** ** What the protocol routines leave alone *)

(** A computation that changes neither the handle, nor the terminal
    attributes, nor the modem lines, however it ends. *)
Definition keeps_settings {A} (m : M A) : Prop :=
  forall p r p', m p = (r, p') -> fd p' = fd p /\ tio p' = tio p /\ modem p' = modem p.

Lemma keeps_ret {A} (a : A) : keeps_settings (ret a).
Proof. intros p r p' H. inversion H. auto. Qed.

Lemma keeps_exit {A} e : keeps_settings (@exit_ A e).
Proof. intros p r p' H. inversion H. auto. Qed.

Lemma keeps_bind {A B} (m : M A) (f : A -> M B) :
  keeps_settings m -> (forall a, keeps_settings (f a)) -> keeps_settings (bind m f).
Proof.
  intros Hm Hf p r p' H. unfold bind in H.
  destruct (m p) as [[a | e] p1] eqn:E.
  - destruct (Hm _ _ _ E) as (H1 & H2 & H3).
    destruct (Hf a _ _ _ H) as (H4 & H5 & H6). repeat split; congruence.
  - inversion H; subst. exact (Hm _ _ _ E).
Qed.

Lemma keeps_fail_if cond e : keeps_settings (fail_if cond e).
Proof. unfold fail_if. destruct cond; [apply keeps_exit | apply keeps_ret]. Qed.

Lemma keeps_check_open : keeps_settings check_open.
Proof. intros p r p' H. unfold check_open in H. exact (keeps_fail_if _ _ _ _ _ H). Qed.

Lemma keeps_send_port n f : keeps_settings (send_port n f).
Proof. intros p r p' H. unfold send_port in H. inversion H. cbn. auto. Qed.

Lemma keeps_receive_port n : keeps_settings (receive_port n).
Proof.
  intros p r p' H. unfold receive_port, receive_port_why in H.
  destruct (tcgetattr p).
  - destruct (recv_loop _ _ _ _) as [[[[s rem] d] l2] c]. inversion H. cbn. auto.
  - inversion H. auto.
Qed.

Lemma keeps_flush_port : keeps_settings flush_port.
Proof. intros p r p' H. inversion H. cbn. auto. Qed.

Lemma keeps_SLEEP ms : keeps_settings (SLEEP ms).
Proof. intros p r p' H. inversion H. cbn. auto. Qed.

(** Goes through a routine made of the calls above. *)
Ltac keeps :=
  repeat first
    [ apply keeps_ret | apply keeps_exit | apply keeps_fail_if
    | apply keeps_check_open | apply keeps_send_port | apply keeps_receive_port
    | apply keeps_flush_port | apply keeps_SLEEP
    | assumption
    | apply keeps_bind; [| intros ? ]
    | match goal with
      | |- keeps_settings (match ?x with (_, _) => _ end) => destruct x
      | |- keeps_settings (if ?c then _ else _) => destruct c
      end ].

Lemma keeps_sync_loop fuel : forall count Rx0, keeps_settings (sync_loop fuel count Rx0).
Proof.
  induction fuel as [| fuel IH]; intros count Rx0; cbn [sync_loop]; keeps.
  apply IH.
Qed.

Lemma keeps_memRead_loop fuel :
  forall addrStart numBytes addrTmp addrStep idx buf,
    keeps_settings (memRead_loop fuel addrStart numBytes addrTmp addrStep idx buf).
Proof.
  induction fuel as [| fuel IH]; intros; cbn [memRead_loop]; keeps.
  apply IH.
Qed.

Lemma keeps_memWrite_loop fuel :
  forall addrStart numBytes addrTmp addrStep idx buf,
    keeps_settings (memWrite_loop fuel addrStart numBytes addrTmp addrStep idx buf).
Proof.
  induction fuel as [| fuel IH]; intros; cbn [memWrite_loop]; keeps.
  apply IH.
Qed.

(** X12. However they end, [bsl_sync], [bsl_memCheck], [bsl_memRead],
    [bsl_flashErase], [bsl_memWrite] and [bsl_jumpTo] leave the handle, the
    terminal attributes (so the read timeout) and the modem lines of the port
    as they found them. ([bsl_getInfo] is the one routine that does not.) *)
Theorem protocol_routines_keep_settings :
  keeps_settings bsl_sync /\
  (forall addr, keeps_settings (bsl_memCheck addr)) /\
  (forall fuel addrStart numBytes buf,
      keeps_settings (bsl_memRead fuel addrStart numBytes buf)) /\
  (forall addr, keeps_settings (bsl_flashErase addr)) /\
  (forall fuel addrStart numBytes buf verbose,
      keeps_settings (bsl_memWrite fuel addrStart numBytes buf verbose)) /\
  (forall addr, keeps_settings (bsl_jumpTo addr)).
Proof.
  split; [| split; [| split; [| split; [| split]]]]; intros.
  - unfold bsl_sync. apply keeps_bind; [keeps | intros _].
    apply keeps_bind; [keeps | intros _].
    apply keeps_bind; [apply keeps_sync_loop | intros [len Rx0]; keeps].
  - unfold bsl_memCheck. keeps.
  - unfold bsl_memRead. keeps. apply keeps_memRead_loop.
  - unfold bsl_flashErase. keeps.
  - unfold bsl_memWrite. keeps. apply keeps_memWrite_loop.
  - unfold bsl_jumpTo. keeps.
Qed.

Lemma protocol_routines_keep_settings_witness :
  let p := mock 20 [reply [ACK]; reply [NACK]] in
  timeout_ms (snd (bsl_memCheck 0x047FFF p)) = 2000.
Proof.
  intros p.
  destruct protocol_routines_keep_settings as (_ & H & _).
  destruct (H 0x047FFF p (fst (bsl_memCheck 0x047FFF p)) (snd (bsl_memCheck 0x047FFF p)))
    as (_ & Ht & _).
  - apply surjective_pairing.
  - unfold timeout_ms. rewrite Ht. reflexivity.
Defined.

(** ** A closed port *)

Lemma check_open_closed {B} (k : unit -> M B) p :
  fd p = 0 -> bind check_open k p = (Exit E_port_not_open, p).
Proof.
  intros Hf. unfold bind, check_open, fail_if. rewrite Hf. reflexivity.
Qed.

(** On the handle 0 every protocol routine stops at once with "port not
    open" and leaves the port as it is. *)
Lemma closed_port_refused (p : port) (fuel : nat) (a n v : Z) (buf : list Z) :
  fd p = 0 ->
  bsl_sync p = (Exit E_port_not_open, p) /\
  bsl_getInfo p = (Exit E_port_not_open, p) /\
  bsl_memCheck a p = (Exit E_port_not_open, p) /\
  bsl_memRead fuel a n buf p = (Exit E_port_not_open, p) /\
  bsl_flashErase a p = (Exit E_port_not_open, p) /\
  bsl_memWrite fuel a n buf v p = (Exit E_port_not_open, p) /\
  bsl_jumpTo a p = (Exit E_port_not_open, p).
Proof.
  intros Hf.
  unfold bsl_sync, bsl_getInfo, bsl_memCheck, bsl_memRead, bsl_flashErase,
    bsl_memWrite, bsl_jumpTo.
  cbv zeta.
  repeat split; apply check_open_closed; exact Hf.
Qed.

(** X13. [close_port] leaves the handle at 0 in every outcome and touches
    nothing else; it reports a failure only for a descriptor the kernel does
    not know, and closing again does nothing. On the closed handle every
    protocol routine stops with "port not open" without sending a byte. *)
Theorem close_port_then_refused (p : port) (fuel : nat) (a n v : Z) (buf : list Z) :
  let q := snd (close_port p) in
  fd q = 0 /\ tio q = tio p /\ modem q = modem p /\ line q = line p /\ wire q = wire p /\
  (fst (close_port p) = Stop E_close_failed <-> fd p < 0) /\
  close_port q = (Done tt, q) /\
  bsl_sync q = (Exit E_port_not_open, q) /\
  bsl_getInfo q = (Exit E_port_not_open, q) /\
  bsl_memCheck a q = (Exit E_port_not_open, q) /\
  bsl_memRead fuel a n buf q = (Exit E_port_not_open, q) /\
  bsl_flashErase a q = (Exit E_port_not_open, q) /\
  bsl_memWrite fuel a n buf v q = (Exit E_port_not_open, q) /\
  bsl_jumpTo a q = (Exit E_port_not_open, q).
Proof.
  intros q.
  assert (Hq : q = with_fd p 0).
  { subst q. unfold close_port. destruct (neq (fd p) 0); [destruct (neq (close p) 0) |];
      reflexivity. }
  rewrite Hq. cbn [with_fd fd tio modem line wire].
  repeat (split; [reflexivity |]).
  split.
  - unfold close_port, close, neq.
    destruct (Z.eqb_spec (fd p) 0) as [E | E]; cbn [negb].
    + split; [discriminate | lia].
    + destruct (Z.ltb_spec 0 (fd p)); cbn; split; intros Hx; try discriminate; try lia.
      reflexivity.
  - split; [reflexivity |].
    apply closed_port_refused. reflexivity.
Qed.

(** ** [receive_port]: the bytes and the waiting *)

(** The bytes the pending input holds, in order. *)
Definition stream (l : list event) : list Z :=
  flat_map (fun e => match ev_rd e with RdBytes bs => bs | _ => [] end) l.

Lemma firstn_skipn_Z {A} (n : Z) (l : list A) :
  firstn (Z.to_nat n) l ++ skipn (Z.to_nat n) l = l.
Proof. apply firstn_skipn. Qed.

Lemma recv_loop_stream timeout l :
  forall remaining dest, 0 <= remaining ->
    match recv_loop timeout l remaining dest with
    | (_, _, d, l2, _) => d ++ stream l2 = dest ++ stream l
    end.
Proof.
  induction l as [| e l' IH]; intros remaining dest Hr; cbn [recv_loop].
  - destruct (remaining =? 0); reflexivity.
  - destruct (remaining =? 0) eqn:E0; [reflexivity |].
    apply Z.eqb_neq in E0.
    destruct (select _ e) as [ready blocked] eqn:Es.
    destruct e as [w rdv]. cbn [ev_wait ev_rd] in *.
    destruct (neq ready 1) eqn:En.
    { destruct (ready =? 0) eqn:Er; [reflexivity |].
      (* select failed: the event held no bytes *)
      unfold select in Es. cbn [ev_wait ev_rd] in Es.
      destruct (_ <? w); [inversion Es; subst; discriminate |].
      destruct rdv; inversion Es; subst; try discriminate. reflexivity. }
    destruct rdv as [bs | | |]; cbn [read].
    + (* bytes *)
      assert (Hmin : Z.min remaining (Z.of_nat (length bs)) <> -1) by lia.
      apply Z.eqb_neq in Hmin. rewrite Hmin.
      destruct (0 <? Z.min remaining (Z.of_nat (length bs))) eqn:Epos.
      * destruct (remaining - Z.min remaining (Z.of_nat (length bs)) =? 0) eqn:Ez.
        -- apply Z.eqb_eq in Ez.
           assert (Hg : Z.min remaining (Z.of_nat (length bs)) = remaining) by lia.
           rewrite Hg.
           assert (Hs : stream (match skipn (Z.to_nat remaining) bs with
                                | [] => l'
                                | _ :: _ => Ev 0 (RdBytes (skipn (Z.to_nat remaining) bs)) :: l'
                                end) = skipn (Z.to_nat remaining) bs ++ stream l').
           { destruct (skipn (Z.to_nat remaining) bs); reflexivity. }
           replace (match skipn (Z.to_nat remaining) bs with
                    | [] => l'
                    | z :: l => Ev 0 (RdBytes (z :: l)) :: l'
                    end)
             with (match skipn (Z.to_nat remaining) bs with
                   | [] => l'
                   | _ :: _ => Ev 0 (RdBytes (skipn (Z.to_nat remaining) bs)) :: l'
                   end)
             by (destruct (skipn (Z.to_nat remaining) bs); reflexivity).
           rewrite Hs. cbn [stream flat_map ev_rd]. fold (stream l').
           rewrite <- !app_assoc, (app_assoc (firstn _ bs)), firstn_skipn_Z.
           reflexivity.
        -- apply Z.eqb_neq in Ez.
           assert (Hg : Z.min remaining (Z.of_nat (length bs)) = Z.of_nat (length bs))
             by lia.
           rewrite Hg.
           specialize (IH (remaining - Z.of_nat (length bs))
                          (dest ++ firstn (Z.to_nat remaining) bs) ltac:(lia)).
           destruct (recv_loop timeout l' _ _) as [[[[s r] d] l2] c].
           rewrite IH. cbn [stream flat_map ev_rd]. fold (stream l').
           rewrite firstn_all2 by lia. rewrite <- app_assoc. reflexivity.
      * (* nothing was readable *)
        assert (Hnil : bs = []).
        { apply Z.ltb_ge in Epos. destruct bs; [reflexivity | simpl in Epos; lia]. }
        subst bs. specialize (IH remaining dest Hr).
        destruct (recv_loop timeout l' remaining dest) as [[[[s r] d] l2] c].
        exact IH.
    + cbn [Z.eqb]. specialize (IH remaining dest Hr).
      destruct (recv_loop timeout l' remaining dest) as [[[[s r] d] l2] c].
      exact IH.
    + reflexivity.
    + reflexivity.
Qed.

(** X14. [receive_port] loses and invents no input: the bytes it hands out
    followed by the bytes still pending are the bytes that were pending, in
    order; so what one call leaves is there for the next. *)
Theorem receive_port_keeps_the_stream (n : Z) (p : port) (len : Z) (data : list Z)
        (p' : port) :
  0 <= n ->
  receive_port n p = (Ok (len, data), p') ->
  stream (line p) = data ++ stream (line p').
Proof.
  intros Hn H. unfold receive_port, receive_port_why in H.
  destruct (tcgetattr p); [| discriminate].
  pose proof (recv_loop_stream (c_vtime t * 100) (line p) n [] Hn) as Hs.
  destruct (recv_loop _ (line p) n []) as [[[[s r] d] l2] c].
  cbn in H. inversion H; subst. cbn [line]. symmetry. exact Hs.
Qed.

Lemma receive_port_keeps_the_stream_witness :
  let p := mock 10 [reply [ACK; 0xAA; 0xBB]; reply [0xCC]] in
  stream (line p) = [ACK] ++ stream (line (snd (receive_port 1 p))).
Proof.
  intros p.
  apply (receive_port_keeps_the_stream 1 p 1 [ACK] (snd (receive_port 1 p))).
  - discriminate.
  - vm_compute. reflexivity.
Defined.

(** The loop of [receive_port] on pieces that arrive in time and hold
    together exactly what is asked for. *)
Lemma recv_loop_pieces timeout pcs :
  forall l dest,
    pcs <> [] ->
    Forall (fun pc => fst pc <= timeout /\ snd pc <> []) pcs ->
    exists calls,
      recv_loop timeout (pieces_of pcs ++ l)
                (Z.of_nat (length (concat (map snd pcs)))) dest =
      (Complete, 0, dest ++ concat (map snd pcs), l, calls) /\
      elapsed calls = fold_right (fun pc acc => fst pc + acc) 0 pcs.
Proof.
  induction pcs as [| [w bs] pcs IH]; intros l dest Hne Hall; [contradiction |].
  apply Forall_cons_iff in Hall. destruct Hall as [[Hw Hbs] Hall]. cbn [fst snd] in *.
  cbn [pieces_of map app concat snd fst fold_right]. fold (pieces_of pcs).
  rewrite length_app, Nat2Z.inj_add.
  set (rest := Z.of_nat (length (concat (map snd pcs)))).
  assert (Hpos : 0 < Z.of_nat (length bs)) by (destruct bs; [contradiction | cbn; lia]).
  assert (Hrest : 0 <= rest) by (subst rest; lia).
  cbn [recv_loop].
  replace (Z.of_nat (length bs) + rest =? 0) with false by (symmetry; apply Z.eqb_neq; lia).
  rewrite tv_is_timeout. unfold select. cbn [ev_wait ev_rd].
  replace (timeout <? w) with false by (symmetry; apply Z.ltb_ge; lia).
  cbn [neq Z.eqb Pos.eqb negb read].
  rewrite Z.min_r by lia.
  replace (Z.of_nat (length bs) =? -1) with false by (symmetry; apply Z.eqb_neq; lia).
  replace (0 <? Z.of_nat (length bs)) with true by (symmetry; apply Z.ltb_lt; lia).
  replace (Z.of_nat (length bs) + rest - Z.of_nat (length bs)) with rest by lia.
  rewrite firstn_all2 by lia.
  destruct pcs as [| pc pcs].
  - (* the last piece *)
    subst rest. cbn [map concat length Z.of_nat Z.eqb pieces_of app fold_right].
    rewrite skipn_all_Z. rewrite app_nil_r.
    eexists. split; [reflexivity |]. cbn [elapsed fold_right blocked_of]. lia.
  - assert (Hrest' : 0 < rest).
    { subst rest. apply Forall_cons_iff in Hall. destruct Hall as [[_ Hpc] _].
      cbn [map concat]. rewrite length_app.
      destruct (snd pc); [contradiction | cbn; lia]. }
    replace (rest =? 0) with false by (symmetry; apply Z.eqb_neq; lia).
    destruct (IH l (dest ++ bs) ltac:(discriminate) Hall) as (calls & Hrun & Hel).
    fold rest in Hrun. rewrite Hrun.
    eexists. split; [rewrite <- app_assoc; reflexivity |].
    rewrite <- Hel. unfold elapsed. cbn [app fold_right blocked_of]. lia.
Qed.

(** X15. [receive_port] puts together a reply that arrives in pieces: when
    every piece becomes readable within the read timeout, counted from the
    read of the piece before, and the pieces hold together the [n] bytes
    asked for, it returns these [n] bytes in order, leaves what follows
    unread, and the time it takes is the sum of the waits, which may be more
    than the timeout. (The port is open with a read timeout of 100 ms or
    more.) *)
Theorem receive_port_assembles_pieces (p : port) (pcs : list (Z * list Z))
        (l : list event) :
  0 < fd p -> 0 < timeout_ms p ->
  line p = pieces_of pcs ++ l -> pcs <> [] ->
  Forall (fun pc => 0 <= fst pc <= timeout_ms p /\ snd pc <> []) pcs ->
  let data := concat (map snd pcs) in
  let n := Z.of_nat (length data) in
  exists p',
    receive_port n p = (Ok (n, data), p') /\
    line p' = l /\
    wire p' = wire p ++ [RxEv data] /\
    now p' = now p + fold_right (fun pc acc => fst pc + acc) 0 pcs.
Proof.
  intros Ho _ Hl Hne Hall data n.
  assert (Hall' : Forall (fun pc => fst pc <= timeout_ms p /\ snd pc <> []) pcs).
  { eapply Forall_impl; [| exact Hall]. cbn. intros pc [[_ H1] H2]. auto. }
  destruct (recv_loop_pieces (timeout_ms p) pcs l [] Hne Hall') as (calls & Hrun & Hel).
  unfold receive_port, receive_port_why, tcgetattr.
  replace (0 <? fd p) with true by (symmetry; lia).
  fold (timeout_ms p). rewrite Hl. subst n data. rewrite Hrun.
  cbn [fst app]. rewrite Z.sub_0_r.
  eexists. split; [reflexivity |]. cbn [line wire now].
  rewrite Hel. repeat split.
Qed.

(** The 4 bytes of a READ reply in two pieces, 900 ms and 800 ms apart, at a
    read timeout of 1000 ms. *)
Lemma receive_port_assembles_pieces_witness :
  exists p',
    receive_port 4 (mock 10 [Ev 900 (RdBytes [ACK; 0xAA]); Ev 800 (RdBytes [0xBB; 0xCC]);
                             reply [0x55]])
      = (Ok (4, [ACK; 0xAA; 0xBB; 0xCC]), p') /\
    line p' = [reply [0x55]] /\ now p' = 1700.
Proof.
  destruct (receive_port_assembles_pieces
              (mock 10 [Ev 900 (RdBytes [ACK; 0xAA]); Ev 800 (RdBytes [0xBB; 0xCC]);
                        reply [0x55]])
              [(900, [ACK; 0xAA]); (800, [0xBB; 0xCC])] [reply [0x55]])
    as (p' & Hr & Hl & _ & Hn); try reflexivity.
  - discriminate.
  - repeat constructor; cbn; try lia; discriminate.
  - exists p'. split; [exact Hr |]. split; [exact Hl | exact Hn].
Defined.

(** ** [bsl_sync] and the arrival time of the reply *)

(** X16. [bsl_sync] succeeds whenever the target answers the SYNCH bytes
    with a single ACK or NACK that arrives, counted from the call, within
    15 read timeouts and the 14 sleeps of 10 ms between them: it returns 0
    after [k] rounds without a reply and the round of the reply, where [k] is
    determined by the arrival time. (The port is open with a read timeout of
    100 ms or more, the writes are accepted, and the reply is not yet there
    when the input is flushed.) *)
Theorem sync_answer_in_time (p : port) (w b : Z) (l : list event) :
  0 < fd p -> wr p = [] ->
  line p = Ev w (RdBytes [b]) :: l -> 0 < w ->
  b = ACK \/ b = NACK ->
  0 < timeout_ms p ->
  w <= 15 * timeout_ms p + 140 ->
  exists k p',
    bsl_sync p = (Ok 0, p') /\
    wire p' = wire p ++ rounds (repeat [] k ++ [[b]]) /\
    (k < 15)%nat /\
    w <= timeout_ms p + Z.of_nat k * (timeout_ms p + 10) /\
    ((0 < k)%nat -> timeout_ms p + (Z.of_nat k - 1) * (timeout_ms p + 10) < w).
Proof.
  intros Ho Hwr Hl Hw Hb Ht Hbound.
  destruct (bsl_sync_answer p w b l Ho Hwr Hl Hw Hb ltac:(lia) Hbound)
    as (k & p' & Hrun & Hwire & Hk & Hup & Hlow).
  exists k, p'. split; [exact Hrun |]. split; [exact Hwire |].
  split; [exact Hk |]. split; [exact Hup | exact Hlow].
Qed.

Lemma sync_answer_in_time_witness :
  exists k p',
    bsl_sync (mock 10 [Ev 3025 (RdBytes [NACK])]) = (Ok 0, p') /\
    wire p' = rounds (repeat [] k ++ [[NACK]]) /\ k = 3%nat.
Proof.
  destruct (sync_answer_in_time (mock 10 [Ev 3025 (RdBytes [NACK])]) 3025 NACK [])
    as (k & p' & H1 & H2 & H3 & H4 & H5); try reflexivity.
  - right. reflexivity.
  - discriminate.
  - exists k, p'. split; [exact H1 |]. split; [exact H2 |].
    change (timeout_ms (mock 10 [Ev 3025 (RdBytes [NACK])])) with 1000 in H4, H5.
    destruct k as [| [| [| [| k]]]]; try reflexivity; simpl in H4; lia.
Defined.







(** ** [bsl_memRead] *)

(** The exchange for the chunk number [k] whose data bytes were [d], and the
    wire after the chunks [ds] read from chunk [k] on. *)
Definition read_round (addrStart : Z) (k : nat) (d : list Z) : list io :=
  [TxEv (cmd_frame READ); RxEv [ACK];
   TxEv (addr_frame (addrStart + 256 * Z.of_nat k)); RxEv [ACK];
   TxEv (cmd_frame (Z.of_nat (length d) - 1)); RxEv (ACK :: d)].

Fixpoint read_trace (addrStart : Z) (k : nat) (ds : list (list Z)) : list io :=
  match ds with
  | [] => []
  | d :: ds' => read_round addrStart k d ++ read_trace addrStart (S k) ds'
  end.

Definition read_chunk_count (n : nat) : nat := (n + 255) / 256.

Lemma read_chunk_count_spec n :
  (n <= 256 * read_chunk_count n /\ 256 * read_chunk_count n < n + 256)%nat.
Proof.
  unfold read_chunk_count.
  pose proof (Nat.div_mod_eq (n + 255) 256) as Hd.
  pose proof (Nat.mod_upper_bound (n + 255) 256 ltac:(lia)) as Hm.
  lia.
Qed.

Lemma store_spec buf :
  forall i v, (i < length buf)%nat ->
    store buf i v = firstn i buf ++ v :: skipn (S i) buf.
Proof.
  induction buf as [| h t IH]; intros i v Hi; simpl in Hi; [lia |].
  destruct i; [reflexivity |]. cbn [store firstn skipn app]. f_equal.
  apply IH. lia.
Qed.

Lemma store_length buf : forall i v, length (store buf i v) = length buf.
Proof.
  induction buf as [| h t IH]; intros i v; [reflexivity |].
  destruct i; cbn [store length]; [reflexivity | rewrite IH; reflexivity].
Qed.

Lemma zero_fill_length n : forall i buf, length (zero_fill n i buf) = length buf.
Proof.
  induction n as [| n IH]; intros i buf; [reflexivity |].
  cbn [zero_fill]. rewrite IH. apply store_length.
Qed.

Lemma copy_out_spec d :
  forall i buf,
    (i + length d <= length buf)%nat -> Z.of_nat (length buf) < 4294967296 ->
    copy_out d (Z.of_nat i) buf =
    (firstn i buf ++ d ++ skipn (i + length d) buf, Z.of_nat (i + length d)).
Proof.
  induction d as [| b d IH]; intros i buf Hi Hlen.
  - cbn [copy_out length app]. rewrite Nat.add_0_r, firstn_skipn. reflexivity.
  - cbn [copy_out length] in *. rewrite Nat2Z.id.
    rewrite u32_small by lia.
    replace (Z.of_nat i + 1) with (Z.of_nat (S i)) by lia.
    rewrite IH by (rewrite ?store_length; lia).
    rewrite store_spec by lia.
    assert (Hfi : length (firstn i buf) = i) by (rewrite length_firstn; lia).
    replace (S i) with (length (firstn i buf) + 1)%nat at 1 by lia.
    rewrite firstn_app_2. cbn [firstn].
    replace (S i + length d)%nat with (length (firstn i buf) + (1 + length d))%nat
      at 1 by lia.
    rewrite skipn_app, skipn_all2 by lia.
    replace (length (firstn i buf) + (1 + length d) - length (firstn i buf))%nat
      with (S (length d)) by lia.
    cbn [app]. change (skipn (S (length d)) (b :: skipn (S i) buf))
      with (skipn (length d) (skipn (S i) buf)).
    rewrite skipn_skipn.
    replace (length d + S i)%nat with (i + S (length d))%nat by lia.
    rewrite <- app_assoc. cbn [app].
    replace (S i + length d)%nat with (i + S (length d))%nat by lia.
    reflexivity.
Qed.

Lemma memRead_loop_done fuel addrStart numBytes addrStep idx buf p :
  0 <= addrStart + numBytes < 4294967296 ->
  memRead_loop fuel addrStart numBytes (addrStart + numBytes) addrStep idx buf p
  = (Ok buf, p).
Proof.
  intros Ha.
  assert (Hc : negb (addrStart + numBytes <? u32 (addrStart + numBytes)) = true).
  { rewrite u32_small by exact Ha. rewrite Z.ltb_irrefl. reflexivity. }
  destruct fuel; simpl; rewrite Hc; reflexivity.
Qed.

Lemma ack_first (Rx : list Z) (s : nat) :
  Z.of_nat (length Rx) = Z.of_nat s + 1 -> Rx_at Rx 0 = ACK ->
  exists d, Rx = ACK :: d /\ length d = s.
Proof.
  intros Hl Ha. destruct Rx as [| a d]; simpl in Hl; [lia |].
  cbn in Ha. subst a. exists d. split; [reflexivity | lia].
Qed.

Section ReadLoop.
Variable addrStart : Z.
Variable n : nat.
Hypothesis start_pos : 0 <= addrStart.
Hypothesis no_wrap : addrStart + Z.of_nat n + 256 <= 4294967296.

(** The loop entered at the start of chunk [k], with a buffer of [n] bytes. *)
Lemma memRead_loop_run fuel :
  forall (k : nat) buf p r p',
    (256 * k <= n)%nat -> length buf = n ->
    memRead_loop fuel addrStart (Z.of_nat n) (addrStart + 256 * Z.of_nat k) 256
                 (Z.of_nat (256 * k)) buf p = (r, p') ->
    (forall out, r = Ok out ->
       exists ds,
         wire p' = wire p ++ read_trace addrStart k ds /\
         out = firstn (256 * k) buf ++ concat ds /\
         length ds = (read_chunk_count n - k)%nat /\
         Forall (fun d => (1 <= length d <= 256)%nat) ds) /\
    ((read_chunk_count n - k <= fuel)%nat -> r <> Exit E_out_of_fuel).
Proof.
  pose proof (read_chunk_count_spec n) as Hcc.
  assert (Hend : forall k buf p r p',
    (256 * k <= n)%nat -> length buf = n ->
    ~ (addrStart + 256 * Z.of_nat k < addrStart + Z.of_nat n) ->
    ret buf p = (r, p') ->
    (forall out, r = Ok out ->
       exists ds,
         wire p' = wire p ++ read_trace addrStart k ds /\
         out = firstn (256 * k) buf ++ concat ds /\
         length ds = (read_chunk_count n - k)%nat /\
         Forall (fun d => (1 <= length d <= 256)%nat) ds) /\
    r <> Exit E_out_of_fuel).
  { intros k buf p r p' Hk Hb Hlt H. inversion H; subst r p'.
    split; [| discriminate]. intros out Ho. inversion Ho; subst out.
    exists []. cbn [read_trace concat length]. rewrite !app_nil_r.
    split; [reflexivity |]. split; [rewrite firstn_all2 by lia; reflexivity |].
    split; [lia | constructor]. }
  induction fuel as [| fuel IH]; intros k buf p r p' Hk Hb H.
  - cbn [memRead_loop] in H.
    rewrite u32_small in H by lia.
    destruct (addrStart + 256 * Z.of_nat k <? addrStart + Z.of_nat n) eqn:Hlt;
      cbn [negb] in H.
    + inversion H; subst. split; [discriminate |].
      intros Hf. exfalso. apply Z.ltb_lt in Hlt. lia.
    + apply Z.ltb_ge in Hlt.
      destruct (Hend k buf p r p' Hk Hb ltac:(lia) H) as [H1 H2]. auto.
  - cbn [memRead_loop] in H.
    rewrite u32_small in H by lia.
    destruct (addrStart + 256 * Z.of_nat k <? addrStart + Z.of_nat n) eqn:Hlt;
      cbn [negb] in H.
    2:{ apply Z.ltb_ge in Hlt.
        destruct (Hend k buf p r p' Hk Hb ltac:(lia) H) as [H1 H2]. auto. }
    apply Z.ltb_lt in Hlt.
    set (s := Nat.min 256 (n - 256 * k)) in *.
    assert (Hstep :
      (if addrStart + Z.of_nat n <? u32 (addrStart + 256 * Z.of_nat k + 256)
       then u32 (addrStart + Z.of_nat n - (addrStart + 256 * Z.of_nat k))
       else 256) = Z.of_nat s).
    { rewrite !u32_small by lia.
      destruct (addrStart + Z.of_nat n <? addrStart + 256 * Z.of_nat k + 256) eqn:E;
        [apply Z.ltb_lt in E | apply Z.ltb_ge in E]; subst s; lia. }
    rewrite Hstep in H.
    assert (Hs : (1 <= s <= 256)%nat) by (subst s; lia).
    (* command *)
    apply dialogue_run in H; [| reflexivity | lia].
    destruct H as [(e & -> & He) | (Rx1 & p1 & H & Hw1 & Hl1 & _)].
    { split; [discriminate |]. intros _.
      destruct He as [-> | [-> | ->]]; discriminate. }
    apply length1 in Hl1. destruct Hl1 as [a1 ->].
    apply fail_if_bind_run in H. destruct H as [[_ ->] | [Ha1 H]].
    { split; discriminate. }
    apply neq_false in Ha1. cbn in Ha1. subst a1.
    (* address *)
    apply dialogue_run in H; [| reflexivity | lia].
    destruct H as [(e & -> & He) | (Rx2 & p2 & H & Hw2 & Hl2 & _)].
    { split; [discriminate |]. intros _.
      destruct He as [-> | [-> | ->]]; discriminate. }
    apply length1 in Hl2. destruct Hl2 as [a2 ->].
    apply fail_if_bind_run in H. destruct H as [[_ ->] | [Ha2 H]].
    { split; discriminate. }
    apply neq_false in Ha2. cbn in Ha2. subst a2.
    (* length, then ACK and data *)
    cbv zeta in H.
    assert (Hu8 : u8 (Z.of_nat s - 1) = Z.of_nat s - 1)
      by (apply u8_byte; unfold is_byte; lia).
    rewrite Hu8 in H.
    apply dialogue_run in H; [| reflexivity | lia].
    destruct H as [(e & -> & He) | (Rx3 & p3 & H & Hw3 & Hl3 & _)].
    { split; [discriminate |]. intros _.
      destruct He as [-> | [-> | ->]]; discriminate. }
    apply fail_if_bind_run in H. destruct H as [[_ ->] | [Ha3 H]].
    { split; discriminate. }
    apply neq_false in Ha3.
    destruct (ack_first Rx3 s Hl3 Ha3) as (d & -> & Hd).
    cbn [skipn] in H.
    rewrite (copy_out_spec d (256 * k) buf) in H by lia.
    rewrite u32_small in H by lia.
    assert (Hround : wire p3 = wire p ++ read_round addrStart k d).
    { rewrite Hw3, Hw2, Hw1, <- !app_assoc. unfold read_round. rewrite Hd.
      reflexivity. }
    set (buf' := firstn (256 * k) buf ++ d ++ skipn (256 * k + length d) buf) in *.
    assert (Hb' : length buf' = n).
    { subst buf'. rewrite !length_app, length_firstn, length_skipn. lia. }
    assert (Hpre : firstn (256 * k + length d) buf' = firstn (256 * k) buf ++ d).
    { subst buf'. rewrite app_assoc.
      rewrite firstn_app.
      rewrite length_app, length_firstn.
      replace (256 * k + length d - (Nat.min (256 * k) (length buf) + length d))%nat
        with 0%nat by lia.
      cbn [firstn]. rewrite app_nil_r. apply firstn_all2.
      rewrite length_app, length_firstn. lia. }
    destruct (Nat.le_gt_cases 256 (n - 256 * k)) as [Hfull | Hlast].
    + (* a full chunk: on to chunk k + 1 *)
      assert (Hs256 : s = 256%nat) by (subst s; lia).
      rewrite Hd, Hs256 in H.
      replace (addrStart + 256 * Z.of_nat k + Z.of_nat 256)
        with (addrStart + 256 * Z.of_nat (S k)) in H by lia.
      replace (256 * k + 256)%nat with (256 * S k)%nat in H by lia.
      apply IH in H; try exact Hb'; try lia.
      destruct H as [Hok Hfuel].
      split.
      * intros out Ho. destruct (Hok out Ho) as (ds & Hw & Hout & Hlen & Hall).
        exists (d :: ds). cbn [read_trace concat length].
        split; [rewrite Hw, Hround, <- app_assoc; reflexivity |].
        split.
        { rewrite Hout. replace (256 * S k)%nat with (256 * k + length d)%nat by lia.
          rewrite Hpre, <- app_assoc. reflexivity. }
        split; [lia |]. constructor; [lia | exact Hall].
      * intros Hf. apply Hfuel. lia.
    + (* the last, shorter chunk *)
      assert (Hsn : Z.of_nat s = Z.of_nat n - 256 * Z.of_nat k) by (subst s; lia).
      rewrite Hsn in H.
      replace (addrStart + 256 * Z.of_nat k + (Z.of_nat n - 256 * Z.of_nat k))
        with (addrStart + Z.of_nat n) in H by lia.
      rewrite memRead_loop_done in H by lia.
      inversion H; subst r p'.
      split; [| discriminate].
      intros out Ho. inversion Ho; subst out.
      exists [d]. cbn [read_trace concat length]. rewrite !app_nil_r.
      split; [exact Hround |].
      split.
      { subst buf'. rewrite skipn_all2 by lia. rewrite app_nil_r. reflexivity. }
      split; [lia |]. constructor; [lia | constructor].
Qed.

End ReadLoop.

(** X20. When [bsl_memRead] returns, the buffer holds exactly the data bytes
    the target sent, in order: the transfer was cut into chunks of at most
    256 bytes, each asked for with READ, the address of the chunk and the
    length frame [s-1, ~(s-1)], and answered by ACK followed by the [s] data
    bytes. One unit of fuel per chunk is enough. (The buffer has [numBytes]
    bytes and the loop variables do not wrap around.) *)
Theorem memRead_returns_received (fuel : nat) (addrStart : Z) (buf : list Z)
        (p : port) (r : res (list Z)) (p' : port) :
  0 <= addrStart ->
  addrStart + Z.of_nat (length buf) + 256 <= 2 ^ 32 ->
  bsl_memRead fuel addrStart (Z.of_nat (length buf)) buf p = (r, p') ->
  (forall out, r = Ok out ->
     exists ds,
       wire p' = wire p ++ read_trace addrStart 0 ds /\
       out = concat ds /\ length out = length buf /\
       length ds = read_chunk_count (length buf) /\
       Forall (fun d => (1 <= length d <= 256)%nat) ds) /\
  ((read_chunk_count (length buf) <= fuel)%nat -> r <> Exit E_out_of_fuel).
Proof.
  intros Ha Hw H. change (2 ^ 32) with 4294967296 in Hw.
  unfold bsl_memRead in H. unfold bind at 1 in H.
  unfold check_open, fail_if in H.
  destruct (fd p =? 0).
  { cbn in H. inversion H; subst. split; discriminate. }
  cbn [ret] in H. rewrite Nat2Z.id in H.
  set (buf0 := zero_fill (length buf) 0 buf) in *.
  assert (Hb0 : length buf0 = length buf) by apply zero_fill_length.
  assert (H' : memRead_loop fuel addrStart (Z.of_nat (length buf))
                 (addrStart + 256 * Z.of_nat 0) 256 (Z.of_nat (256 * 0)) buf0 p
               = (r, p')).
  { cbn [Z.of_nat Nat.mul Z.mul]. rewrite Z.add_0_r. exact H. }
  apply (memRead_loop_run addrStart (length buf) Ha Hw) in H'; [| lia | exact Hb0].
  destruct H' as [Hok Hfuel]. rewrite Nat.sub_0_r in Hok, Hfuel.
  split; [| exact Hfuel].
  intros out Ho. destruct (Hok out Ho) as (ds & Hwire & Hout & Hlen & Hall).
  cbn [Nat.mul firstn app] in Hout.
  exists ds. repeat split; try assumption.
  (* the chunks add up to the length of the buffer *)
  clear - Hok Ho Hb0 H Ha Hw.
  assert (Hk : forall f k b q r' q',
             length b = length buf -> (256 * k <= length buf)%nat ->
             memRead_loop f addrStart (Z.of_nat (length buf))
               (addrStart + 256 * Z.of_nat k) 256 (Z.of_nat (256 * k)) b q = (Ok r', q') ->
             length r' = length buf).
  { induction f as [| f IHf]; intros k b q r' q' Hb Hk Hrun.
    - cbn [memRead_loop] in Hrun. rewrite u32_small in Hrun by lia.
      destruct (_ <? _); cbn [negb] in Hrun; inversion Hrun; subst; exact Hb.
    - cbn [memRead_loop] in Hrun. rewrite u32_small in Hrun by lia.
      destruct (addrStart + 256 * Z.of_nat k <? addrStart + Z.of_nat (length buf)) eqn:Hlt;
        cbn [negb] in Hrun; [| inversion Hrun; subst; exact Hb].
      apply Z.ltb_lt in Hlt.
      set (s := Nat.min 256 (length buf - 256 * k)) in *.
      assert (Hstep :
        (if addrStart + Z.of_nat (length buf) <? u32 (addrStart + 256 * Z.of_nat k + 256)
         then u32 (addrStart + Z.of_nat (length buf) - (addrStart + 256 * Z.of_nat k))
         else 256) = Z.of_nat s).
      { rewrite !u32_small by lia.
        destruct (addrStart + Z.of_nat (length buf) <? addrStart + 256 * Z.of_nat k + 256)
          eqn:E; [apply Z.ltb_lt in E | apply Z.ltb_ge in E]; subst s; lia. }
      rewrite Hstep in Hrun.
      apply dialogue_full_Ok in Hrun; [| reflexivity | lia].
      destruct Hrun as (Rx1 & p1 & Hrun & _).
      apply fail_if_bind_Ok in Hrun. destruct Hrun as [_ Hrun].
      apply dialogue_full_Ok in Hrun; [| reflexivity | lia].
      destruct Hrun as (Rx2 & p2 & Hrun & _).
      apply fail_if_bind_Ok in Hrun. destruct Hrun as [_ Hrun].
      cbv zeta in Hrun.
      apply dialogue_full_Ok in Hrun; [| reflexivity | lia].
      destruct Hrun as (Rx3 & p3 & Hrun & _ & Hl3 & _).
      apply fail_if_bind_Ok in Hrun. destruct Hrun as [Ha3 Hrun].
      apply neq_false in Ha3.
      destruct (ack_first Rx3 s Hl3 Ha3) as (d & -> & Hd).
      cbn [skipn] in Hrun.
      rewrite (copy_out_spec d (256 * k) b) in Hrun by (subst s; lia).
      rewrite u32_small in Hrun by (subst s; lia).
      set (b' := firstn (256 * k) b ++ d ++ skipn (256 * k + length d) b) in *.
      assert (Hb' : length b' = length buf).
      { subst b'. rewrite !length_app, length_firstn, length_skipn. subst s. lia. }
      destruct (Nat.le_gt_cases 256 (length buf - 256 * k)) as [Hfull | Hlast].
      + assert (Hs256 : s = 256%nat) by (subst s; lia).
        rewrite Hd, Hs256 in Hrun.
        replace (addrStart + 256 * Z.of_nat k + Z.of_nat 256)
          with (addrStart + 256 * Z.of_nat (S k)) in Hrun by lia.
        replace (256 * k + 256)%nat with (256 * S k)%nat in Hrun by lia.
        apply IHf in Hrun; [exact Hrun | exact Hb' | lia].
      + assert (Hsn : Z.of_nat s = Z.of_nat (length buf) - 256 * Z.of_nat k)
          by (subst s; lia).
        rewrite Hsn in Hrun.
        replace (addrStart + 256 * Z.of_nat k + (Z.of_nat (length buf) - 256 * Z.of_nat k))
          with (addrStart + Z.of_nat (length buf)) in Hrun by lia.
        rewrite memRead_loop_done in Hrun by lia.
        inversion Hrun; subst. exact Hb'. }
  subst r.
  apply (Hk fuel 0%nat buf0 p out p' Hb0 ltac:(lia)).
  cbn [Z.of_nat Nat.mul Z.mul]. rewrite Z.add_0_r. exact H.
Qed.

Lemma memRead_returns_received_witness :
  let p := mock 10 [reply [ACK]; reply [ACK]; reply [ACK; 170; 187; 204]] in
  let run := bsl_memRead 1 32768 3 [1; 2; 3] p in
  fst run = Ok [170; 187; 204] /\
  (forall out, fst run = Ok out ->
     exists ds,
       wire (snd run) = wire p ++ read_trace 32768 0 ds /\
       out = concat ds /\ length out = 3%nat /\
       length ds = read_chunk_count 3 /\
       Forall (fun d => (1 <= length d <= 256)%nat) ds) /\
  ((read_chunk_count 3 <= 1)%nat -> fst run <> Exit E_out_of_fuel).
Proof.
  cbv zeta. split; [vm_compute; reflexivity |].
  exact (memRead_returns_received 1 32768 [1; 2; 3]
           (mock 10 [reply [ACK]; reply [ACK]; reply [ACK; 170; 187; 204]])
           _ _ ltac:(lia) ltac:(vm_compute; discriminate) (surjective_pairing _)).
Defined.

(** ** [bsl_getInfo]: what a successful call has checked *)

(** X21. [bsl_getInfo] succeeds only on a 9-byte GET reply that starts and
    ends with ACK and lists the five command codes GET, READ, GO, WRITE and
    ERASE in bytes 3 to 7; the flash size it returns is one of 8, 32, 128 and
    256 (kB), and the version is byte 2 of that reply, below 256. The reply
    is the last transfer of the call. *)
Theorem getInfo_checks_command_codes (p : port) (fs v : Z) (p' : port) :
  bsl_getInfo p = (Ok (fs, v), p') ->
  exists w resp,
    wire p' = wire p ++ w ++ [TxEv (cmd_frame GET); RxEv resp] /\
    length resp = 9%nat /\
    Rx_at resp 0 = ACK /\ Rx_at resp 8 = ACK /\
    Rx_at resp 3 = GET /\ Rx_at resp 4 = READ /\ Rx_at resp 5 = GO /\
    Rx_at resp 6 = WRITE /\ Rx_at resp 7 = ERASE /\
    v = u8 (Rx_at resp 2) /\ 0 <= v < 256 /\
    In fs [8; 32; 128; 256].
Proof.
  intros H. unfold bsl_getInfo in H.
  unfold bind at 1 in H. unfold check_open, fail_if in H.
  destruct (fd p =? 0); [discriminate H |].
  cbn [ret] in H.
  destruct (flush_port_inv p) as (p0 & Hfl & Hf0 & _ & Hw0).
  unfold bind at 1 in H. rewrite Hfl in H.
  destruct (SLEEP_inv 50 p0) as (p1 & Hsl & Hf1 & _ & Hw1).
  unfold bind at 1 in H. rewrite Hsl in H.
  unfold bind at 1 in H.
  destruct (set_timeout_run 100 p1) as [(p2 & Hst & Hf2 & Hw2 & _) | Hst]; rewrite Hst in H;
    [| discriminate H].
  unfold bind at 1 in H.
  destruct (probe_density p2) as [rp p3] eqn:Hp.
  apply probe_density_run in Hp.
  destruct Hp as [(fs0 & w & -> & Hd & Hw3 & Hf3 & Ht3) | [(w & -> & Hd & Hw3) | (e & -> & He)]];
    [| discriminate H | discriminate H].
  unfold bind at 1 in H.
  destruct (set_timeout_run 1000 p3) as [(p4 & Hst4 & Hf4 & Hw4 & Hv4) | Hst4];
    rewrite Hst4 in H; [| discriminate H].
  apply dialogue_full_Ok in H; [| reflexivity | lia].
  destruct H as (resp & p5 & H & Hw5 & Hl5 & Hf5 & Ht5 & _).
  apply fail_if_bind_Ok in H. destruct H as [Hacks H].
  apply orb_false_iff in Hacks. destruct Hacks as [Ha0 Ha8].
  apply neq_false in Ha0. apply neq_false in Ha8.
  apply fail_if_bind_Ok in H; destruct H as [H3 H]. apply neq_false in H3.
  apply fail_if_bind_Ok in H; destruct H as [H4 H]. apply neq_false in H4.
  apply fail_if_bind_Ok in H; destruct H as [H5 H]. apply neq_false in H5.
  apply fail_if_bind_Ok in H; destruct H as [H6 H]. apply neq_false in H6.
  apply fail_if_bind_Ok in H; destruct H as [H7 H]. apply neq_false in H7.
  cbv zeta in H. apply ret_Ok in H. destruct H as [Heq ->].
  inversion Heq; subst fs0 v.
  exists w, resp.
  split. { rewrite Hw5, Hw4, Hw3, Hw2, Hw1, Hw0, <- app_assoc. reflexivity. }
  split; [lia |].
  do 7 (split; [assumption |]).
  split; [reflexivity |].
  split; [unfold u8; apply Z.mod_pos_bound; lia |].
  inversion Hd; subst; cbn; tauto.
Qed.

Lemma getInfo_checks_command_codes_witness :
  let resp := [ACK; 6; 19; GET; READ; GO; WRITE; ERASE; ACK] in
  let p := mock 10 [reply [ACK]; reply [ACK]; reply [ACK; 0]; reply resp] in
  bsl_getInfo p = (Ok (256, 19), snd (bsl_getInfo p)) /\
  exists w resp',
    wire (snd (bsl_getInfo p)) = wire p ++ w ++ [TxEv (cmd_frame GET); RxEv resp'] /\
    length resp' = 9%nat /\
    Rx_at resp' 0 = ACK /\ Rx_at resp' 8 = ACK /\
    Rx_at resp' 3 = GET /\ Rx_at resp' 4 = READ /\ Rx_at resp' 5 = GO /\
    Rx_at resp' 6 = WRITE /\ Rx_at resp' 7 = ERASE /\
    19 = u8 (Rx_at resp' 2) /\ 0 <= 19 < 256 /\
    In 256 [8; 32; 128; 256].
Proof.
  cbv zeta. split; [vm_compute; reflexivity |].
  apply (getInfo_checks_command_codes
           (mock 10 [reply [ACK]; reply [ACK]; reply [ACK; 0];
                     reply [ACK; 6; 19; GET; READ; GO; WRITE; ERASE; ACK]])).
  vm_compute; reflexivity.
Defined.
